(** * Hailo8 installation orchestrator: a shallow embedding

    This development embeds the orchestrator of
    [hailo8_installer/installer.py] (class [Hailo8Installer]) and the
    command runner of [hailo8_installer/docker_manager.py]
    ([DockerHailo8Manager.run_command]) and states the properties of the
    specification about them.

    Conventions of the embedding:
    - a Python [str] is a [string] of bytes (its UTF-8 encoding);
    - a Python [int] is a [Z];
    - a Python [float] is carried by the text [json] writes for it;
    - the [components] dict has the six keys of [_initialize_components]
      for its whole life (no statement of the class adds or deletes a
      key), so it is a total map over the six keys, iterated in insertion
      order;
    - a method is a computation in the monad [M]: it threads the installer
      state and either returns a value or raises an exception;
    - what the operating system answers (the stage functions' verdicts,
      [subprocess.run], [time.time]) is read from an environment [Env] of
      functions of the history of calls made so far;
    - logging is not modelled. *)

From Stdlib Require Import String Ascii List ZArith Bool Lia DecimalString.
Import ListNotations.

Set Warnings "-register-all".

Local Open Scope string_scope.
Local Open Scope Z_scope.

(** ** Data model (installer.py, lines 23-51) *)

Inductive InstallStatus : Type :=
| PENDING | RUNNING | SUCCESS | FAILED | ROLLBACK | RECOVERED.

Inductive ComponentType : Type :=
| SYSTEM_CHECK | DEPENDENCIES | PCIE_DRIVER | HAILORT | DOCKER_CONFIG | VALIDATION.

(** [InstallStatus.X.value] *)
Definition InstallStatus_value (s : InstallStatus) : string :=
  match s with
  | PENDING => "pending" | RUNNING => "running" | SUCCESS => "success"
  | FAILED => "failed" | ROLLBACK => "rollback" | RECOVERED => "recovered"
  end.

(** [ComponentType.X.value] *)
Definition ComponentType_value (t : ComponentType) : string :=
  match t with
  | SYSTEM_CHECK => "system_check" | DEPENDENCIES => "dependencies"
  | PCIE_DRIVER => "pcie_driver" | HAILORT => "hailort"
  | DOCKER_CONFIG => "docker_config" | VALIDATION => "validation"
  end.

Definition InstallStatus_eqb (a b : InstallStatus) : bool :=
  match a, b with
  | PENDING, PENDING | RUNNING, RUNNING | SUCCESS, SUCCESS
  | FAILED, FAILED | ROLLBACK, ROLLBACK | RECOVERED, RECOVERED => true
  | _, _ => false
  end.

(** Python values that reach [json.dump] or come out of [json.load].  The
    two enumeration classes are plain [Enum] subclasses: their members are
    objects of their own, not strings. *)
Inductive pyval : Type :=
| PNone
| PBool (b : bool)
| PInt (n : Z)
| PFloat (repr : string)
| PStr (s : string)
| PList (l : list pyval)
| PDict (items : list (string * pyval))
| PComponentType (t : ComponentType)
| PInstallStatus (s : InstallStatus).

(** The dataclass [InstallComponent]. [rollback_data] is a
    [Dict[str, Any]] defaulting to [None]. *)
Record InstallComponent : Type := mkComponent {
  name : string;
  type : ComponentType;
  status : InstallStatus;
  version : string;
  error_msg : string;
  rollback_data : pyval;
  retry_count : Z;
  max_retries : Z
}.

(** The dataclass constructor with its defaults. *)
Definition InstallComponent_new (n : string) (t : ComponentType) (s : InstallStatus)
  : InstallComponent :=
  mkComponent n t s EmptyString EmptyString PNone 0 3.

Definition set_status (s : InstallStatus) (c : InstallComponent) : InstallComponent :=
  mkComponent (name c) (type c) s (version c) (error_msg c) (rollback_data c)
              (retry_count c) (max_retries c).

Definition set_error_msg (m : string) (c : InstallComponent) : InstallComponent :=
  mkComponent (name c) (type c) (status c) (version c) m (rollback_data c)
              (retry_count c) (max_retries c).

Definition set_retry_count (n : Z) (c : InstallComponent) : InstallComponent :=
  mkComponent (name c) (type c) (status c) (version c) (error_msg c) (rollback_data c)
              n (max_retries c).

(** The keys of the [components] dict, in insertion order. *)
Inductive Key : Type :=
| system_check | dependencies | pcie_driver | hailort | docker_config | validation.

Definition all_keys : list Key :=
  [system_check; dependencies; pcie_driver; hailort; docker_config; validation].

Definition key_name (k : Key) : string :=
  match k with
  | system_check => "system_check" | dependencies => "dependencies"
  | pcie_driver => "pcie_driver" | hailort => "hailort"
  | docker_config => "docker_config" | validation => "validation"
  end.

Definition Key_eqb (a b : Key) : bool :=
  match a, b with
  | system_check, system_check | dependencies, dependencies
  | pcie_driver, pcie_driver | hailort, hailort
  | docker_config, docker_config | validation, validation => true
  | _, _ => false
  end.

Definition key_of_name (s : string) : option Key :=
  find (fun k => String.eqb (key_name k) s) all_keys.

Definition ComponentMap : Type := Key -> InstallComponent.

Definition upd (k : Key) (c : InstallComponent) (m : ComponentMap) : ComponentMap :=
  fun k' => if Key_eqb k k' then c else m k'.

(** [_initialize_components] (lines 105-141). *)
Definition _initialize_components : ComponentMap :=
  fun k =>
    match k with
    | system_check => InstallComponent_new "系统环境检查" SYSTEM_CHECK PENDING
    | dependencies => InstallComponent_new "系统依赖安装" DEPENDENCIES PENDING
    | pcie_driver => InstallComponent_new "PCIe驱动安装" PCIE_DRIVER PENDING
    | hailort => InstallComponent_new "HailoRT运行时安装" HAILORT PENDING
    | docker_config => InstallComponent_new "Docker配置" DOCKER_CONFIG PENDING
    | validation => InstallComponent_new "安装验证" VALIDATION PENDING
    end.

(** ** Exceptions

    [Exc cls msg] is an exception object whose class is [cls] and whose
    [str()] is [msg]; every class here derives from [Exception].
    [OutOfModel] marks a path this embedding does not cover (a state file
    whose fields do not have the annotated types); no handler catches it. *)
Inductive ExcClass : Type :=
| TimeoutExpired | TypeError | ValueError | KeyError | AttributeError
| JSONDecodeError | OtherError.

Inductive exn : Type :=
| Exc (cls : ExcClass) (msg : string)
| OutOfModel.

Inductive result (A : Type) : Type :=
| Ret (a : A)
| Raise (e : exn).
Arguments Ret {A} a.
Arguments Raise {A} e.

(** What a call into the outside can do: return, or raise an exception
    of a class deriving from [Exception]. *)
Inductive outcome (A : Type) : Type :=
| Returns (a : A)
| Raises (cls : ExcClass) (msg : string).
Arguments Returns {A} a.
Arguments Raises {A} cls msg.

Definition result_of {A : Type} (o : outcome A) : result A :=
  match o with
  | Returns a => Ret a
  | Raises cls msg => Raise (Exc cls msg)
  end.

(** ** The [json] module: encoder

    [json.dump(obj, f, indent=2, ensure_ascii=False)] runs the generator
    of [json.encoder._make_iterencode] and writes each chunk to the file
    as it is produced, so what reaches the file when an object cannot be
    encoded is the text produced before it. *)

Definition dquote : ascii := "034"%char.
Definition backslash : ascii := "092"%char.
Definition newline : ascii := "010"%char.

Definition str1 (c : ascii) : string := String c EmptyString.

Definition hex_digit (n : nat) : ascii :=
  match n with
  | 0 => "0" | 1 => "1" | 2 => "2" | 3 => "3" | 4 => "4" | 5 => "5" | 6 => "6"
  | 7 => "7" | 8 => "8" | 9 => "9" | 10 => "a" | 11 => "b" | 12 => "c"
  | 13 => "d" | 14 => "e" | _ => "f"
  end%nat%char.

(** One character of [encode_basestring]: the table [ESCAPE_DCT]. *)
Definition escape_char (c : ascii) : string :=
  let n := nat_of_ascii c in
  if Ascii.eqb c dquote then String backslash (str1 dquote)
  else if Ascii.eqb c backslash then String backslash (str1 backslash)
  else if Nat.eqb n 8 then String backslash "b"
  else if Nat.eqb n 9 then String backslash "t"
  else if Nat.eqb n 10 then String backslash "n"
  else if Nat.eqb n 12 then String backslash "f"
  else if Nat.eqb n 13 then String backslash "r"
  else if Nat.ltb n 32 then
    String backslash
      (String "u" (String "0" (String "0"
         (String (hex_digit (Nat.div n 16)) (str1 (hex_digit (Nat.modulo n 16)))))))
  else str1 c.

Fixpoint escape_string (s : string) : string :=
  match s with
  | EmptyString => EmptyString
  | String c r => escape_char c ++ escape_string r
  end.

(** [encode_basestring]: the string between double quotes. *)
Definition encode_basestring (s : string) : string :=
  String dquote (escape_string s ++ str1 dquote).

(** [int.__repr__] *)
Definition int_repr (n : Z) : string := NilZero.string_of_int (Z.to_int n).

Fixpoint spaces (n : nat) : string :=
  match n with
  | O => EmptyString
  | S m => String " " (spaces m)
  end.

(** ['\n' + _indent * _current_indent_level] with [indent=2]. *)
Definition newline_indent (level : nat) : string :=
  String newline (spaces (2 * level)).

Definition not_serializable (cls : string) : exn :=
  Exc TypeError ("Object of type " ++ cls ++ " is not JSON serializable").

(** The text written and the exception that stopped the generator, if
    any. *)
Definition written : Type := (string * option exn)%type.

(** [_iterencode], [_iterencode_list] and [_iterencode_dict]. *)
Fixpoint iterencode (level : nat) (o : pyval) {struct o} : written :=
  match o with
  | PStr s => (encode_basestring s, None)
  | PNone => ("null", None)
  | PBool true => ("true", None)
  | PBool false => ("false", None)
  | PInt n => (int_repr n, None)
  | PFloat r => (r, None)
  | PList nil => ("[]", None)
  | PList l =>
      let fix elements (first : bool) (l : list pyval) : written :=
        match l with
        | nil => (EmptyString, None)
        | v :: r =>
            let sep := if first then EmptyString else "," ++ newline_indent (S level) in
            match iterencode (S level) v with
            | (t, Some e) => (sep ++ t, Some e)
            | (t, None) =>
                let (t', e') := elements false r in (sep ++ t ++ t', e')
            end
        end in
      match elements true l with
      | (t, Some e) => ("[" ++ newline_indent (S level) ++ t, Some e)
      | (t, None) => ("[" ++ newline_indent (S level) ++ t ++ newline_indent level ++ "]", None)
      end
  | PDict nil => ("{}", None)
  | PDict items =>
      let fix members (first : bool) (l : list (string * pyval)) : written :=
        match l with
        | nil => (EmptyString, None)
        | (k, v) :: r =>
            let sep := if first then EmptyString else "," ++ newline_indent (S level) in
            let head := sep ++ encode_basestring k ++ ": " in
            match iterencode (S level) v with
            | (t, Some e) => (head ++ t, Some e)
            | (t, None) =>
                let (t', e') := members false r in (head ++ t ++ t', e')
            end
        end in
      match members true items with
      | (t, Some e) => ("{" ++ newline_indent (S level) ++ t, Some e)
      | (t, None) => ("{" ++ newline_indent (S level) ++ t ++ newline_indent level ++ "}", None)
      end
  | PComponentType _ => (EmptyString, Some (not_serializable "ComponentType"))
  | PInstallStatus _ => (EmptyString, Some (not_serializable "InstallStatus"))
  end.

(** [dataclasses.asdict]: the fields in declaration order; enumeration
    members are copied as they are. *)
Definition asdict (c : InstallComponent) : pyval :=
  PDict [ ("name", PStr (name c));
          ("type", PComponentType (type c));
          ("status", PInstallStatus (status c));
          ("version", PStr (version c));
          ("error_msg", PStr (error_msg c));
          ("rollback_data", rollback_data c);
          ("retry_count", PInt (retry_count c));
          ("max_retries", PInt (max_retries c)) ].


(** ** The [json] module: decoder

    [json.load] reads the whole file and runs the scanner of
    [json.scanner] with [json.decoder.JSONObject], [JSONArray] and
    [scanstring].  A scan returns the value and the text left, fails with
    [JSONDecodeError], or runs out of the fuel that bounds the recursion
    here. *)

Inductive scanned (A : Type) : Type :=
| Scanned (a : A) (rest : string)
| Malformed (msg : string)
| Exhausted.
Arguments Scanned {A} a rest.
Arguments Malformed {A} msg.
Arguments Exhausted {A}.

Definition is_ws (c : ascii) : bool :=
  match nat_of_ascii c with
  | 32%nat | 9%nat | 10%nat | 13%nat => true
  | _ => false
  end.

Fixpoint skip_ws (s : string) : string :=
  match s with
  | String c r => if is_ws c then skip_ws r else s
  | EmptyString => s
  end.

Definition is_digit (c : ascii) : bool :=
  let n := nat_of_ascii c in (Nat.leb 48 n && Nat.leb n 57)%bool.

Definition hex_val (c : ascii) : option N :=
  let n := N_of_ascii c in
  if (N.leb 48 n && N.leb n 57)%bool then Some (n - 48)%N
  else if (N.leb 97 n && N.leb n 102)%bool then Some (n - 87)%N
  else if (N.leb 65 n && N.leb n 70)%bool then Some (n - 55)%N
  else None.

Definition hex4 (a b c d : ascii) : option N :=
  match hex_val a, hex_val b, hex_val c, hex_val d with
  | Some x, Some y, Some z, Some w => Some (((x * 16 + y) * 16 + z) * 16 + w)%N
  | _, _, _, _ => None
  end.

(** The bytes of a code point (a lone surrogate takes the three-byte
    form). *)
Definition utf8 (cp : N) : string :=
  let b (n : N) := ascii_of_N n in
  (if cp <? 128 then str1 (b cp)
   else if cp <? 2048 then String (b (192 + cp / 64)) (str1 (b (128 + cp mod 64)))
   else if cp <? 65536 then
     String (b (224 + cp / 4096))
       (String (b (128 + (cp / 64) mod 64)) (str1 (b (128 + cp mod 64))))
   else
     String (b (240 + cp / 262144))
       (String (b (128 + (cp / 4096) mod 64))
          (String (b (128 + (cp / 64) mod 64)) (str1 (b (128 + cp mod 64))))))%N.

Definition is_high_surrogate (n : N) : bool := (N.leb 55296 n && N.leb n 56319)%bool.
Definition is_low_surrogate (n : N) : bool := (N.leb 56320 n && N.leb n 57343)%bool.

(** The table [BACKSLASH] of the decoder. *)
Definition unescape (e : ascii) : option ascii :=
  if Ascii.eqb e dquote then Some dquote
  else if Ascii.eqb e backslash then Some backslash
  else if Ascii.eqb e "/" then Some "/"%char
  else if Ascii.eqb e "b" then Some "008"%char
  else if Ascii.eqb e "f" then Some "012"%char
  else if Ascii.eqb e "n" then Some "010"%char
  else if Ascii.eqb e "r" then Some "013"%char
  else if Ascii.eqb e "t" then Some "009"%char
  else None.

Definition prepend (p : string) (r : scanned string) : scanned string :=
  match r with
  | Scanned a rest => Scanned (p ++ a) rest
  | Malformed m => Malformed m
  | Exhausted => Exhausted
  end.

(** [scanstring] (strict): the text after the opening quote, up to the
    closing one. *)
Fixpoint scanstring (s : string) : scanned string :=
  match s with
  | EmptyString => Malformed "Unterminated string starting at"
  | String c r =>
      if Ascii.eqb c dquote then Scanned EmptyString r
      else if Ascii.eqb c backslash then
        match r with
        | EmptyString => Malformed "Unterminated string starting at"
        | String e r1 =>
            if Ascii.eqb e "u" then
              match r1 with
              | String h1 (String h2 (String h3 (String h4 r2))) =>
                  match hex4 h1 h2 h3 h4 with
                  | None => Malformed "Invalid \uXXXX escape"
                  | Some uni =>
                      if is_high_surrogate uni then
                        match r2 with
                        | String b (String u (String h5 (String h6 (String h7 (String h8 r3))))) =>
                            if (Ascii.eqb b backslash && Ascii.eqb u "u")%bool then
                              match hex4 h5 h6 h7 h8 with
                              | Some uni2 =>
                                  if is_low_surrogate uni2 then
                                    prepend (utf8 (65536 + (uni - 55296) * 1024 + (uni2 - 56320))%N)
                                            (scanstring r3)
                                  else prepend (utf8 uni) (scanstring r2)
                              | None => Malformed "Invalid \uXXXX escape"
                              end
                            else prepend (utf8 uni) (scanstring r2)
                        | _ => prepend (utf8 uni) (scanstring r2)
                        end
                      else prepend (utf8 uni) (scanstring r2)
                  end
              | _ => Malformed "Invalid \uXXXX escape"
              end
            else
              match unescape e with
              | Some ch => prepend (str1 ch) (scanstring r1)
              | None => Malformed "Invalid \escape"
              end
        end
      else if Nat.ltb (nat_of_ascii c) 32 then Malformed "Invalid control character at"
      else prepend (str1 c) (scanstring r)
  end.

Fixpoint take_digits (s : string) : string * string :=
  match s with
  | String c r =>
      if is_digit c then let (d, rest) := take_digits r in (String c d, rest)
      else (EmptyString, s)
  | EmptyString => (EmptyString, EmptyString)
  end.

Fixpoint digits_value (acc : Z) (s : string) : Z :=
  match s with
  | String c r => digits_value (10 * acc + (Z.of_nat (nat_of_ascii c) - 48)) r
  | EmptyString => acc
  end.

Definition is_empty (s : string) : bool :=
  match s with EmptyString => true | _ => false end.

(** [NUMBER_RE]: an optional minus sign, then a zero or a run of digits
    that does not start with a zero, then optionally a point with digits,
    then optionally an exponent.  An integer becomes an [int], anything
    with a fraction or an exponent a [float].  A [float] that was read
    is carried by the text it was read from, which need not be the text
    [json.dump] would write for it (1E5 is written 100000.0): the
    orchestrator never writes a value it has read, its encoder stopping
    at the [type] of the first component (lemma [save_state_eq]). *)
Definition match_number (s : string) : option (pyval * string) :=
  let (neg, s1) := match s with
                   | String "-" r => (true, r)
                   | _ => (false, s)
                   end in
  match s1 with
  | String d r =>
      if is_digit d then
        let (ipart, r1) := if Ascii.eqb d "0" then ("0", r) else take_digits s1 in
        let (frac, r2) :=
          match r1 with
          | String "." r' =>
              let (fd, r'') := take_digits r' in
              if is_empty fd then (EmptyString, r1) else (String "." fd, r'')
          | _ => (EmptyString, r1)
          end in
        let (ex, r3) :=
          match r2 with
          | String e r' =>
              if (Ascii.eqb e "e" || Ascii.eqb e "E")%bool then
                let (sg, r'') := match r' with
                                 | String "+" x => ("+", x)
                                 | String "-" x => ("-", x)
                                 | _ => (EmptyString, r')
                                 end in
                let (ed, r4) := take_digits r'' in
                if is_empty ed then (EmptyString, r2) else (String e (sg ++ ed), r4)
              else (EmptyString, r2)
          | EmptyString => (EmptyString, r2)
          end in
        if (is_empty frac && is_empty ex)%bool then
          Some (PInt ((if neg then -1 else 1) * digits_value 0 ipart), r3)
        else
          Some (PFloat ((if neg then "-" else EmptyString) ++ ipart ++ frac ++ ex), r3)
      else None
  | EmptyString => None
  end.

Fixpoint strip_prefix (p s : string) : option string :=
  match p, s with
  | EmptyString, _ => Some s
  | String a p', String b s' => if Ascii.eqb a b then strip_prefix p' s' else None
  | String _ _, EmptyString => None
  end.

(** [dict(pairs)]: a repeated key keeps its first position and takes the
    last value. *)
Fixpoint dict_set (k : string) (v : pyval) (d : list (string * pyval))
  : list (string * pyval) :=
  match d with
  | nil => [(k, v)]
  | (k', v') :: r => if String.eqb k k' then (k', v) :: r else (k', v') :: dict_set k v r
  end.

Definition dict_of_pairs (pairs : list (string * pyval)) : list (string * pyval) :=
  fold_left (fun d kv => dict_set (fst kv) (snd kv) d) pairs nil.

Definition scan_literal (s : string) : scanned pyval :=
  match strip_prefix "null" s with
  | Some r => Scanned PNone r
  | None =>
  match strip_prefix "true" s with
  | Some r => Scanned (PBool true) r
  | None =>
  match strip_prefix "false" s with
  | Some r => Scanned (PBool false) r
  | None =>
  match match_number s with
  | Some (v, r) => Scanned v r
  | None =>
  match strip_prefix "NaN" s with
  | Some r => Scanned (PFloat "NaN") r
  | None =>
  match strip_prefix "Infinity" s with
  | Some r => Scanned (PFloat "Infinity") r
  | None =>
  match strip_prefix "-Infinity" s with
  | Some r => Scanned (PFloat "-Infinity") r
  | None => Malformed "Expecting value"
  end end end end end end end.

(** [scan_once], the loop of [JSONObject] (entered after the opening
    quote of a key) and the loop of [JSONArray]. *)
Fixpoint scan_once (fuel : nat) (s : string) {struct fuel} : scanned pyval :=
  match fuel with
  | O => Exhausted
  | S f =>
      match s with
      | EmptyString => Malformed "Expecting value"
      | String c r =>
          if Ascii.eqb c dquote then
            match scanstring r with
            | Scanned a rest => Scanned (PStr a) rest
            | Malformed m => Malformed m
            | Exhausted => Exhausted
            end
          else if Ascii.eqb c "{" then
            match skip_ws r with
            | String c1 r1 =>
                if Ascii.eqb c1 "}" then Scanned (PDict nil) r1
                else if Ascii.eqb c1 dquote then object_loop f r1 nil
                else Malformed "Expecting property name enclosed in double quotes"
            | EmptyString => Malformed "Expecting property name enclosed in double quotes"
            end
          else if Ascii.eqb c "[" then
            match skip_ws r with
            | String "]" r1 => Scanned (PList nil) r1
            | r1 => array_loop f r1 nil
            end
          else scan_literal s
      end
  end
with object_loop (fuel : nat) (s : string) (pairs : list (string * pyval)) {struct fuel}
  : scanned pyval :=
  match fuel with
  | O => Exhausted
  | S f =>
      match scanstring s with
      | Scanned key r =>
          match skip_ws r with
          | String ":" r1 =>
              match scan_once f (skip_ws r1) with
              | Scanned v r2 =>
                  match skip_ws r2 with
                  | String c3 r3 =>
                      if Ascii.eqb c3 "}" then
                        Scanned (PDict (dict_of_pairs (pairs ++ [(key, v)]))) r3
                      else if Ascii.eqb c3 "," then
                        match skip_ws r3 with
                        | String c4 r4 =>
                            if Ascii.eqb c4 dquote then object_loop f r4 (pairs ++ [(key, v)])
                            else Malformed "Expecting property name enclosed in double quotes"
                        | EmptyString =>
                            Malformed "Expecting property name enclosed in double quotes"
                        end
                      else Malformed "Expecting ',' delimiter"
                  | EmptyString => Malformed "Expecting ',' delimiter"
                  end
              | Malformed m => Malformed m
              | Exhausted => Exhausted
              end
          | _ => Malformed "Expecting ':' delimiter"
          end
      | Malformed m => Malformed m
      | Exhausted => Exhausted
      end
  end
with array_loop (fuel : nat) (s : string) (values : list pyval) {struct fuel}
  : scanned pyval :=
  match fuel with
  | O => Exhausted
  | S f =>
      match scan_once f s with
      | Scanned v r =>
          match skip_ws r with
          | String c1 r1 =>
              if Ascii.eqb c1 "]" then Scanned (PList (values ++ [v])) r1
              else if Ascii.eqb c1 "," then array_loop f (skip_ws r1) (values ++ [v])
              else Malformed "Expecting ',' delimiter"
          | EmptyString => Malformed "Expecting ',' delimiter"
          end
      | Malformed m => Malformed m
      | Exhausted => Exhausted
      end
  end.

(** U+FEFF in UTF-8. *)
Definition utf8_bom : string :=
  String (ascii_of_N 239) (String (ascii_of_N 187) (String (ascii_of_N 191) EmptyString)).

(** [json.loads]: no byte order mark, then one value between optional
    white space, nothing after.  The fuel bounds the recursion of the
    scanner; twice the length of the text and two is never used up
    (lemma [json_loads_in_model]). *)
Definition json_loads (text : string) : result pyval :=
  if String.prefix utf8_bom text then
    Raise (Exc JSONDecodeError "Unexpected UTF-8 BOM (decode using utf-8-sig)")
  else
    match scan_once (2 * String.length text + 2) (skip_ws text) with
    | Scanned v r =>
        match skip_ws r with
        | EmptyString => Ret v
        | String _ _ => Raise (Exc JSONDecodeError "Extra data")
        end
    | Malformed m => Raise (Exc JSONDecodeError m)
    | Exhausted => Raise OutOfModel
    end.

(** What is left of the text after a scan is no longer than [n], and
    the scan did not run out of fuel. *)
Definition bounded {A : Type} (n : nat) (r : scanned A) : Prop :=
  match r with
  | Scanned _ rest => (String.length rest <= n)%nat
  | Malformed _ => True
  | Exhausted => False
  end.

(** ** Decoding a file

    [open(path, 'r', encoding='utf-8')] followed by [read()] decodes the
    bytes of the file with the strict UTF-8 codec: [UnicodeDecodeError]
    (a [ValueError]) on a byte that starts no character, a character cut
    short, an overlong form, a surrogate or a code point above
    U+10FFFF. *)
Definition byte_in (lo hi : N) (c : ascii) : bool :=
  let x := N_of_ascii c in ((lo <=? x) && (x <=? hi))%N.

Fixpoint utf8_decodable (s : string) : bool :=
  match s with
  | EmptyString => true
  | String c r =>
      let b := N_of_ascii c in
      if (b <? 128)%N then utf8_decodable r
      else if ((194 <=? b) && (b <=? 223))%N then
        match r with
        | String c1 r1 => byte_in 128 191 c1 && utf8_decodable r1
        | _ => false
        end
      else if ((224 <=? b) && (b <=? 239))%N then
        match r with
        | String c1 (String c2 r2) =>
            (if (b =? 224)%N then byte_in 160 191 c1
             else if (b =? 237)%N then byte_in 128 159 c1
             else byte_in 128 191 c1)
            && byte_in 128 191 c2 && utf8_decodable r2
        | _ => false
        end
      else if ((240 <=? b) && (b <=? 244))%N then
        match r with
        | String c1 (String c2 (String c3 r3)) =>
            (if (b =? 240)%N then byte_in 144 191 c1
             else if (b =? 244)%N then byte_in 128 143 c1
             else byte_in 128 191 c1)
            && byte_in 128 191 c2 && byte_in 128 191 c3 && utf8_decodable r3
        | _ => false
        end
      else false
  end.

(** [f.read()] on a file opened for reading as UTF-8 text. *)
Definition read_utf8 (bytes : string) : result string :=
  if utf8_decodable bytes then Ret bytes
  else Raise (Exc ValueError "'utf-8' codec can't decode byte: invalid start byte").

Definition sample_doc : pyval :=
  PDict [("a", PList [PInt 1; PNone; PFloat "1.5"]);
         ("b", PStr (String newline (String dquote "x系")));
         ("c", PDict nil); ("d", PInt (-12)); ("e", PBool true)].


(** ** Installer state, environment and the monad of methods *)

(** What the orchestrator did to the outside, most recent first: a stage
    function or a repair function was entered (with the statuses of the
    six components at that moment, in pipeline order), or
    [subprocess.run] was called by the code modelled here.  The commands
    a stage function runs inside are part of its verdict. *)
Inductive Event : Type :=
| EvInstall (k : Key) (statuses : list InstallStatus)
| EvRepair (k : Key) (statuses : list InstallStatus)
| EvRun (argv : list string).

(** [subprocess.CompletedProcess] with [text=True]. *)
Record CompletedProcess : Type := mkCompleted {
  returncode : Z;
  stdout : string;
  stderr : string
}.

Record Env : Type := mkEnv {
  (** the verdict of a stage function: it returns a boolean or raises *)
  stage : Key -> list Event -> outcome bool;
  (** [subprocess.run(argv, timeout=...)]: a completed process, or
      [TimeoutExpired], or another exception (the program was not found,
      permission denied, ...) *)
  run_outcome : list string -> Z -> list Event -> outcome CompletedProcess;
  (** [time.time()] *)
  time_time : list Event -> string
}.

(** The [Hailo8Installer] object and the files it shares with later
    runs. *)
Record Installer : Type := mkInstaller {
  install_dir : string;
  components : ComponentMap;
  files : string -> option string;
  history : list Event
}.

(** [self.state_file = self.install_dir / "install_state.json"] *)
Definition state_file (st : Installer) : string :=
  install_dir st ++ "/install_state.json".

Definition M (A : Type) : Type := Installer -> result A * Installer.

Definition ret {A : Type} (a : A) : M A := fun st => (Ret a, st).

Definition raise {A : Type} (e : exn) : M A := fun st => (Raise e, st).

Definition bind {A B : Type} (m : M A) (f : A -> M B) : M B :=
  fun st =>
    match m st with
    | (Ret a, st') => f a st'
    | (Raise e, st') => (Raise e, st')
    end.

Declare Scope py_scope.
Delimit Scope py_scope with py.
Notation "x <- m ;; k" := (bind m (fun x => k))
  (at level 100, m at next level, right associativity) : py_scope.
Notation "m ;; k" := (bind m (fun _ => k))
  (at level 100, right associativity) : py_scope.
Local Open Scope py_scope.

(** [try: body except Exception as e: handler(e)].  The state changes
    made by [body] before it raised stay. *)
Definition try_except {A : Type} (body : M A) (handler : ExcClass -> string -> M A) : M A :=
  fun st =>
    match body st with
    | (Raise (Exc cls msg), st') => handler cls msg st'
    | other => other
    end.

Definition lift {A : Type} (r : result A) : M A := fun st => (r, st).

Definition get_component (k : Key) : M InstallComponent :=
  fun st => (Ret (components st k), st).

(** An assignment to a field of [self.components[k]]. *)
Definition mod_comp (k : Key) (f : InstallComponent -> InstallComponent) (st : Installer)
  : Installer :=
  mkInstaller (install_dir st) (upd k (f (components st k)) (components st))
              (files st) (history st).

Definition modify_component (k : Key) (f : InstallComponent -> InstallComponent) : M unit :=
  fun st => (Ret tt, mod_comp k f st).

Definition set_component (k : Key) (c : InstallComponent) : M unit :=
  modify_component k (fun _ => c).

Definition write_file (path text : string) (fs : string -> option string)
  : string -> option string :=
  fun p => if String.eqb p path then Some text else fs p.

Definition log_event (e : Event) (st : Installer) : Installer :=
  mkInstaller (install_dir st) (components st) (files st) (e :: history st).

Definition snapshot (st : Installer) : list InstallStatus :=
  map (fun k => status (components st k)) all_keys.

Fixpoint for_each {A : Type} (l : list A) (body : A -> M unit) : M unit :=
  match l with
  | nil => ret tt
  | a :: r => body a ;; for_each r body
  end.

Section Orchestrator.

Variable env : Env.

(** ** CommandRunner *)

Definition subprocess_run (argv : list string) (timeout : Z) : M CompletedProcess :=
  fun st => (result_of (run_outcome env argv timeout (history st)), log_event (EvRun argv) st).

Definition timeout_message : string := "命令执行超时".

(** [Hailo8Installer._execute_command] (lines 178-207). *)
Definition _execute_command (command : list string) (timeout : Z) (capture_output : bool)
  : M (bool * string * string) :=
  try_except
    (result <- subprocess_run command timeout ;;
     let success := returncode result =? 0 in
     let out := if capture_output then stdout result else EmptyString in
     let err := if capture_output then stderr result else EmptyString in
     ret (success, out, err))
    (fun cls msg =>
       match cls with
       | TimeoutExpired => ret (false, EmptyString, timeout_message)
       | _ => ret (false, EmptyString, msg)
       end).

(** The call with the default [timeout=300], [capture_output=True]. *)
Definition execute (command : list string) : M (bool * string * string) :=
  _execute_command command 300 true.

(** [DockerHailo8Manager.run_command] (docker_manager.py, lines 70-85). *)
Definition run_command (command : list string) (timeout : Z) : M (bool * string * string) :=
  try_except
    (result <- subprocess_run command timeout ;;
     ret (returncode result =? 0, stdout result, stderr result))
    (fun cls msg =>
       match cls with
       | TimeoutExpired => ret (false, EmptyString, timeout_message)
       | _ => ret (false, EmptyString, msg)
       end).

(** ** StateStore *)

(** [with open(path, 'w') as f: json.dump(obj, f, indent=2,
    ensure_ascii=False)]: opening truncates the file, the chunks are
    written as they come, the exception of the encoder (if any) leaves
    the [with] block after the file is closed. *)
Definition json_dump_to (path : string) (obj : pyval) : M unit :=
  fun st =>
    let (text, err) := iterencode 0 obj in
    (match err with
     | None => Ret tt
     | Some e => Raise e
     end,
     mkInstaller (install_dir st) (components st) (write_file path text (files st))
                 (history st)).

Definition state_data (st : Installer) : pyval :=
  PDict [ ("components",
           PDict (map (fun k => (key_name k, asdict (components st k))) all_keys));
          ("timestamp", PFloat (time_time env (history st)));
          ("install_dir", PStr (install_dir st)) ].

(** [_save_state] (lines 143-156). *)
Definition _save_state : M unit :=
  try_except
    (fun st => json_dump_to (state_file st) (state_data st) st)
    (fun _ _ => ret tt).

(** [ComponentType(v)] and [InstallStatus(v)]: the member with that
    value, [ValueError] for anything else. *)
Definition ComponentType_of (v : pyval) : result ComponentType :=
  match v with
  | PStr s =>
      match find (fun t => String.eqb (ComponentType_value t) s)
                 [SYSTEM_CHECK; DEPENDENCIES; PCIE_DRIVER; HAILORT; DOCKER_CONFIG; VALIDATION]
      with
      | Some t => Ret t
      | None => Raise (Exc ValueError (s ++ " is not a valid ComponentType"))
      end
  | PComponentType t => Ret t
  | _ => Raise (Exc ValueError "not a valid ComponentType")
  end.

Definition InstallStatus_of (v : pyval) : result InstallStatus :=
  match v with
  | PStr s =>
      match find (fun t => String.eqb (InstallStatus_value t) s)
                 [PENDING; RUNNING; SUCCESS; FAILED; ROLLBACK; RECOVERED]
      with
      | Some t => Ret t
      | None => Raise (Exc ValueError (s ++ " is not a valid InstallStatus"))
      end
  | PInstallStatus t => Ret t
  | _ => Raise (Exc ValueError "not a valid InstallStatus")
  end.

Fixpoint dict_get (k : string) (d : list (string * pyval)) : option pyval :=
  match d with
  | nil => None
  | (k', v) :: r => if String.eqb k k' then Some v else dict_get k r
  end.

Definition field_names : list string :=
  ["name"; "type"; "status"; "version"; "error_msg"; "rollback_data";
   "retry_count"; "max_retries"].

Definition str_field (d : list (string * pyval)) (k : string) (default : string)
  : result string :=
  match dict_get k d with
  | None => Ret default
  | Some (PStr s) => Ret s
  | Some _ => Raise OutOfModel
  end.

Definition int_field (d : list (string * pyval)) (k : string) (default : Z) : result Z :=
  match dict_get k d with
  | None => Ret default
  | Some (PInt n) => Ret n
  | Some _ => Raise OutOfModel
  end.

Definition rbind {A B : Type} (r : result A) (f : A -> result B) : result B :=
  match r with
  | Ret a => f a
  | Raise e => Raise e
  end.

(** The three statements of the loop body of [_load_state] on one entry:
    the two enumeration lookups, then the call of the dataclass constructor on the entry's keys.
    The constructor does not check the annotations: given a [name],
    [version] or [error_msg] that is not a string, or a [retry_count] or
    [max_retries] that is not an integer, Python stores the value as it
    is.  The record here has no place for such a component, and the
    constructor gives [OutOfModel] for it: nothing is stated about a
    state file of that kind. *)
Definition component_of_data (component_data : pyval) : result InstallComponent :=
  match component_data with
  | PDict d =>
      match dict_get "type" d with
      | None => Raise (Exc KeyError "'type'")
      | Some tv =>
          rbind (ComponentType_of tv) (fun t =>
          match dict_get "status" d with
          | None => Raise (Exc KeyError "'status'")
          | Some sv =>
              rbind (InstallStatus_of sv) (fun s =>
              if negb (forallb (fun kv => existsb (String.eqb (fst kv)) field_names) d)
              then Raise (Exc TypeError "__init__() got an unexpected keyword argument")
              else
                match dict_get "name" d with
                | None => Raise (Exc TypeError "__init__() missing 1 required positional argument: 'name'")
                | Some (PStr n) =>
                    rbind (str_field d "version" EmptyString) (fun v =>
                    rbind (str_field d "error_msg" EmptyString) (fun m =>
                    rbind (int_field d "retry_count" 0) (fun rc =>
                    rbind (int_field d "max_retries" 3) (fun mr =>
                    Ret (mkComponent n t s v m
                           (match dict_get "rollback_data" d with
                            | Some x => x
                            | None => PNone
                            end) rc mr)))))
                | Some _ => Raise OutOfModel
                end)
          end)
      end
  | _ => Raise (Exc TypeError "indices must be integers")
  end.

(** [state_data.get("components", {}).items()] *)
Definition components_items (state_data : pyval) : result (list (string * pyval)) :=
  match state_data with
  | PDict d =>
      match dict_get "components" d with
      | None => Ret nil
      | Some (PDict items) => Ret items
      | Some _ => Raise (Exc AttributeError "object has no attribute 'items'")
      end
  | _ => Raise (Exc AttributeError "object has no attribute 'get'")
  end.

(** [_load_state] (lines 158-176). *)
Definition _load_state : M unit :=
  try_except
    (fun st =>
       match files st (state_file st) with
       | None => ret tt st
       | Some bytes =>
           (text <- lift (read_utf8 bytes) ;;
            state_data <- lift (json_loads text) ;;
            items <- lift (components_items state_data) ;;
            for_each items (fun entry =>
              match key_of_name (fst entry) with
              | None => ret tt
              | Some k =>
                  c <- lift (component_of_data (snd entry)) ;;
                  set_component k c
              end)) st
       end)
    (fun _ _ => ret tt).

(** [Hailo8Installer.__init__] (lines 56-75) over the files [fs]: the
    directories and the log file it creates are not the state file. *)
Definition Hailo8Installer_init (dir : string) (fs : string -> option string)
  (h : list Event) : result unit * Installer :=
  _load_state (mkInstaller dir _initialize_components fs h).

(** ** The stage functions

    Each is a verdict of the environment. *)
Definition stage_call (k : Key) : M bool :=
  fun st => (result_of (stage env k (history st)), log_event (EvInstall k (snapshot st)) st).

Definition check_system_environment : M bool := stage_call system_check.
Definition install_dependencies : M bool := stage_call dependencies.
Definition install_pcie_driver : M bool := stage_call pcie_driver.
Definition install_hailort : M bool := stage_call hailort.
Definition configure_docker : M bool := stage_call docker_config.
Definition validate_installation : M bool := stage_call validation.

(** ** The retry wrapper *)

(** [component.retry_count += 1] *)
Definition count_retry (c : InstallComponent) : InstallComponent :=
  set_retry_count (retry_count c + 1) c.

(** One turn of the [while] loop of [_retry_operation] (the [try]
    statement, lines 214-233): [Some b] stands for [return b], [None]
    for reaching the end of the body. *)
Definition retry_attempt (operation_func : M bool) (k : Key) : M (option bool) :=
  try_except
    (modify_component k (set_status RUNNING) ;;
     _save_state ;;
     result <- operation_func ;;
     if (result : bool) then
       modify_component k (set_status SUCCESS) ;;
       modify_component k (set_error_msg EmptyString) ;;
       _save_state ;;
       ret (Some true)
     else
       modify_component k count_retry ;;
       ret None)
    (fun _ msg =>
       modify_component k count_retry ;;
       modify_component k (set_error_msg msg) ;;
       ret None).

(** The [while] loop of [_retry_operation] (lines 213-233) and the three
    statements after it.  [fuel] bounds the number of turns. *)
Fixpoint retry_loop (fuel : nat) (operation_func : M bool) (k : Key) {struct fuel} : M bool :=
  component <- get_component k ;;
  if retry_count component <? max_retries component then
    match fuel with
    | O => raise OutOfModel
    | S f =>
        r <- retry_attempt operation_func k ;;
        match r with
        | Some b => ret b
        | None => retry_loop f operation_func k
        end
    end
  else
    modify_component k (set_status FAILED) ;;
    _save_state ;;
    ret false.

(** [_retry_operation] (lines 209-238). *)
Definition _retry_operation (operation_func : M bool) (k : Key) : M bool :=
  fun st =>
    let c := components st k in
    retry_loop (Z.to_nat (max_retries c - retry_count c)) operation_func k st.

(** ** Repair *)

(** [_load_hailo_driver] (lines 530-558). *)
Definition _load_hailo_driver : M bool :=
  try_except
    (r <- execute ["modprobe"; "hailo_pci"] ;;
     if fst (fst r) then ret true
     else
       r1 <- execute ["insmod"; "/lib/modules/$(uname -r)/extra/hailo_pci.ko"] ;;
       if fst (fst r1) then ret true
       else
         r2 <- execute ["insmod"; "/lib/modules/$(uname -r)/kernel/drivers/misc/hailo_pci.ko"] ;;
         if fst (fst r2) then ret true
         else ret false)
    (fun _ _ => ret false).

Definition _repair_system_check : M bool :=
  execute ["apt"; "update"] ;;
  execute ["apt"; "install"; "-y"; "lsb-release"; "pciutils"] ;;
  ret true.

Definition _repair_dependencies : M bool :=
  execute ["apt"; "--fix-broken"; "install"; "-y"] ;;
  execute ["dpkg"; "--configure"; "-a"] ;;
  ret true.

Definition _repair_pcie_driver : M bool :=
  execute ["dkms"; "autoinstall"] ;;
  _load_hailo_driver.

Definition _repair_hailort : M bool := install_hailort.

Definition _repair_docker_config : M bool :=
  execute ["systemctl"; "restart"; "docker"] ;;
  ret true.

Definition _repair_validation : M bool :=
  execute ["rmmod"; "hailo_pci"] ;;
  _load_hailo_driver.

Definition repair_strategies (k : Key) : M bool :=
  match k with
  | system_check => _repair_system_check
  | dependencies => _repair_dependencies
  | pcie_driver => _repair_pcie_driver
  | hailort => _repair_hailort
  | docker_config => _repair_docker_config
  | validation => _repair_validation
  end.

(** [_attempt_repair] (lines 944-964). *)
Definition _attempt_repair (k : Key) : M bool :=
  fun st => repair_strategies k (log_event (EvRepair k (snapshot st)) st).

(** ** The pipeline *)

Definition install_steps : list (Key * M bool) :=
  [ (system_check, check_system_environment);
    (dependencies, install_dependencies);
    (pcie_driver, install_pcie_driver);
    (hailort, install_hailort);
    (docker_config, configure_docker);
    (validation, validate_installation) ].

(** The [for] loop of [install_all] (lines 374-399) from a given
    position of [install_steps], and the [return True] after it. *)
Fixpoint run_steps (steps : list (Key * M bool)) : M bool :=
  match steps with
  | nil => ret true
  | (component_name, install_func) :: rest =>
      component <- get_component component_name ;;
      if InstallStatus_eqb (status component) SUCCESS then run_steps rest
      else
        success <- _retry_operation install_func component_name ;;
        if negb success then
          repaired <- _attempt_repair component_name ;;
          if (repaired : bool) then run_steps rest
          else ret false
        else run_steps rest
  end.

(** [install_all] (lines 359-402). *)
Definition install_all : M bool := run_steps install_steps.

(** ** Rollback *)

(** [rollback_installation] (lines 917-942). *)
Definition rollback_installation : M bool :=
  execute ["systemctl"; "stop"; "docker"] ;;
  execute ["rmmod"; "hailo_pci"] ;;
  execute ["dpkg"; "-r"; "hailort"] ;;
  execute ["dpkg"; "-r"; "hailort-pcie-driver"] ;;
  execute ["pip3"; "uninstall"; "-y"; "hailort"] ;;
  for_each all_keys (fun k =>
    modify_component k (set_status PENDING) ;;
    modify_component k (set_error_msg EmptyString) ;;
    modify_component k (set_retry_count 0)) ;;
  _save_state ;;
  ret true.

End Orchestrator.

(** ** Observations on a run *)

(** What [json.dump] has written when [_save_state] returns. *)
Definition saved_text (env : Env) (st : Installer) : string :=
  fst (iterencode 0 (state_data env st)).

(** The state after [_save_state]. *)
Definition saved (env : Env) (st : Installer) : Installer :=
  mkInstaller (install_dir st) (components st)
              (write_file (state_file st) (saved_text env st) (files st)) (history st).

Definition saved_head : string :=
  Eval cbv in
    ("{" ++ newline_indent 1 ++ encode_basestring "components" ++ ": {"
         ++ newline_indent 2 ++ encode_basestring "system_check" ++ ": {"
         ++ newline_indent 3 ++ encode_basestring "name" ++ ": " ++ str1 dquote).

Definition saved_tail : string :=
  Eval cbv in ("," ++ newline_indent 3 ++ encode_basestring "type" ++ ": ").

Definition is_install (k : Key) (e : Event) : bool :=
  match e with
  | EvInstall k' _ => Key_eqb k k'
  | _ => false
  end.

Definition is_repair (k : Key) (e : Event) : bool :=
  match e with
  | EvRepair k' _ => Key_eqb k k'
  | _ => false
  end.

Definition is_invocation (e : Event) : bool :=
  match e with
  | EvInstall _ _ | EvRepair _ _ => true
  | EvRun _ => false
  end.

(** How many times the install function of [k] was entered. *)
Definition installs_of (k : Key) (h : list Event) : nat :=
  List.length (filter (is_install k) h).

(** How many times the repair function of [k] was entered. *)
Definition repairs_of (k : Key) (h : list Event) : nat :=
  List.length (filter (is_repair k) h).

(** How many times any install or repair function was entered. *)
Definition invocations (h : list Event) : nat :=
  List.length (filter is_invocation h).

(** The state file is absent, or holds what [_save_state] leaves. *)
Definition state_file_unreadable (st : Installer) : Prop :=
  files st (state_file st) = None \/
  exists n, files st (state_file st)
            = Some (saved_head ++ escape_string n ++ String dquote saved_tail).

(** What the loop of [rollback_installation] does to a component. *)
Definition reset_component (c : InstallComponent) : InstallComponent :=
  set_retry_count 0 (set_error_msg EmptyString (set_status PENDING c)).

(** An event is a call of [subprocess.run]. *)
Definition is_run (e : Event) : bool :=
  match e with
  | EvRun _ => true
  | _ => false
  end.

(** The state after the events [evs] (most recent first) were added. *)
Definition log_events (evs : list Event) (st : Installer) : Installer :=
  mkInstaller (install_dir st) (components st) (files st) (evs ++ history st).

(** A computation takes every state to a state related to it by [R]. *)
Definition preserves (R : Installer -> Installer -> Prop) {A : Type} (m : M A) : Prop :=
  forall st, R st (snd (m st)).

(** The state file stays unreadable. *)
Definition stays_unreadable (st st' : Installer) : Prop :=
  state_file_unreadable st -> state_file_unreadable st'.

(** The history only grows. *)
Definition extends (st st' : Installer) : Prop :=
  exists evs, history st' = (evs ++ history st)%list.

(** ** Scenarios *)

Definition completed (rc : Z) (out err : string) : outcome CompletedProcess :=
  Returns (mkCompleted rc out err).

Definition clock : list Event -> string := fun _ => "1730000000.5".

(** Every stage and every command succeeds. *)
Definition env_all_ok : Env :=
  mkEnv (fun _ _ => Returns true) (fun _ _ _ => completed 0 EmptyString EmptyString) clock.

(** [PcieDriver] fails on its first four calls, every command succeeds
    (so the repair of [PcieDriver] succeeds). *)
Definition env_pcie_fails_four_times : Env :=
  mkEnv (fun k h =>
           match k with
           | pcie_driver => Returns (Nat.leb 4 (installs_of pcie_driver h))
           | _ => Returns true
           end)
        (fun _ _ _ => completed 0 EmptyString EmptyString) clock.

(** [PcieDriver] never installs and every command fails (so its repair
    fails too). *)
Definition env_pcie_dead : Env :=
  mkEnv (fun k _ =>
           match k with
           | pcie_driver => Returns false
           | _ => Returns true
           end)
        (fun _ _ _ => completed 1 EmptyString "failed") clock.


(** [HailoRT] raises at every call; everything else succeeds. *)
Definition env_hailort_raises : Env :=
  mkEnv (fun k _ =>
           match k with
           | hailort => Raises OtherError "boom"
           | _ => Returns true
           end)
        (fun _ _ _ => completed 0 EmptyString EmptyString) clock.

(** [SystemCheck], [Dependencies] and [DockerConfig] never install and
    every command fails; the other stages succeed. *)
Definition env_three_broken : Env :=
  mkEnv (fun k _ =>
           match k with
           | system_check | dependencies | docker_config => Returns false
           | _ => Returns true
           end)
        (fun _ _ _ => completed 1 EmptyString "failed") clock.

(** Every command exits with code 1. *)
Definition env_commands_fail : Env :=
  mkEnv (fun _ _ => Returns true) (fun _ _ _ => completed 1 EmptyString "failed") clock.

Definition no_files : string -> option string := fun _ => None.

(** A fresh install directory. *)
Definition fresh : Installer :=
  snd (Hailo8Installer_init "/opt/hailo8" no_files nil).

(** An installer whose first component is recorded as succeeded after
    two failed attempts. *)
Definition progressed : Installer :=
  mkInstaller "/opt/hailo8"
    (upd system_check
       (mkComponent "系统环境检查" SYSTEM_CHECK SUCCESS EmptyString "boom" PNone 2 3)
       _initialize_components)
    no_files nil.

(** The loop of [install_all] over the first [n] steps only: the
    process is killed when it is about to enter step [n + 1]. *)
Definition install_first (env : Env) (n : nat) : M bool :=
  run_steps env (firstn n (install_steps env)).

(** A new process over the files and the history an earlier one left. *)
Definition restart (st : Installer) : Installer :=
  snd (Hailo8Installer_init (install_dir st) (files st) (history st)).


(** A state file written by hand, with the enumeration members as their
    values. *)
Definition hand_written_state : string :=
  "{" ++ encode_basestring "components" ++ ": {" ++ encode_basestring "system_check"
      ++ ": {" ++ encode_basestring "name" ++ ": " ++ encode_basestring "check"
      ++ ", " ++ encode_basestring "type" ++ ": " ++ encode_basestring "system_check"
      ++ ", " ++ encode_basestring "status" ++ ": " ++ encode_basestring "success"
      ++ ", " ++ encode_basestring "retry_count" ++ ": 2}}}".

(** The fields of a component that no statement of the pipeline
    assigns. *)
Definition same_identity (c c' : InstallComponent) : Prop :=
  name c' = name c /\ type c' = type c /\ version c' = version c /\
  rollback_data c' = rollback_data c /\ max_retries c' = max_retries c.

(** How many of the statuses are [RUNNING]. *)
Definition running_count (l : list InstallStatus) : nat :=
  List.length (filter (fun s => InstallStatus_eqb s RUNNING) l).

(** The snapshot an event carries (none for a command). *)
Definition event_snapshot (e : Event) : list InstallStatus :=
  match e with
  | EvInstall _ s | EvRepair _ s => s
  | EvRun _ => nil
  end.

(** An installer in which every component is recorded as installed. *)
Definition all_installed : Installer :=
  snd (install_all env_all_ok fresh).

(** The state the run under [env_pcie_dead] from a fresh directory
    ends in. *)
Definition pcie_dead_final : Installer :=
  snd (install_all env_pcie_dead fresh).

(** * The stage functions and the Docker manager

    The bodies of the stage functions of [installer.py], which the
    orchestrator above sees through [stage], and the installation of
    Docker of [docker_manager.py].  They run commands through
    [_execute_command] and [run_command]; what the host answers beside
    the commands is read from a [Host]. *)

(** ** [str] methods

    A [str] is carried as its UTF-8 encoding: an ASCII character is one
    byte below 128, any other character a sequence of bytes from 128
    on. *)

Definition ascii_lower (c : ascii) : ascii :=
  let n := N_of_ascii c in
  if ((65 <=? n) && (n <=? 90))%N then ascii_of_N (n + 32) else c.

(** [str.lower] as far as its ASCII output goes: the letters [A] to [Z],
    and the two characters outside ASCII whose lower case holds an ASCII
    letter (U+0130 gives [i] followed by U+0307, U+212A gives [k]).  Any
    other character outside ASCII is left as it is: [str.lower] maps it
    to characters outside ASCII, and the code only looks for ASCII words
    in the result. *)
Fixpoint lower (s : string) : string :=
  match s with
  | EmptyString => EmptyString
  | String c r =>
      match N_of_ascii c, r with
      | 196%N, String c2 r2 =>
          if (N_of_ascii c2 =? 176)%N
          then String "i" (String (ascii_of_N 204) (String (ascii_of_N 135) (lower r2)))
          else String c (lower r)
      | 226%N, String c2 (String c3 r3) =>
          if ((N_of_ascii c2 =? 132) && (N_of_ascii c3 =? 170))%N
          then String "k" (lower r3)
          else String c (lower r)
      | _, _ => String (ascii_lower c) (lower r)
      end
  end.

(** [sub in s] *)
Fixpoint contains (sub s : string) : bool :=
  String.prefix sub s ||
  match s with
  | EmptyString => false
  | String _ r => contains sub r
  end.

(** The truth value of a [str]. *)
Definition nonempty (s : string) : bool :=
  match s with
  | EmptyString => false
  | String _ _ => true
  end.

(** The number of bytes of the white-space character ([str.isspace]) at
    the head of [s], 0 when [s] starts with none: U+0009 to U+000D,
    U+001C to U+0020, U+0085, U+00A0, U+1680, U+2000 to U+200A, U+2028,
    U+2029, U+202F, U+205F, U+3000. *)
Definition space_width (s : string) : nat :=
  match map N_of_ascii (list_ascii_of_string (substring 0 3 s)) with
  | c :: r =>
      if ((9 <=? c) && (c <=? 13) || (28 <=? c) && (c <=? 32))%N then 1%nat
      else
        match c, r with
        | 194%N, c2 :: _ => if ((c2 =? 133) || (c2 =? 160))%N then 2%nat else 0%nat
        | 225%N, [c2; c3] => if ((c2 =? 154) && (c3 =? 128))%N then 3%nat else 0%nat
        | 226%N, [c2; c3] =>
            if ((c2 =? 128) &&
                ((128 <=? c3) && (c3 <=? 138) || (c3 =? 168) || (c3 =? 169) || (c3 =? 175)))%N
            then 3%nat
            else if ((c2 =? 129) && (c3 =? 159))%N then 3%nat else 0%nat
        | 227%N, [c2; c3] => if ((c2 =? 128) && (c3 =? 128))%N then 3%nat else 0%nat
        | _, _ => 0%nat
        end
  | nil => 0%nat
  end.

Fixpoint lstrip_loop (fuel : nat) (s : string) : string :=
  match fuel with
  | O => s
  | S f =>
      match space_width s with
      | O => s
      | w => lstrip_loop f (substring w (String.length s - w) s)
      end
  end.

(** [str.lstrip()] *)
Definition lstrip (s : string) : string := lstrip_loop (String.length s) s.

(** [str.rstrip()]: the text up to the point from which only white
    space follows. *)
Fixpoint rstrip (s : string) : string :=
  match s with
  | EmptyString => EmptyString
  | String c r => if nonempty (lstrip s) then String c (rstrip r) else EmptyString
  end.

(** [str.strip()] *)
Definition strip (s : string) : string := rstrip (lstrip s).

(** [str.replace(old, new)] for a non-empty [old]: the occurrences are
    replaced from the left, without overlap; [skip] counts the bytes of
    the occurrence just replaced that are still to be passed. *)
Fixpoint replace_loop (old new s : string) (skip : nat) : string :=
  match s with
  | EmptyString => EmptyString
  | String c r =>
      match skip with
      | S n => replace_loop old new r n
      | O =>
          if String.prefix old s
          then new ++ replace_loop old new r (String.length old - 1)
          else String c (replace_loop old new r 0)
      end
  end.

(** For an empty [old], [new] goes before every character and at the
    end. *)
Fixpoint interleave (new s : string) : string :=
  match s with
  | EmptyString => new
  | String c r =>
      let n := N_of_ascii c in
      if ((128 <=? n) && (n <? 192))%N then String c (interleave new r)
      else new ++ String c (interleave new r)
  end.

Definition replace (old new s : string) : string :=
  match old with
  | EmptyString => interleave new s
  | String _ _ => replace_loop old new s 0
  end.

(** ** The host *)

Record Host : Type := mkHost {
  (** [Path(__file__).parent / "De"] *)
  package_dir : string;
  (** [os.stat(path)] as [Path.exists] and [os.path.exists] use it: the
      path exists or not, or the call fails with an error other than
      the path not being there *)
  stat_path : string -> list Event -> outcome bool;
  (** [open(path, 'w')] *)
  open_write : string -> list Event -> outcome unit;
  (** [open(path, 'r')] followed by [read()] *)
  read_text : string -> list Event -> outcome string;
  (** [Path(path).mkdir(exist_ok=True)] *)
  mkdir : string -> list Event -> outcome unit;
  (** [platform.machine()] *)
  platform_machine : list Event -> outcome string;
  (** [os.geteuid()] *)
  geteuid : list Event -> Z
}.

(** What [_execute_command] (with its default arguments) and
    [run_command] return for [argv] after the history [h]. *)
Definition command_result (env : Env) (argv : list string) (timeout : Z) (h : list Event)
  : bool * string * string :=
  match run_outcome env argv timeout h with
  | Returns p => (returncode p =? 0, stdout p, stderr p)
  | Raises TimeoutExpired _ => (false, EmptyString, timeout_message)
  | Raises _ msg => (false, EmptyString, msg)
  end.

(** The three positions of the triple. *)
Definition success_of (r : bool * string * string) : bool := fst (fst r).
Definition stdout_of (r : bool * string * string) : string := snd (fst r).
Definition stderr_of (r : bool * string * string) : string := snd r.

Module Stages.
Section WithHost.

Variable env : Env.
Variable host : Host.

(** [Path.exists()]: before Python 3.12 an error of [os.stat] other than
    the path not being there is raised to the caller. *)
Definition path_exists (path : string) : M bool :=
  fun st => (result_of (stat_path host path (history st)), st).

(** [os.path.exists(path)]: any error of [os.stat] gives [False]. *)
Definition os_path_exists (path : string) : M bool :=
  fun st =>
    (Ret match stat_path host path (history st) with
         | Returns b => b
         | Raises _ _ => false
         end, st).

(** [with open(path, 'w') as f: f.write(text)], the write being taken to
    succeed once the file is open. *)
Definition write_text (path text : string) : M unit :=
  fun st =>
    match open_write host path (history st) with
    | Returns _ =>
        (Ret tt, mkInstaller (install_dir st) (components st)
                   (write_file path text (files st)) (history st))
    | Raises cls msg => (Raise (Exc cls msg), st)
    end.

Definition read_file (path : string) : M string :=
  fun st => (result_of (read_text host path (history st)), st).

Definition make_dir (path : string) : M unit :=
  fun st => (result_of (mkdir host path (history st)), st).

(** [self.backup_dir = self.install_dir / "backup"] *)
Definition backup_dir (st : Installer) : string := install_dir st ++ "/backup".

(** *** System checks (lines 259-282, 305-335) *)

Definition supported_distros : list string :=
  ["ubuntu"; "debian"; "centos"; "rhel"; "fedora"].

(** [_check_linux_distribution] (lines 259-282). *)
Definition _check_linux_distribution : M bool :=
  try_except
    (os_info <- read_file "/etc/os-release" ;;
     let os_info_lower := lower os_info in
     if existsb (fun distro => contains distro os_info_lower) supported_distros
     then ret true
     else ret true)
    (fun _ _ => ret false).

(** [_check_hardware_compatibility] (lines 305-326). *)
Definition _check_hardware_compatibility : M bool :=
  try_except
    (execute env ["lspci"] ;;
     arch <- (fun st => (result_of (platform_machine host (history st)), st)) ;;
     if existsb (String.eqb arch) ["x86_64"; "amd64"] then ret true else ret true)
    (fun _ _ => ret false).

(** [_check_permissions] (lines 328-335). *)
Definition _check_permissions : M bool :=
  euid <- (fun st => (Ret (geteuid host (history st)), st)) ;;
  if negb (euid =? 0) then ret false else ret true.

(** *** Dependencies (lines 404-479) *)

Definition package_managers : list (string * list string) :=
  [ ("apt", ["apt"; "update"]);
    ("yum", ["yum"; "check-update"]);
    ("dnf", ["dnf"; "check-update"]) ].

(** [_get_dependencies_for_pm] (lines 449-468). *)
Definition _get_dependencies_for_pm (package_manager : string) : list string :=
  let common_deps :=
    [ if String.eqb package_manager "apt" then "build-essential" else "gcc";
      if String.eqb package_manager "apt" then "python3-dev" else "python3-devel";
      "python3-pip"; "cmake"; "git"; "wget"; "curl"; "dkms" ] in
  if String.eqb package_manager "apt" then
    (common_deps ++ ["linux-headers-$(uname -r)"; "pciutils"])%list
  else if existsb (String.eqb package_manager) ["yum"; "dnf"] then
    (map (replace "build-essential" "gcc gcc-c++ make") common_deps
       ++ ["kernel-devel"; "pciutils"])%list
  else common_deps.

(** [_get_install_command] (lines 470-479). *)
Definition _get_install_command (package_manager package : string) : list string :=
  if String.eqb package_manager "apt" then ["apt"; "install"; "-y"; package]
  else if String.eqb package_manager "yum" then ["yum"; "install"; "-y"; package]
  else if String.eqb package_manager "dnf" then ["dnf"; "install"; "-y"; package]
  else ["echo"; "Unsupported package manager"].

(** The first loop of [install_dependencies] (lines 415-420): the name
    bound to [current_pm] when the loop is left. *)
Fixpoint detect_package_manager (candidates : list (string * list string))
  : M (option string) :=
  match candidates with
  | nil => ret None
  | (pm_name, test_cmd) :: rest =>
      r <- execute env ["which"; pm_name] ;;
      if success_of r then ret (Some pm_name) else detect_package_manager rest
  end.

(** The loop over the dependencies (lines 437-444). *)
Fixpoint install_each (current_pm : string) (dependencies : list string) : M unit :=
  match dependencies with
  | nil => ret tt
  | dep :: rest =>
      execute env (_get_install_command current_pm dep) ;;
      install_each current_pm rest
  end.

(** [install_dependencies] (lines 404-447). *)
Definition install_dependencies : M bool :=
  current_pm <- detect_package_manager package_managers ;;
  match current_pm with
  | None => ret false
  | Some pm =>
      if negb (nonempty pm) then ret false
      else
        let install :=
          install_each pm (_get_dependencies_for_pm pm) ;;
          ret true in
        if String.eqb pm "apt" then
          r <- execute env ["apt"; "update"] ;;
          if negb (success_of r) then ret false else install
        else install
  end.

(** *** PCIe driver (lines 481-602) *)

Definition driver_package : string :=
  package_dir host ++ "/hailort-pcie-driver_4.23.0_all.deb".

(** [_backup_driver_state] (lines 527-545). *)
Definition _backup_driver_state : M unit :=
  try_except
    (r <- execute env ["lsmod"] ;;
     (if success_of r
      then fun st => write_text (backup_dir st ++ "/lsmod_before_install.txt") (stdout_of r) st
      else ret tt) ;;
     r' <- execute env ["lspci"] ;;
     if success_of r'
     then fun st => write_text (backup_dir st ++ "/lspci_before_install.txt") (stdout_of r') st
     else ret tt)
    (fun _ _ => ret tt).

(** A loop [for node in nodes: if os.path.exists(node): return True]
    followed by the value it falls through to. *)
Fixpoint any_exists (nodes : list string) : M bool :=
  match nodes with
  | nil => ret false
  | node :: rest =>
      e <- os_path_exists node ;;
      if (e : bool) then ret true else any_exists rest
  end.

Definition device_nodes : list string := ["/dev/hailo0"; "/dev/hailo_pci"].

(** [_verify_driver_installation] (lines 577-602). *)
Definition _verify_driver_installation : M bool :=
  try_except
    (r <- execute env ["lsmod"] ;;
     if success_of r && contains "hailo" (lower (stdout_of r)) then
       found <- any_exists device_nodes ;;
       if (found : bool) then ret true
       else
         r' <- execute env ["lspci"; "-d"; "1e60:"] ;;
         if success_of r' && nonempty (strip (stdout_of r')) then ret true
         else ret false
     else ret false)
    (fun _ _ => ret false).

(** [install_pcie_driver] from the loading of the module on (lines
    514-525). *)
Definition load_and_verify : M bool :=
  success <- _load_hailo_driver env ;;
  if negb success then ret false
  else
    verified <- _verify_driver_installation ;;
    if (verified : bool) then ret true else ret false.

(** [install_pcie_driver] (lines 481-525). *)
Definition install_pcie_driver : M bool :=
  present <- path_exists driver_package ;;
  if negb present then ret false
  else
    _backup_driver_state ;;
    r <- execute env ["dpkg"; "-i"; driver_package] ;;
    if negb (success_of r) then
      execute env ["apt"; "-f"; "install"; "-y"] ;;
      r' <- execute env ["dpkg"; "-i"; driver_package] ;;
      if negb (success_of r') then ret false else load_and_verify
    else load_and_verify.

(** *** HailoRT (lines 604-696) *)

Definition hailort_deb : string := package_dir host ++ "/hailort_4.23.0_amd64.deb".

Definition hailort_whl : string :=
  package_dir host ++ "/hailort-4.23.0-cp313-cp313-linux_x86_64.whl".

(** [_install_hailort_deb] (lines 625-652). *)
Definition _install_hailort_deb (package_path : string) : M bool :=
  try_except
    (r <- execute env ["dpkg"; "-i"; package_path] ;;
     if negb (success_of r) then
       execute env ["apt"; "-f"; "install"; "-y"] ;;
       r' <- execute env ["dpkg"; "-i"; package_path] ;;
       if negb (success_of r') then ret false else ret true
     else ret true)
    (fun _ _ => ret false).

(** [_install_hailort_python] (lines 654-672). *)
Definition _install_hailort_python (package_path : string) : M bool :=
  try_except
    (r <- execute env ["pip3"; "install"; package_path] ;;
     if negb (success_of r) then ret false else ret true)
    (fun _ _ => ret false).

Definition import_check : list string :=
  ["python3"; "-c"; "import hailo_platform; print('HailoRT Python模块导入成功')"].

(** [_verify_hailort_installation] (lines 674-696). *)
Definition _verify_hailort_installation : M bool :=
  try_except
    (execute env ["which"; "hailortcli"] ;;
     r <- execute env import_check ;;
     if success_of r then ret true else ret false)
    (fun _ _ => ret false).

(** [install_hailort] from the wheel on (lines 615-623). *)
Definition install_wheel_and_verify : M bool :=
  present <- path_exists hailort_whl ;;
  if (present : bool) then
    success <- _install_hailort_python hailort_whl ;;
    if negb success then ret false else _verify_hailort_installation
  else _verify_hailort_installation.

(** [install_hailort] (lines 604-623). *)
Definition install_hailort : M bool :=
  present <- path_exists hailort_deb ;;
  if (present : bool) then
    success <- _install_hailort_deb hailort_deb ;;
    if negb success then ret false else install_wheel_and_verify
  else install_wheel_and_verify.

(** *** Docker (lines 698-838) *)

(** [_install_docker] (lines 719-755).  The commands are handed to
    [subprocess.run] as lists, so the bar is an argument of [curl] and
    of [echo]. *)
Definition _install_docker : M bool :=
  try_except
    (execute env ["curl"; "-fsSL"; "https://download.docker.com/linux/ubuntu/gpg";
                  "|"; "gpg"; "--dearmor"; "-o";
                  "/usr/share/keyrings/docker-archive-keyring.gpg"] ;;
     execute env ["echo";
                  "deb [arch=amd64 signed-by=/usr/share/keyrings/docker-archive-keyring.gpg] https://download.docker.com/linux/ubuntu $(lsb_release -cs) stable";
                  "|"; "tee"; "/etc/apt/sources.list.d/docker.list"] ;;
     execute env ["apt"; "update"] ;;
     r <- execute env ["apt"; "install"; "-y"; "docker-ce"; "docker-ce-cli"; "containerd.io"] ;;
     if negb (success_of r) then ret false
     else
       execute env ["systemctl"; "start"; "docker"] ;;
       execute env ["systemctl"; "enable"; "docker"] ;;
       ret true)
    (fun _ _ => ret false).

Definition daemon_config : pyval :=
  PDict [ ("runtimes",
           PDict [ ("hailo",
                    PDict [ ("path", PStr "/usr/bin/runc"); ("runtimeArgs", PList nil) ]) ]);
          ("default-runtime", PStr "runc") ].

(** The text [json.dump(daemon_config, f, indent=2)] writes.  The
    default [ensure_ascii] escapes the characters outside ASCII, of
    which [daemon_config] has none. *)
Definition daemon_json : string := Eval cbv in fst (iterencode 0 daemon_config).

(** [_configure_docker_device_access] (lines 757-787). *)
Definition _configure_docker_device_access : M bool :=
  try_except
    (make_dir "/etc/docker" ;;
     write_text "/etc/docker/daemon.json" daemon_json ;;
     execute env ["systemctl"; "restart"; "docker"] ;;
     ret true)
    (fun _ _ => ret false).

Definition dockerfile_content : string :=
"
FROM ubuntu:22.04

# 安装基础依赖
RUN apt-get update && apt-get install -y \
    python3 \
    python3-pip \
    && rm -rf /var/lib/apt/lists/*

# 复制HailoRT文件
COPY De/hailort_4.23.0_amd64.deb /tmp/
COPY De/hailort-4.23.0-cp313-cp313-linux_x86_64.whl /tmp/

# 安装HailoRT
RUN dpkg -i /tmp/hailort_4.23.0_amd64.deb || apt-get -f install -y
RUN pip3 install /tmp/hailort-4.23.0-cp313-cp313-linux_x86_64.whl

# 清理临时文件
RUN rm -f /tmp/hailort*

# 设置工作目录
WORKDIR /app

# 默认命令
CMD [" ++ str1 dquote ++ "python3" ++ str1 dquote ++ ", " ++ str1 dquote ++ "-c" ++ str1 dquote ++ ", " ++ str1 dquote ++ "import hailo_platform; print('Hailo8 Docker环境就绪')" ++ str1 dquote ++ "]
".

(** [_create_hailo_docker_image] (lines 789-838). *)
Definition _create_hailo_docker_image : M bool :=
  try_except
    (write_text "Dockerfile.hailo" dockerfile_content ;;
     r <- execute env ["docker"; "build"; "-f"; "Dockerfile.hailo"; "-t"; "hailo8:latest"; "."] ;;
     if negb (success_of r) then ret false else ret true)
    (fun _ _ => ret false).

(** [configure_docker] from the device access on (lines 709-717). *)
Definition configure_access_and_image : M bool :=
  configured <- _configure_docker_device_access ;;
  if negb configured then ret false
  else
    created <- _create_hailo_docker_image ;;
    if negb created then ret false else ret true.

(** [configure_docker] (lines 698-717). *)
Definition configure_docker : M bool :=
  r <- execute env ["which"; "docker"] ;;
  if negb (success_of r) then
    installed <- _install_docker ;;
    if negb installed then ret false else configure_access_and_image
  else configure_access_and_image.

(** *** Validation (lines 840-898) *)

(** [_test_driver] (lines 873-876). *)
Definition _test_driver : M bool :=
  r <- execute env ["lsmod"] ;;
  ret (success_of r && contains "hailo" (lower (stdout_of r))).

(** [_test_hailort] (lines 878-883). *)
Definition _test_hailort : M bool :=
  r <- execute env ["python3"; "-c"; "import hailo_platform; print('OK')"] ;;
  ret (success_of r).

(** [_test_docker_integration] (lines 885-890). *)
Definition _test_docker_integration : M bool :=
  r <- execute env ["docker"; "run"; "--rm"; "--device=/dev/hailo0"; "hailo8:latest"] ;;
  ret (success_of r).

(** [_test_device_access] (lines 892-898). *)
Definition _test_device_access : M bool := any_exists device_nodes.

Definition validation_tests : list (M bool) :=
  [_test_driver; _test_hailort; _test_docker_integration; _test_device_access].

(** The loop of [validate_installation] (lines 852-864) from the value
    [all_passed] has when it starts. *)
Fixpoint run_tests (tests : list (M bool)) (all_passed : bool) : M bool :=
  match tests with
  | nil => ret all_passed
  | test_func :: rest =>
      passed <- try_except test_func (fun _ _ => ret false) ;;
      run_tests rest (if (passed : bool) then all_passed else false)
  end.

(** [validate_installation] (lines 840-871). *)
Definition validate_installation : M bool := run_tests validation_tests true.

End WithHost.
End Stages.

(** ** [DockerHailo8Manager] (docker_manager.py)

    The attribute [docker_available] is passed to a method and returned
    by it beside its value. *)
Module DockerManager.
Section WithHost.

Variable env : Env.
Variable host : Host.

(** [check_docker_availability] (lines 87-100). *)
Definition check_docker_availability : M bool :=
  r <- run_command env ["which"; "docker"] 300 ;;
  if negb (success_of r) then ret false
  else
    r' <- run_command env ["docker"; "version"] 300 ;;
    if negb (success_of r') then ret false else ret true.

(** The loop over [commands] (lines 153-158, 184-189): [false] stands
    for the [return False] in it, [true] for reaching its end. *)
Fixpoint run_commands (commands : list (list string)) : M bool :=
  match commands with
  | nil => ret true
  | cmd :: rest =>
      r <- run_command env cmd 300 ;;
      if negb (success_of r) then ret false else run_commands rest
  end.

(** What follows the loop in both installation methods (lines 160-171,
    191-202). *)
Definition start_service (docker_available : bool) : M (bool * bool) :=
  r <- run_command env ["systemctl"; "start"; "docker"] 300 ;;
  if negb (success_of r) then ret (false, docker_available)
  else
    run_command env ["systemctl"; "enable"; "docker"] 300 ;;
    ret (true, true).

Definition debian_commands : list (list string) :=
  [ ["apt-get"; "update"];
    ["apt-get"; "install"; "-y"; "ca-certificates"; "curl"; "gnupg"; "lsb-release"];
    ["mkdir"; "-p"; "/etc/apt/keyrings"];
    ["curl"; "-fsSL"; "https://download.docker.com/linux/ubuntu/gpg"; "-o";
     "/etc/apt/keyrings/docker.asc"];
    ["chmod"; "a+r"; "/etc/apt/keyrings/docker.asc"];
    ["apt-get"; "update"];
    ["apt-get"; "install"; "-y"; "docker-ce"; "docker-ce-cli"; "containerd.io";
     "docker-buildx-plugin"; "docker-compose-plugin"] ].

Definition rhel_commands : list (list string) :=
  [ ["yum"; "install"; "-y"; "yum-utils"];
    ["yum-config-manager"; "--add-repo";
     "https://download.docker.com/linux/centos/docker-ce.repo"];
    ["yum"; "install"; "-y"; "docker-ce"; "docker-ce-cli"; "containerd.io";
     "docker-buildx-plugin"; "docker-compose-plugin"] ].

(** [_install_docker_debian] (lines 136-171). *)
Definition _install_docker_debian (docker_available : bool) : M (bool * bool) :=
  done <- run_commands debian_commands ;;
  if negb done then ret (false, docker_available) else start_service docker_available.

(** [_install_docker_rhel] (lines 173-202). *)
Definition _install_docker_rhel (docker_available : bool) : M (bool * bool) :=
  done <- run_commands rhel_commands ;;
  if negb done then ret (false, docker_available) else start_service docker_available.

(** The detection of the distribution in [install_docker] (lines
    112-122). *)
Definition detect_distro : M string :=
  r <- run_command env ["lsb_release"; "-si"] 300 ;;
  if success_of r then ret (lower (strip (stdout_of r)))
  else
    debian <- Stages.os_path_exists host "/etc/debian_version" ;;
    if (debian : bool) then ret "debian"
    else
      redhat <- Stages.os_path_exists host "/etc/redhat-release" ;;
      if (redhat : bool) then ret "redhat" else ret "unknown".

(** [install_docker] (lines 102-134). *)
Definition install_docker (docker_available : bool) : M (bool * bool) :=
  if docker_available then ret (true, docker_available)
  else
    try_except
      (distro <- detect_distro ;;
       if contains "ubuntu" distro || contains "debian" distro then
         _install_docker_debian docker_available
       else if contains "centos" distro || contains "rhel" distro || contains "redhat" distro
       then _install_docker_rhel docker_available
       else ret (false, docker_available))
      (fun _ _ => ret (false, docker_available)).

End WithHost.
End DockerManager.

(** ** Observations on the stage functions *)

(** The state after the commands [cmds] were run in that order. *)
Definition ran (cmds : list (list string)) (st : Installer) : Installer :=
  log_events (rev (map EvRun cmds)) st.

(** Whether [argv] succeeds when run in the state [st], and what it
    prints. *)
Definition succeeds (env : Env) (argv : list string) (st : Installer) : bool :=
  success_of (command_result env argv 300 (history st)).

Definition output (env : Env) (argv : list string) (st : Installer) : string :=
  stdout_of (command_result env argv 300 (history st)).

(** Whether a path is there in the state [st], as [os.path.exists]
    sees it. *)
Definition path_present (host : Host) (path : string) (st : Installer) : bool :=
  match stat_path host path (history st) with
  | Returns b => b
  | Raises _ _ => false
  end.


(** Whether a call into the host returned. *)
Definition returned {A : Type} (o : outcome A) : bool :=
  match o with
  | Returns _ => true
  | Raises _ _ => false
  end.

(** [which apt] and [apt update] succeed, every other command fails. *)
Definition env_only_apt : Env :=
  mkEnv (fun _ _ => Returns true)
        (fun argv _ _ =>
           match argv with
           | ["which"; "apt"] | ["apt"; "update"] => completed 0 EmptyString EmptyString
           | _ => completed 1 EmptyString "E: Unable to locate package"
           end)
        clock.

(** Only [which yum] succeeds. *)
Definition env_only_yum : Env :=
  mkEnv (fun _ _ => Returns true)
        (fun argv _ _ =>
           match argv with
           | ["which"; "yum"] => completed 0 EmptyString EmptyString
           | _ => completed 1 EmptyString "failed"
           end)
        clock.

(** A host on which no path is there, every file can be written and
    read (as an empty file), and the process runs as root on x86_64. *)
Definition bare_host : Host :=
  mkHost "/srv/hailo8_installer/De"
         (fun _ _ => Returns false)
         (fun _ _ => Returns tt)
         (fun _ _ => Returns EmptyString)
         (fun _ _ => Returns tt)
         (fun _ => Returns "x86_64")
         (fun _ => 0).

(** The same host with every path there. *)
Definition full_host : Host :=
  mkHost "/srv/hailo8_installer/De"
         (fun _ _ => Returns true)
         (fun _ _ => Returns tt)
         (fun _ _ => Returns EmptyString)
         (fun _ _ => Returns tt)
         (fun _ => Returns "x86_64")
         (fun _ => 0).

(** Every command succeeds and prints a module list that holds the
    driver. *)
Definition env_hailo_loaded : Env :=
  mkEnv (fun _ _ => Returns true)
        (fun _ _ _ => completed 0 "hailo_pci 102400 0" EmptyString) clock.

(** Every command succeeds and prints [Fedora] followed by a line
    feed. *)
Definition env_fedora : Env :=
  mkEnv (fun _ _ => Returns true)
        (fun _ _ _ => completed 0 (String "F" (String "e" (String "d" (String "o"
                        (String "r" (String "a" (String newline EmptyString)))))))
                        EmptyString)
        clock.

(** * Properties *)

(** ** Sanity checks of the [json] model *)

Example iterencode_sample :
  iterencode 0 (PDict [("a", PList [PInt 1; PNone]); ("b", PStr "x")]) =
  ("{" ++ newline_indent 1 ++ encode_basestring "a" ++ ": [" ++ newline_indent 2 ++ "1,"
       ++ newline_indent 2 ++ "null" ++ newline_indent 1 ++ "]," ++ newline_indent 1
       ++ encode_basestring "b" ++ ": " ++ encode_basestring "x" ++ newline_indent 0 ++ "}", None).
Proof. reflexivity. Qed.

Example json_roundtrip_sample :
  json_loads (fst (iterencode 0 sample_doc)) = Ret sample_doc.
Proof. vm_compute. reflexivity. Qed.


(** ** The encoder and the decoder on strings *)

Lemma prepend_scanned (p a rest : string) :
  prepend p (Scanned a rest) = Scanned (p ++ a) rest.
Proof. reflexivity. Qed.

(** The decoder reads back what [encode_basestring] wrote, whatever
    follows the closing quote. *)
Lemma scanstring_escape_string (s rest : string) :
  scanstring (escape_string s ++ String dquote rest) = Scanned s rest.
Proof.
  induction s as [|c s IH].
  - reflexivity.
  - destruct c as [[] [] [] [] [] [] [] []];
      simpl; rewrite IH; reflexivity.
Qed.

Lemma append_assoc (a b c : string) : (a ++ b) ++ c = a ++ (b ++ c).
Proof. induction a as [|x a IH]; simpl; [reflexivity | now rewrite IH]. Qed.

Lemma length_append (a b : string) :
  String.length (a ++ b) = (String.length a + String.length b)%nat.
Proof. induction a as [|x a IH]; simpl; [reflexivity | now rewrite IH]. Qed.

(** ** What the encoder does with the state of the installer *)

(** The encoder stops at the first enumeration member it meets: the
    [type] of the first component. *)
Lemma iterencode_state_data (env : Env) (st : Installer) :
  iterencode 0 (state_data env st) =
  (saved_head ++ escape_string (name (components st system_check)) ++ String dquote saved_tail,
   Some (not_serializable "ComponentType")).
Proof. simpl. rewrite append_assoc. reflexivity. Qed.

Lemma saved_text_shape (env : Env) (st : Installer) :
  saved_text env st =
  saved_head ++ escape_string (name (components st system_check)) ++ String dquote saved_tail.
Proof. unfold saved_text. now rewrite iterencode_state_data. Qed.

(** ** The scanner on that text *)

Lemma skip_ws_stop (c : ascii) (r : string) :
  is_ws c = false -> skip_ws (String c r) = String c r.
Proof. intros H. cbn [skip_ws]. now rewrite H. Qed.

Lemma skip_ws_space (r : string) : skip_ws (String " " r) = skip_ws r.
Proof. reflexivity. Qed.

Lemma skip_ws_newline_indent (k : nat) (c : ascii) (rest : string) :
  is_ws c = false -> skip_ws (newline_indent k ++ String c rest) = String c rest.
Proof.
  intros H. unfold newline_indent.
  change (skip_ws (spaces (2 * k) ++ String c rest) = String c rest).
  induction (2 * k)%nat as [|j IH].
  - now apply skip_ws_stop.
  - exact IH.
Qed.

Lemma scan_once_string (f : nat) (r : string) :
  scan_once (S f) (String dquote r) =
  match scanstring r with
  | Scanned a rest => Scanned (PStr a) rest
  | Malformed m => Malformed m
  | Exhausted => Exhausted
  end.
Proof. reflexivity. Qed.

Lemma scan_once_open_object (f k : nat) (rest : string) :
  scan_once (S f) (String "{" (newline_indent k ++ String dquote rest)) = object_loop f rest nil.
Proof.
  cbn [scan_once].
  rewrite skip_ws_newline_indent by reflexivity. reflexivity.
Qed.

Lemma object_loop_unfold (f : nat) (s : string) (pairs : list (string * pyval)) :
  object_loop (S f) s pairs =
  match scanstring s with
  | Scanned key r =>
      match skip_ws r with
      | String ":" r1 =>
          match scan_once f (skip_ws r1) with
          | Scanned v r2 =>
              match skip_ws r2 with
              | String c3 r3 =>
                  if Ascii.eqb c3 "}" then
                    Scanned (PDict (dict_of_pairs (pairs ++ [(key, v)]))) r3
                  else if Ascii.eqb c3 "," then
                    match skip_ws r3 with
                    | String c4 r4 =>
                        if Ascii.eqb c4 dquote then object_loop f r4 (pairs ++ [(key, v)])
                        else Malformed "Expecting property name enclosed in double quotes"
                    | EmptyString =>
                        Malformed "Expecting property name enclosed in double quotes"
                    end
                  else Malformed "Expecting ',' delimiter"
              | EmptyString => Malformed "Expecting ',' delimiter"
              end
          | Malformed m => Malformed m
          | Exhausted => Exhausted
          end
      | _ => Malformed "Expecting ':' delimiter"
      end
  | Malformed m => Malformed m
  | Exhausted => Exhausted
  end.
Proof. reflexivity. Qed.

(** A member whose value is missing: the text stops after the colon. *)
Lemma object_loop_value_missing (f : nat) (key : string) (pairs : list (string * pyval)) :
  object_loop (S (S f)) (escape_string key ++ String dquote ": ") pairs
  = Malformed "Expecting value".
Proof.
  rewrite object_loop_unfold, scanstring_escape_string. reflexivity.
Qed.

(** A member whose value is an object that does not scan. *)
Lemma object_loop_value_malformed (f k : nat) (key rest m : string)
      (pairs : list (string * pyval)) :
  object_loop f rest nil = Malformed m ->
  object_loop (S (S f))
    (escape_string key ++ String dquote (": {" ++ newline_indent k ++ String dquote rest)) pairs
  = Malformed m.
Proof.
  intros H.
  rewrite object_loop_unfold, scanstring_escape_string.
  cbn [append].
  rewrite (skip_ws_stop ":") by reflexivity.
  rewrite skip_ws_space, (skip_ws_stop "{") by reflexivity.
  rewrite scan_once_open_object, H. reflexivity.
Qed.

(** A member whose value is a string, followed by a comma and the next
    key. *)
Lemma object_loop_string_member (f k : nat) (key v rest : string)
      (pairs : list (string * pyval)) :
  object_loop (S (S f))
    (escape_string key ++ String dquote
       (": " ++ String dquote (escape_string v ++ String dquote
          ("," ++ newline_indent k ++ String dquote rest)))) pairs
  = object_loop (S f) rest (pairs ++ [(key, PStr v)]).
Proof.
  rewrite object_loop_unfold, scanstring_escape_string.
  cbn [append].
  rewrite (skip_ws_stop ":") by reflexivity.
  rewrite skip_ws_space, (skip_ws_stop dquote) by reflexivity.
  rewrite scan_once_string, scanstring_escape_string.
  rewrite (skip_ws_stop ",") by reflexivity.
  change (Ascii.eqb "," "}") with false. change (Ascii.eqb "," ",") with true. cbn iota.
  rewrite skip_ws_newline_indent by reflexivity.
  reflexivity.
Qed.

(** The scanner fails where the value of the key [type] should start. *)
Lemma scan_once_truncated (e : nat) (n : string) :
  scan_once (8 + e) (saved_head ++ escape_string n ++ String dquote saved_tail)
  = Malformed "Expecting value".
Proof.
  change (saved_head ++ escape_string n ++ String dquote saved_tail) with
    (String "{" (newline_indent 1 ++ String dquote
       (escape_string "components" ++ String dquote (": {" ++ newline_indent 2 ++ String dquote
          (escape_string "system_check" ++ String dquote (": {" ++ newline_indent 3 ++ String dquote
             (escape_string "name" ++ String dquote (": " ++ String dquote
                (escape_string n ++ String dquote ("," ++ newline_indent 3 ++ String dquote
                   (escape_string "type" ++ String dquote ": "))))))))))).
  change (8 + e)%nat with (S (S (S (S (S (S (S (S e)))))))).
  rewrite scan_once_open_object.
  apply object_loop_value_malformed.
  apply object_loop_value_malformed.
  rewrite object_loop_string_member.
  apply object_loop_value_missing.
Qed.

(** [json.load] raises [JSONDecodeError] on it, whatever the name of the
    first component is. *)
Lemma json_loads_truncated (n : string) :
  json_loads (saved_head ++ escape_string n ++ String dquote saved_tail)
  = Raise (Exc JSONDecodeError "Expecting value").
Proof.
  unfold json_loads.
  change (String.prefix utf8_bom (saved_head ++ escape_string n ++ String dquote saved_tail))
    with false.
  cbv iota.
  rewrite length_append.
  set (m := String.length (escape_string n ++ String dquote saved_tail)).
  assert (Hhead : String.length saved_head = 57%nat) by reflexivity.
  replace (2 * (String.length saved_head + m) + 2)%nat
    with (8 + (2 * (String.length saved_head + m) - 6))%nat by lia.
  change (skip_ws (saved_head ++ escape_string n ++ String dquote saved_tail))
    with (saved_head ++ escape_string n ++ String dquote saved_tail).
  now rewrite scan_once_truncated.
Qed.

(** ** The scanner never runs out of fuel *)

Lemma skip_ws_length (s : string) : (String.length (skip_ws s) <= String.length s)%nat.
Proof.
  induction s as [|c r IH]; cbn; [lia|].
  destruct (is_ws c); cbn; lia.
Qed.

Lemma bounded_prepend (n : nat) (p : string) (r : scanned string) :
  bounded n r -> bounded n (prepend p r).
Proof. destruct r; cbn; auto. Qed.

Lemma bounded_le {A : Type} (n m : nat) (r : scanned A) :
  (n <= m)%nat -> bounded n r -> bounded m r.
Proof. destruct r; cbn; auto; lia. Qed.

Lemma scanstring_bounded (n : nat) :
  forall s, (String.length s <= n)%nat -> bounded (String.length s) (scanstring s).
Proof.
  induction n as [|n IH]; intros s Hs.
  - destruct s; cbn in *; [exact I | lia].
  - destruct s as [|c r]; [exact I|].
    cbn [scanstring].
    assert (Hrec : forall t, (String.length t <= String.length r)%nat ->
                     forall p, bounded (String.length (String c r)) (prepend p (scanstring t))).
    { intros t Ht p. apply bounded_prepend.
      eapply bounded_le; [|apply IH]; cbn in *; lia. }
    destruct (Ascii.eqb c dquote); [cbn; lia|].
    destruct (Ascii.eqb c backslash).
    + destruct r as [|e r1]; [exact I|].
      destruct (Ascii.eqb e "u").
      * destruct r1 as [|h1 [|h2 [|h3 [|h4 r2]]]]; try exact I.
        destruct (hex4 h1 h2 h3 h4); [|exact I].
        destruct (is_high_surrogate n0).
        -- destruct r2 as [|b [|u [|h5 [|h6 [|h7 [|h8 r3]]]]]];
             try (apply Hrec; cbn; lia).
           destruct (Ascii.eqb b backslash && Ascii.eqb u "u")%bool;
             [|apply Hrec; cbn; lia].
           destruct (hex4 h5 h6 h7 h8); [|exact I].
           destruct (is_low_surrogate n1); apply Hrec; cbn; lia.
        -- apply Hrec; cbn; lia.
      * destruct (unescape e); [|exact I]. apply Hrec; cbn; lia.
    + destruct (Nat.ltb (nat_of_ascii c) 32); [exact I|].
      apply Hrec; cbn; lia.
Qed.

Lemma strip_prefix_length (p s r : string) :
  strip_prefix p s = Some r -> (String.length r <= String.length s)%nat.
Proof.
  revert s. induction p as [|a p IH]; intros s; cbn.
  - intros [= ->]. lia.
  - destruct s as [|b s]; [discriminate|].
    destruct (Ascii.eqb a b); [|discriminate].
    intros H. apply IH in H. cbn. lia.
Qed.

Lemma take_digits_length (s : string) :
  (String.length (snd (take_digits s)) <= String.length s)%nat.
Proof.
  induction s as [|c r IH]; cbn; [lia|].
  destruct (is_digit c); [|cbn; lia].
  destruct (take_digits r) as [d rest]. cbn in *. lia.
Qed.

Lemma match_number_length (s : string) (v : pyval) (r : string) :
  match_number s = Some (v, r) -> (String.length r <= String.length s)%nat.
Proof.
  unfold match_number.
  match goal with
  | |- context [match ?e with (_, _) => _ end] => set (p := e)
  end.
  assert (Hp : (String.length (snd p) <= String.length s)%nat).
  { subst p. destruct s as [|[[] [] [] [] [] [] [] []] r0]; cbn; lia. }
  destruct p as [neg s1]. cbn [snd] in Hp.
  destruct s1 as [|d r0]; [discriminate|].
  destruct (is_digit d); [|discriminate].
  match goal with
  | |- context [match ?e with (_, _) => _ end] => set (p := e)
  end.
  assert (Hp1 : (String.length (snd p) <= String.length (String d r0))%nat).
  { subst p. destruct (Ascii.eqb d "0"); [cbn; lia | apply take_digits_length]. }
  destruct p as [ipart r1]. cbn [snd] in Hp1.
  match goal with
  | |- context [match ?e with (_, _) => _ end] => set (p := e)
  end.
  assert (Hp2 : (String.length (snd p) <= String.length r1)%nat).
  { subst p. destruct r1 as [|[[] [] [] [] [] [] [] []] r']; cbn [snd]; try lia.
    pose proof (take_digits_length r') as H.
    destruct (take_digits r') as [fd r'']. cbn [snd] in H.
    destruct (is_empty fd); cbn [snd String.length] in *; lia. }
  destruct p as [frac r2]. cbn [snd] in Hp2.
  match goal with
  | |- context [match ?e with (_, _) => _ end] => set (p := e)
  end.
  assert (Hp3 : (String.length (snd p) <= String.length r2)%nat).
  { subst p. destruct r2 as [|e r']; cbn [snd]; [lia|].
    destruct (Ascii.eqb e "e" || Ascii.eqb e "E")%bool; cbn [snd]; [|lia].
    match goal with
    | |- context [match ?e with (_, _) => _ end] => set (q := e)
    end.
    assert (Hq : (String.length (snd q) <= String.length r')%nat).
    { subst q. destruct r' as [|[[] [] [] [] [] [] [] []] x]; cbn; lia. }
    destruct q as [sg r'']. cbn [snd] in Hq.
    pose proof (take_digits_length r'') as H.
    destruct (take_digits r'') as [ed r4]. cbn [snd] in H.
    destruct (is_empty ed); cbn [snd String.length] in *; lia. }
  destruct p as [ex r3]. cbn [snd] in Hp3.
  cbn [String.length] in *.
  destruct (is_empty frac && is_empty ex)%bool; intros [= _ <-]; lia.
Qed.

Lemma scan_literal_bounded (s : string) : bounded (String.length s) (scan_literal s).
Proof.
  unfold scan_literal.
  repeat match goal with
         | |- context [strip_prefix ?p s] =>
             let E := fresh "E" in
             destruct (strip_prefix p s) eqn:E;
               [apply strip_prefix_length in E; exact E|]
         end.
  destruct (match_number s) as [[v r]|] eqn:Em.
  - apply match_number_length in Em. exact Em.
  - repeat match goal with
           | |- context [strip_prefix ?p s] =>
               let E := fresh "E" in
               destruct (strip_prefix p s) eqn:E;
                 [apply strip_prefix_length in E; exact E|]
           end.
    exact I.
Qed.

Lemma scan_fuel (f : nat) :
  (forall s, (2 * String.length s + 1 <= f)%nat -> bounded (String.length s) (scan_once f s)) /\
  (forall s pairs, (2 * String.length s + 1 <= f)%nat ->
     bounded (String.length s) (object_loop f s pairs)) /\
  (forall s values, (2 * String.length s + 2 <= f)%nat ->
     bounded (String.length s) (array_loop f s values)).
Proof.
  induction f as [|f (IHs & IHo & IHa)].
  - repeat split; intros; lia.
  - split; [|split].
    + intros s Hf. destruct s as [|c r]; [exact I|].
      cbn [scan_once String.length] in *.
      pose proof (skip_ws_length r) as Hw.
      destruct (Ascii.eqb c dquote).
      { pose proof (scanstring_bounded _ r (le_n _)) as Hb.
        destruct (scanstring r); cbn in *; auto; lia. }
      destruct (Ascii.eqb c "{").
      { destruct (skip_ws r) as [|c1 r1]; [exact I|]. cbn [String.length] in Hw.
        destruct (Ascii.eqb c1 "}"); [cbn; lia|].
        destruct (Ascii.eqb c1 dquote); [|exact I].
        eapply bounded_le; [|apply IHo]; lia. }
      destruct (Ascii.eqb c "[").
      { destruct (skip_ws r) as [|[[] [] [] [] [] [] [] []] r1]; cbn [String.length] in Hw;
          try (eapply bounded_le; [|apply IHa]; cbn [String.length]; lia).
        cbn. lia. }
      eapply bounded_le; [|apply (scan_literal_bounded (String c r))]. cbn. lia.
    + intros s pairs Hf. cbn [object_loop].
      pose proof (scanstring_bounded _ s (le_n _)) as Hb.
      destruct (scanstring s) as [key r| |]; cbn [bounded] in Hb; [|exact I|contradiction].
      pose proof (skip_ws_length r) as Hw.
      destruct (skip_ws r) as [|[[] [] [] [] [] [] [] []] r1]; try exact I.
      cbn [String.length] in Hw.
      pose proof (skip_ws_length r1) as Hw1.
      assert (Hv : bounded (String.length (skip_ws r1)) (scan_once f (skip_ws r1)))
        by (apply IHs; lia).
      destruct (scan_once f (skip_ws r1)) as [v r2| |]; cbn [bounded] in Hv;
        [|exact I|contradiction].
      pose proof (skip_ws_length r2) as Hw2.
      destruct (skip_ws r2) as [|c3 r3]; [exact I|]. cbn [String.length] in Hw2.
      destruct (Ascii.eqb c3 "}"); [cbn; lia|].
      destruct (Ascii.eqb c3 ","); [|exact I].
      pose proof (skip_ws_length r3) as Hw3.
      destruct (skip_ws r3) as [|c4 r4]; [exact I|]. cbn [String.length] in Hw3.
      destruct (Ascii.eqb c4 dquote); [|exact I].
      eapply bounded_le; [|apply IHo]; lia.
    + intros s values Hf. cbn [array_loop].
      assert (Hv : bounded (String.length s) (scan_once f s)) by (apply IHs; lia).
      destruct (scan_once f s) as [v r| |]; cbn [bounded] in Hv; [|exact I|contradiction].
      pose proof (skip_ws_length r) as Hw.
      destruct (skip_ws r) as [|c1 r1]; [exact I|]. cbn [String.length] in Hw.
      destruct (Ascii.eqb c1 "]"); [cbn; lia|].
      destruct (Ascii.eqb c1 ","); [|exact I].
      pose proof (skip_ws_length r1) as Hw1.
      eapply bounded_le; [|apply IHa]; lia.
Qed.

(** [json.loads] returns a value or raises [JSONDecodeError] on every
    text: the bound on the recursion is never reached. *)
Lemma json_loads_in_model (text : string) : json_loads text <> Raise OutOfModel.
Proof.
  unfold json_loads. destruct (String.prefix utf8_bom text); [discriminate|].
  destruct (scan_fuel (2 * String.length text + 2)) as (Hs & _ & _).
  pose proof (skip_ws_length text) as Hw.
  assert (Hb : bounded (String.length (skip_ws text))
                 (scan_once (2 * String.length text + 2) (skip_ws text)))
    by (apply Hs; lia).
  destruct (scan_once (2 * String.length text + 2) (skip_ws text)) as [v r| |];
    cbn [bounded] in Hb; [|discriminate|contradiction].
  destruct (skip_ws r); discriminate.
Qed.

(** Texts that stop early, and a file that is not UTF-8: [json.load]
    raises, and [_load_state] keeps the defaults. *)
Example json_loads_unclosed :
  json_loads "[" = Raise (Exc JSONDecodeError "Expecting value") /\
  json_loads "[1," = Raise (Exc JSONDecodeError "Expecting value") /\
  json_loads "[[[" = Raise (Exc JSONDecodeError "Expecting value") /\
  json_loads "{" = Raise (Exc JSONDecodeError "Expecting property name enclosed in double quotes") /\
  json_loads "[1" = Raise (Exc JSONDecodeError "Expecting ',' delimiter").
Proof. repeat split; reflexivity. Qed.

Example load_state_keeps_defaults :
  Hailo8Installer_init "/opt/hailo8"
    (write_file "/opt/hailo8/install_state.json" "[" no_files) nil
  = (Ret tt, mkInstaller "/opt/hailo8" _initialize_components
               (write_file "/opt/hailo8/install_state.json" "[" no_files) nil) /\
  Hailo8Installer_init "/opt/hailo8"
    (write_file "/opt/hailo8/install_state.json" (str1 (ascii_of_N 255)) no_files) nil
  = (Ret tt, mkInstaller "/opt/hailo8" _initialize_components
               (write_file "/opt/hailo8/install_state.json" (str1 (ascii_of_N 255)) no_files)
               nil).
Proof. split; reflexivity. Qed.

(** ** The state store *)

Lemma save_state_eq (env : Env) (st : Installer) :
  _save_state env st = (Ret tt, saved env st).
Proof.
  unfold _save_state, try_except, json_dump_to, saved, saved_text.
  rewrite iterencode_state_data. reflexivity.
Qed.

Lemma load_state_unreadable (st : Installer) :
  state_file_unreadable st -> _load_state st = (Ret tt, st).
Proof.
  intros [H | [n H]]; unfold _load_state, try_except.
  - rewrite H. reflexivity.
  - rewrite H. unfold bind at 1. unfold lift at 1. unfold read_utf8.
    destruct (utf8_decodable (saved_head ++ escape_string n ++ String dquote saved_tail));
      [|reflexivity].
    unfold bind at 1. unfold lift at 1.
    rewrite json_loads_truncated. reflexivity.
Qed.

(** ** The command runner *)

Lemma execute_command_eq (env : Env) (command : list string) (timeout : Z)
      (capture_output : bool) (st : Installer) :
  _execute_command env command timeout capture_output st =
  (Ret match run_outcome env command timeout (history st) with
       | Returns p =>
           (returncode p =? 0,
            if capture_output then stdout p else EmptyString,
            if capture_output then stderr p else EmptyString)
       | Raises TimeoutExpired _ => (false, EmptyString, timeout_message)
       | Raises _ msg => (false, EmptyString, msg)
       end,
   log_event (EvRun command) st).
Proof.
  unfold _execute_command, try_except, bind, subprocess_run.
  destruct (run_outcome env command timeout (history st)) as [p | [] msg]; reflexivity.
Qed.

Lemma execute_returns (env : Env) (command : list string) (st : Installer) :
  exists r, execute env command st = (Ret r, log_event (EvRun command) st).
Proof. unfold execute. rewrite execute_command_eq. eauto. Qed.

Ltac run_execute :=
  match goal with
  | |- context [execute ?e ?c ?s] =>
      let r := fresh "r" in
      let H := fresh "H" in
      destruct (execute_returns e c s) as [r H]; rewrite H; clear H; cbn beta iota
  end.


(** ** Rollback *)

Lemma reset_loop_spec (keys : list Key) (st : Installer) :
  exists st',
    for_each keys (fun k =>
      modify_component k (set_status PENDING) ;;
      modify_component k (set_error_msg EmptyString) ;;
      modify_component k (set_retry_count 0)) st = (Ret tt, st') /\
    install_dir st' = install_dir st /\
    files st' = files st /\
    history st' = history st /\
    forall k, components st' k =
              if existsb (Key_eqb k) keys then reset_component (components st k)
              else components st k.
Proof.
  revert st. induction keys as [|a keys IH]; intros st.
  - exists st. repeat split; reflexivity.
  - cbn [for_each]. unfold bind at 1.
    set (body := (modify_component a (set_status PENDING) ;;
                  modify_component a (set_error_msg EmptyString) ;;
                  modify_component a (set_retry_count 0)) st).
    assert (Hb : exists st1, body = (Ret tt, st1) /\
                   install_dir st1 = install_dir st /\ files st1 = files st /\
                   history st1 = history st /\
                   forall k, components st1 k =
                             if Key_eqb k a then reset_component (components st k)
                             else components st k).
    { subst body. unfold bind, modify_component, mod_comp. cbn.
      eexists. split; [reflexivity|]. cbn. repeat split.
      intros k. unfold upd. destruct a, k; reflexivity. }
    destruct Hb as (st1 & Eb & Hd & Hf & Hh & Hc). rewrite Eb.
    destruct (IH st1) as (st' & E & Hd' & Hf' & Hh' & Hc'). rewrite E.
    exists st'. split; [reflexivity|].
    repeat split; try congruence.
    intros k. rewrite Hc', Hc. cbn [existsb].
    destruct (Key_eqb k a), (existsb (Key_eqb k) keys); reflexivity.
Qed.

Lemma rollback_installation_spec (env : Env) (st : Installer) :
  exists st',
    rollback_installation env st = (Ret true, st') /\
    (forall k, components st' k = reset_component (components st k)) /\
    history st' =
      ([EvRun ["pip3"; "uninstall"; "-y"; "hailort"];
       EvRun ["dpkg"; "-r"; "hailort-pcie-driver"];
       EvRun ["dpkg"; "-r"; "hailort"];
       EvRun ["rmmod"; "hailo_pci"];
       EvRun ["systemctl"; "stop"; "docker"]] ++ history st)%list.
Proof.
  unfold rollback_installation.
  do 5 (unfold bind at 1; run_execute).
  unfold bind at 1.
  match goal with
  | |- context [for_each all_keys ?b ?s] =>
      destruct (reset_loop_spec all_keys s) as (st1 & E & Hd & Hf & Hh & Hc)
  end.
  rewrite E. cbn beta iota.
  unfold bind at 1. rewrite save_state_eq. cbn beta iota. unfold ret.
  eexists. split; [reflexivity|]. split.
  - intros k. cbn [saved components]. rewrite Hc. destruct k; reflexivity.
  - cbn [saved history]. rewrite Hh. reflexivity.
Qed.

(** C8: after [rollback_installation] has returned, each of the six
    components has status [PENDING], an empty [error_msg] and
    [retry_count] 0, whatever the components held before and whatever
    the commands did. *)
Theorem rollback_resets_every_component (env : Env) (st : Installer) (k : Key) :
  fst (rollback_installation env st) = Ret true /\
  status (components (snd (rollback_installation env st)) k) = PENDING /\
  error_msg (components (snd (rollback_installation env st)) k) = EmptyString /\
  retry_count (components (snd (rollback_installation env st)) k) = 0.
Proof.
  destruct (rollback_installation_spec env st) as (st' & E & Hc & _).
  rewrite E. cbn [fst snd]. rewrite Hc. repeat split.
Qed.

(** C10: [rollback_installation] returns [True] for every outcome of
    the five commands it issues (in this order: stop Docker, remove the
    kernel module, remove the two deb packages, uninstall the pip
    package): their results are dropped. *)
Theorem rollback_always_reports_success (env : Env) (st : Installer) :
  fst (rollback_installation env st) = Ret true /\
  history (snd (rollback_installation env st)) =
    ([EvRun ["pip3"; "uninstall"; "-y"; "hailort"];
     EvRun ["dpkg"; "-r"; "hailort-pcie-driver"];
     EvRun ["dpkg"; "-r"; "hailort"];
     EvRun ["rmmod"; "hailo_pci"];
     EvRun ["systemctl"; "stop"; "docker"]] ++ history st)%list.
Proof.
  destruct (rollback_installation_spec env st) as (st' & E & _ & Hh).
  rewrite E. cbn [fst snd]. now split.
Qed.

(** With every command failing, the rollback still reports success. *)
Example rollback_when_every_command_fails :
  fst (rollback_installation env_commands_fail progressed) = Ret true.
Proof. vm_compute. reflexivity. Qed.

(** ** The retry wrapper *)

Lemma retry_attempt_eq (env : Env) (k' k : Key) (st : Installer) :
  retry_attempt env (stage_call env k') k st =
  let s1 := saved env (mod_comp k (set_status RUNNING) st) in
  let s2 := log_event (EvInstall k' (snapshot s1)) s1 in
  match stage env k' (history st) with
  | Returns true =>
      (Ret (Some true),
       saved env (mod_comp k (set_error_msg EmptyString) (mod_comp k (set_status SUCCESS) s2)))
  | Returns false => (Ret None, mod_comp k count_retry s2)
  | Raises _ msg => (Ret None, mod_comp k (set_error_msg msg) (mod_comp k count_retry s2))
  end.
Proof.
  unfold retry_attempt, try_except.
  unfold bind at 1. unfold modify_component at 1.
  unfold bind at 1. rewrite save_state_eq.
  unfold bind at 1. unfold stage_call at 1.
  change (history (saved env (mod_comp k (set_status RUNNING) st))) with (history st).
  destruct (stage env k' (history st)) as [[|]|cls msg]; cbn [result_of].
  - unfold bind at 1. unfold modify_component at 1.
    unfold bind at 1. unfold modify_component at 1.
    unfold bind at 1. rewrite save_state_eq. reflexivity.
  - reflexivity.
  - reflexivity.
Qed.

Lemma Key_eqb_eq (a b : Key) : Key_eqb a b = true <-> a = b.
Proof. destruct a, b; cbn; split; intros H; try reflexivity; discriminate H. Qed.

Lemma Key_eqb_refl (k : Key) : Key_eqb k k = true.
Proof. now apply Key_eqb_eq. Qed.

Lemma Key_eqb_neq (a b : Key) : a <> b -> Key_eqb a b = false.
Proof.
  intros H. destruct (Key_eqb a b) eqn:E; [|reflexivity].
  apply Key_eqb_eq in E. contradiction.
Qed.

Lemma components_mod_same (k : Key) (f : InstallComponent -> InstallComponent)
      (st : Installer) :
  components (mod_comp k f st) k = f (components st k).
Proof. cbn. unfold upd. now rewrite Key_eqb_refl. Qed.

Lemma components_mod_other (k k' : Key) (f : InstallComponent -> InstallComponent)
      (st : Installer) :
  k' <> k -> components (mod_comp k f st) k' = components st k'.
Proof. intros H. cbn. unfold upd. rewrite Key_eqb_neq; [reflexivity | congruence]. Qed.

Lemma history_mod (k : Key) (f : InstallComponent -> InstallComponent) (st : Installer) :
  history (mod_comp k f st) = history st.
Proof. reflexivity. Qed.

Lemma history_saved (env : Env) (st : Installer) : history (saved env st) = history st.
Proof. reflexivity. Qed.

Lemma history_log (e : Event) (st : Installer) : history (log_event e st) = e :: history st.
Proof. reflexivity. Qed.

Lemma components_saved (env : Env) (st : Installer) :
  components (saved env st) = components st.
Proof. reflexivity. Qed.

Lemma components_log (e : Event) (st : Installer) :
  components (log_event e st) = components st.
Proof. reflexivity. Qed.

Lemma install_dir_mod (k : Key) (f : InstallComponent -> InstallComponent) (st : Installer) :
  install_dir (mod_comp k f st) = install_dir st.
Proof. reflexivity. Qed.

Lemma install_dir_saved (env : Env) (st : Installer) :
  install_dir (saved env st) = install_dir st.
Proof. reflexivity. Qed.

Lemma install_dir_log (e : Event) (st : Installer) :
  install_dir (log_event e st) = install_dir st.
Proof. reflexivity. Qed.

Create Rewrite HintDb installer.

#[local] Hint Rewrite components_mod_same history_mod history_saved history_log
  components_saved components_log install_dir_mod install_dir_saved install_dir_log
  : installer.



(** The fixpoint is the [while] loop: for a stage function,
    [_retry_operation] tests the condition, runs one turn and starts
    again, or leaves through the statements after the loop. *)
Lemma retry_operation_while (env : Env) (k' k : Key) (st : Installer) :
  _retry_operation env (stage_call env k') k st =
  if retry_count (components st k) <? max_retries (components st k) then
    (r <- retry_attempt env (stage_call env k') k ;;
     match r with
     | Some b => ret b
     | None => _retry_operation env (stage_call env k') k
     end) st
  else
    (modify_component k (set_status FAILED) ;; _save_state env ;; ret false) st.
Proof.
  unfold _retry_operation at 1.
  destruct (retry_count (components st k) <? max_retries (components st k)) eqn:C.
  - apply Z.ltb_lt in C.
    destruct (Z.to_nat (max_retries (components st k) - retry_count (components st k)))
      as [|n] eqn:En; [lia|].
    cbn [retry_loop]. unfold bind at 1. unfold get_component at 1.
    apply Z.ltb_lt in C. rewrite C. apply Z.ltb_lt in C.
    cbn iota. unfold bind.
    rewrite retry_attempt_eq. cbn zeta.
    destruct (stage env k' (history st)) as [[|]|cls msg]; [reflexivity | |];
      unfold _retry_operation; autorewrite with installer; cbn [count_retry set_retry_count
        set_error_msg set_status retry_count max_retries];
      (replace (Z.to_nat (max_retries (components st k) - (retry_count (components st k) + 1)))
         with n by lia); reflexivity.
  - cbn [retry_loop].
    destruct (Z.to_nat (max_retries (components st k) - retry_count (components st k)));
      cbn [retry_loop]; unfold bind at 1; unfold get_component at 1; rewrite C; reflexivity.
Qed.

(** The retry wrapper around a stage function always returns a
    boolean: the bound on the turns is never reached and nothing
    escapes the [try]. *)
Lemma retry_loop_returns (env : Env) (k' k : Key) :
  forall (n : nat) (st : Installer),
    (Z.to_nat (max_retries (components st k) - retry_count (components st k)) <= n)%nat ->
    exists b st', retry_loop env n (stage_call env k') k st = (Ret b, st').
Proof.
  induction n as [|n IH]; intros st Hn; cbn [retry_loop];
    unfold bind at 1; unfold get_component at 1;
    destruct (retry_count (components st k) <? max_retries (components st k)) eqn:C.
  - apply Z.ltb_lt in C. lia.
  - unfold bind at 1. unfold modify_component at 1.
    unfold bind at 1. rewrite save_state_eq. eexists. eexists. reflexivity.
  - apply Z.ltb_lt in C. unfold bind at 1. rewrite retry_attempt_eq. cbn zeta.
    destruct (stage env k' (history st)) as [[|]|cls msg].
    + eexists. eexists. reflexivity.
    + apply IH. autorewrite with installer.
      cbn [count_retry set_retry_count set_error_msg set_status retry_count max_retries]. lia.
    + apply IH. autorewrite with installer.
      cbn [count_retry set_retry_count set_error_msg set_status retry_count max_retries]. lia.
  - unfold bind at 1. unfold modify_component at 1.
    unfold bind at 1. rewrite save_state_eq. eexists. eexists. reflexivity.
Qed.

Lemma retry_operation_returns (env : Env) (k' k : Key) (st : Installer) :
  exists b st', _retry_operation env (stage_call env k') k st = (Ret b, st').
Proof. unfold _retry_operation. apply retry_loop_returns. lia. Qed.

(** ** Counting invocations *)

Lemma installs_of_app (k : Key) (a b : list Event) :
  installs_of k (a ++ b) = (installs_of k a + installs_of k b)%nat.
Proof. unfold installs_of. now rewrite filter_app, length_app. Qed.

Lemma repairs_of_app (k : Key) (a b : list Event) :
  repairs_of k (a ++ b) = (repairs_of k a + repairs_of k b)%nat.
Proof. unfold repairs_of. now rewrite filter_app, length_app. Qed.

Lemma invocations_app (a b : list Event) :
  invocations (a ++ b) = (invocations a + invocations b)%nat.
Proof. unfold invocations. now rewrite filter_app, length_app. Qed.

Lemma runs_count_nothing (k : Key) (evs : list Event) :
  Forall (fun e => is_run e = true) evs ->
  installs_of k evs = 0%nat /\ repairs_of k evs = 0%nat /\ invocations evs = 0%nat.
Proof.
  induction 1 as [|e evs He _ IH]; [repeat split|].
  destruct e; try discriminate He. exact IH.
Qed.

Lemma installs_count (k : Key) (evs : list Event) :
  Forall (fun e => is_install k e = true) evs ->
  installs_of k evs = List.length evs /\ invocations evs = List.length evs /\
  forall k', repairs_of k' evs = 0%nat.
Proof.
  induction 1 as [|e evs He _ (IH1 & IH2 & IH3)]; [repeat split|].
  destruct e; try discriminate He.
  unfold installs_of, invocations, repairs_of in *. cbn [filter is_install is_invocation is_repair].
  cbn [is_install] in He. rewrite He. cbn [List.length].
  repeat split; congruence.
Qed.

(** ** Repair *)

Lemma execute_logs (env : Env) (command : list string) (st : Installer) :
  exists r, execute env command st = (Ret r, log_events [EvRun command] st).
Proof. apply execute_returns. Qed.

Lemma log_events_log_events (a b : list Event) (st : Installer) :
  log_events a (log_events b st) = log_events (a ++ b) st.
Proof. unfold log_events. cbn. now rewrite app_assoc. Qed.

Ltac run_logged :=
  match goal with
  | |- context [execute ?e ?c ?s] =>
      let r := fresh "r" in
      let H := fresh "H" in
      destruct (execute_logs e c s) as [r H]; rewrite H; clear H; cbn beta iota
  end.

(** [_load_hailo_driver] returns a boolean after one to three
    commands. *)
Lemma load_hailo_driver_spec (env : Env) (st : Installer) :
  exists b evs,
    _load_hailo_driver env st = (Ret b, log_events evs st) /\
    Forall (fun e => is_run e = true) evs.
Proof.
  unfold _load_hailo_driver, try_except.
  unfold bind at 1. run_logged. destruct r as [[[|] o] e]; cbn [fst].
  - exists true. eexists. split; [reflexivity|]. repeat constructor.
  - unfold bind at 1. run_logged. destruct r as [[[|] o1] e1]; cbn [fst].
    + exists true. eexists. rewrite log_events_log_events.
      split; [reflexivity|]. repeat constructor.
    + unfold bind at 1. run_logged. rewrite !log_events_log_events.
      destruct r as [[[|] o2] e2]; cbn [fst];
        eexists; eexists; (split; [reflexivity|]); repeat constructor.
Qed.

(** A repair function other than that of [hailort] runs commands only
    and returns a boolean; the repair of [hailort] is its install
    function. *)
Lemma repair_strategies_spec (env : Env) (k : Key) (st : Installer) :
  k <> hailort ->
  exists b evs,
    repair_strategies env k st = (Ret b, log_events evs st) /\
    Forall (fun e => is_run e = true) evs.
Proof.
  intros Hk. destruct k; try congruence; cbn [repair_strategies].
  - unfold _repair_system_check. do 2 (unfold bind at 1; run_logged).
    rewrite log_events_log_events.
    exists true. eexists. split; [reflexivity|]. repeat constructor.
  - unfold _repair_dependencies. do 2 (unfold bind at 1; run_logged).
    rewrite log_events_log_events.
    exists true. eexists. split; [reflexivity|]. repeat constructor.
  - unfold _repair_pcie_driver. unfold bind at 1. run_logged.
    destruct (load_hailo_driver_spec env (log_events [EvRun ["dkms"; "autoinstall"]] st))
      as (b & evs & E & Hr).
    rewrite E, log_events_log_events.
    exists b. eexists. split; [reflexivity|].
    apply Forall_app. split; [assumption | repeat constructor].
  - unfold _repair_docker_config. unfold bind at 1. run_logged.
    exists true. eexists. split; [reflexivity|]. repeat constructor.
  - unfold _repair_validation. unfold bind at 1. run_logged.
    destruct (load_hailo_driver_spec env (log_events [EvRun ["rmmod"; "hailo_pci"]] st))
      as (b & evs & E & Hr).
    rewrite E, log_events_log_events.
    exists b. eexists. split; [reflexivity|].
    apply Forall_app. split; [assumption | repeat constructor].
Qed.

(** [_attempt_repair] enters the repair function once; components and
    files stay as they are. *)
Lemma attempt_repair_spec (env : Env) (k : Key) (st : Installer) :
  exists r evs,
    _attempt_repair env k st
    = (r, log_events (evs ++ [EvRepair k (snapshot st)]) st) /\
    (k <> hailort -> Forall (fun e => is_run e = true) evs /\ exists b, r = Ret b) /\
    (k = hailort -> evs = [EvInstall hailort (snapshot st)] /\
                    r = result_of (stage env hailort (EvRepair hailort (snapshot st) :: history st))).
Proof.
  unfold _attempt_repair.
  destruct k;
    try (match goal with
         | |- context [repair_strategies ?e ?key ?s] =>
             destruct (repair_strategies_spec e key s ltac:(discriminate)) as (b & evs & E & Hr)
         end;
         rewrite E; exists (Ret b), evs;
         change (log_event ?e st) with (log_events [e] st);
         rewrite log_events_log_events;
         split; [reflexivity|]; split; [intros _; split; [assumption | now exists b] | discriminate]).
  cbn [repair_strategies]. unfold _repair_hailort, install_hailort, stage_call.
  eexists. exists [EvInstall hailort (snapshot st)].
  split; [reflexivity|]. split; [congruence|]. intros _. split; reflexivity.
Qed.

(** ** The pipeline *)

Lemma install_steps_func (env : Env) (k : Key) (f : M bool) :
  In (k, f) (install_steps env) -> f = stage_call env k.
Proof.
  cbn. intros H.
  repeat (destruct H as [H | H]; [inversion H; reflexivity|]).
  contradiction.
Qed.


Lemma InstallStatus_eqb_eq (a b : InstallStatus) : InstallStatus_eqb a b = true <-> a = b.
Proof. destruct a, b; cbn; split; intros H; try reflexivity; discriminate H. Qed.




(** The loop of [install_all] never leaves the model: it returns a
    boolean or lets an exception of the environment through. *)
Lemma run_steps_in_model (env : Env) (steps : list (Key * M bool)) :
  (forall k f, In (k, f) steps -> f = stage_call env k) ->
  forall st, fst (run_steps env steps st) <> Raise OutOfModel.
Proof.
  induction steps as [|[k f] steps IH]; intros Hin st.
  - discriminate.
  - assert (Hf : f = stage_call env k) by (apply Hin; now left). subst f.
    assert (Hrest : forall s, fst (run_steps env steps s) <> Raise OutOfModel)
      by (apply IH; intros k0 f0 H0; apply Hin; now right).
    cbn [run_steps]. unfold bind at 1. unfold get_component at 1.
    destruct (InstallStatus_eqb (status (components st k)) SUCCESS); [apply Hrest|].
    unfold bind at 1.
    destruct (retry_operation_returns env k k st) as ([|] & st1 & E); rewrite E; cbn [negb].
    + apply Hrest.
    + unfold bind at 1.
      destruct (attempt_repair_spec env k st1) as (r & evs & E2 & Hother & Hhailo).
      rewrite E2.
      destruct r as [[|]|[cls msg|]]; try apply Hrest; try discriminate.
      exfalso. destruct k;
        try (destruct Hother as [_ [b Hb]]; [discriminate | discriminate Hb]).
      destruct (Hhailo eq_refl) as [_ Hr].
      destruct (stage env hailort (EvRepair hailort (snapshot st1) :: history st1));
        discriminate Hr.
Qed.

Lemma install_all_in_model (env : Env) (st : Installer) :
  fst (install_all env st) <> Raise OutOfModel.
Proof. apply run_steps_in_model. apply install_steps_func. Qed.

(** The exception of a stage function is caught by the retry wrapper
    but not by [_attempt_repair]: when the install function of [hailort]
    raises at every call, its repair raises too and [install_all] lets
    the exception through. *)
Example install_all_raises_from_hailort_repair :
  fst (install_all env_hailort_raises fresh) = Raise (Exc OtherError "boom") /\
  installs_of hailort (history (snd (install_all env_hailort_raises fresh))) = 4%nat /\
  error_msg (components (snd (install_all env_hailort_raises fresh)) hailort) = "boom".
Proof. repeat split; vm_compute; reflexivity. Qed.

(** ** What every run preserves *)

Section Preservation.

Variable env : Env.
Variable R : Installer -> Installer -> Prop.

Hypothesis R_refl : forall st, R st st.
Hypothesis R_trans : forall a b c, R a b -> R b c -> R a c.
Hypothesis R_mod : forall k f st, R st (mod_comp k f st).
Hypothesis R_log : forall e st, R st (log_event e st).
Hypothesis R_saved : forall st, R st (saved env st).

Lemma preserves_ret {A : Type} (a : A) : preserves R (ret a).
Proof. intros st. apply R_refl. Qed.

Lemma preserves_raise {A : Type} (e : exn) : preserves R (@raise A e).
Proof. intros st. apply R_refl. Qed.

Lemma preserves_bind {A B : Type} (m : M A) (f : A -> M B) :
  preserves R m -> (forall a, preserves R (f a)) -> preserves R (bind m f).
Proof.
  intros Hm Hf st. unfold bind. specialize (Hm st).
  destruct (m st) as [[a|e] st']; [|exact Hm].
  eapply R_trans; [exact Hm | apply Hf].
Qed.

Lemma preserves_try_except {A : Type} (body : M A) (handler : ExcClass -> string -> M A) :
  preserves R body -> (forall cls msg, preserves R (handler cls msg)) ->
  preserves R (try_except body handler).
Proof.
  intros Hb Hh st. unfold try_except. specialize (Hb st).
  destruct (body st) as [[a|[cls msg|]] st']; [exact Hb | | exact Hb].
  eapply R_trans; [exact Hb | apply Hh].
Qed.

Lemma preserves_get_component (k : Key) : preserves R (get_component k).
Proof. intros st. apply R_refl. Qed.

Lemma preserves_modify_component (k : Key) (f : InstallComponent -> InstallComponent) :
  preserves R (modify_component k f).
Proof. intros st. apply R_mod. Qed.

Lemma preserves_save_state : preserves R (_save_state env).
Proof. intros st. rewrite save_state_eq. apply R_saved. Qed.

Lemma preserves_stage_call (k : Key) : preserves R (stage_call env k).
Proof. intros st. apply R_log. Qed.

Lemma preserves_execute (command : list string) : preserves R (execute env command).
Proof. intros st. destruct (execute_returns env command st) as [r ->]. apply R_log. Qed.

#[local] Hint Resolve preserves_ret preserves_raise preserves_get_component
  preserves_modify_component preserves_save_state preserves_stage_call
  preserves_execute : core.

#[local] Hint Extern 2 (preserves _ (bind _ _)) => apply preserves_bind; [|intros ?] : core.
#[local] Hint Extern 2 (preserves _ (try_except _ _)) =>
  apply preserves_try_except; [|intros ? ?] : core.
#[local] Hint Extern 3 (preserves _ (if ?b then _ else _)) => destruct b : core.
#[local] Hint Extern 3 (preserves _ (match ?r with Some _ => _ | None => _ end)) =>
  destruct r : core.

Lemma preserves_retry_attempt (f : M bool) (k : Key) :
  preserves R f -> preserves R (retry_attempt env f k).
Proof. intros Hf. unfold retry_attempt. auto 12. Qed.

Lemma preserves_retry_loop (f : M bool) (k : Key) (fuel : nat) :
  preserves R f -> preserves R (retry_loop env fuel f k).
Proof.
  intros Hf. pose proof (preserves_retry_attempt f k Hf) as Ha.
  induction fuel as [|fuel IH]; cbn [retry_loop]; auto 12.
Qed.

Lemma preserves_retry_operation (f : M bool) (k : Key) :
  preserves R f -> preserves R (_retry_operation env f k).
Proof. intros Hf st. unfold _retry_operation. now apply preserves_retry_loop. Qed.

Lemma preserves_load_hailo_driver : preserves R (_load_hailo_driver env).
Proof. unfold _load_hailo_driver. auto 12. Qed.

Lemma preserves_repair_strategies (k : Key) : preserves R (repair_strategies env k).
Proof.
  pose proof preserves_load_hailo_driver.
  destruct k; cbn [repair_strategies];
    unfold _repair_system_check, _repair_dependencies, _repair_pcie_driver,
      _repair_hailort, _repair_docker_config, _repair_validation, install_hailort;
    auto 12.
Qed.

Lemma preserves_attempt_repair (k : Key) : preserves R (_attempt_repair env k).
Proof.
  intros st. unfold _attempt_repair.
  eapply R_trans; [apply R_log | apply preserves_repair_strategies].
Qed.

Lemma preserves_run_steps (steps : list (Key * M bool)) :
  (forall k f, In (k, f) steps -> preserves R f) -> preserves R (run_steps env steps).
Proof.
  induction steps as [|[k f] steps IH]; intros Hin; cbn [run_steps].
  - auto.
  - assert (Hf : preserves R f) by (apply (Hin k); now left).
    assert (Hrest : preserves R (run_steps env steps))
      by (apply IH; intros k' f' H'; apply (Hin k'); now right).
    pose proof (preserves_retry_operation f k Hf).
    pose proof (preserves_attempt_repair k).
    auto 12.
Qed.

Lemma preserves_install_steps (k : Key) (f : M bool) :
  In (k, f) (install_steps env) -> preserves R f.
Proof. intros H. rewrite (install_steps_func env k f H). apply preserves_stage_call. Qed.

Lemma preserves_install_first (n : nat) : preserves R (install_first env n).
Proof.
  unfold install_first. apply preserves_run_steps.
  intros k f H. apply (preserves_install_steps k).
  rewrite <- (firstn_skipn n (install_steps env)). apply in_or_app. now left.
Qed.

Lemma preserves_install_all : preserves R (install_all env).
Proof. unfold install_all. apply preserves_run_steps, preserves_install_steps. Qed.

End Preservation.

(** ** The state file never becomes readable *)

Lemma save_state_unreadable (env : Env) (st : Installer) :
  state_file_unreadable (snd (_save_state env st)).
Proof.
  rewrite save_state_eq. right.
  exists (name (components st system_check)).
  cbn [snd saved files]. unfold write_file.
  change (state_file (saved env st)) with (state_file st).
  rewrite String.eqb_refl, saved_text_shape. reflexivity.
Qed.

Lemma unreadable_same_files (st st' : Installer) :
  install_dir st' = install_dir st -> files st' = files st ->
  state_file_unreadable st -> state_file_unreadable st'.
Proof.
  unfold state_file_unreadable, state_file. intros -> ->. exact (fun H => H).
Qed.

(** Whatever part of [install_all] has run, the state file is absent or
    holds a text that [json.load] rejects. *)
Lemma install_first_unreadable (env : Env) (n : nat) (st : Installer) :
  state_file_unreadable st -> state_file_unreadable (snd (install_first env n st)).
Proof.
  apply (preserves_install_first env stays_unreadable); unfold stays_unreadable.
  - auto.
  - auto.
  - intros k f s. now apply unreadable_same_files.
  - intros e s. now apply unreadable_same_files.
  - intros s _. pose proof (save_state_unreadable env s) as H.
    now rewrite save_state_eq in H.
Qed.

(** A new installer over an unreadable state file starts from the
    defaults of [_initialize_components]. *)
Lemma restart_forgets (st : Installer) :
  state_file_unreadable st ->
  restart st = mkInstaller (install_dir st) _initialize_components (files st) (history st).
Proof.
  intros H. unfold restart, Hailo8Installer_init.
  rewrite load_state_unreadable; [reflexivity | exact H].
Qed.

(** For every state the installer is in, [_save_state] leaves a text
    that [json.load] rejects. *)
Lemma save_state_never_well_formed (env : Env) (st : Installer) :
  exists text,
    files (snd (_save_state env st)) (state_file st) = Some text /\
    json_loads text = Raise (Exc JSONDecodeError "Expecting value").
Proof.
  rewrite save_state_eq. exists (saved_text env st). split.
  - cbn [snd saved files]. unfold write_file. now rewrite String.eqb_refl.
  - rewrite saved_text_shape. apply json_loads_truncated.
Qed.

(** For every state, saving and loading into a new installer gives the
    defaults. *)
Lemma save_then_restart_forgets (env : Env) (st : Installer) (k : Key) :
  components (restart (snd (_save_state env st))) k = _initialize_components k.
Proof.
  rewrite restart_forgets; [reflexivity|].
  apply save_state_unreadable.
Qed.

(** The history of a run extends the history it started from. *)
Lemma install_all_extends (env : Env) (st : Installer) :
  extends st (snd (install_all env st)).
Proof.
  apply (preserves_install_all env extends); unfold extends.
  - intros s. now exists nil.
  - intros a b c [x Hx] [y Hy]. exists (y ++ x)%list. now rewrite Hy, Hx, app_assoc.
  - intros k f s. now exists nil.
  - intros e s. now exists [e].
  - intros s. now exists nil.
Qed.

(** ** A component that was repaired stays [FAILED] *)

Lemma retry_attempt_cases (env : Env) (f : M bool) (k : Key) (st : Installer) :
  exists r st',
    retry_attempt env f k st = (r, st') /\
    (r = Ret (Some true) \/ r = Ret None \/ r = Raise OutOfModel).
Proof.
  unfold retry_attempt, try_except.
  unfold bind at 1. unfold modify_component at 1.
  unfold bind at 1. rewrite save_state_eq.
  unfold bind at 1.
  destruct (f (saved env (mod_comp k (set_status RUNNING) st))) as [[[|]|[cls msg|]] s'].
  - unfold bind at 1. unfold modify_component at 1.
    unfold bind at 1. unfold modify_component at 1.
    unfold bind at 1. rewrite save_state_eq. eexists. eexists. split; [reflexivity|]. now left.
  - eexists. eexists. split; [reflexivity|]. right. now left.
  - eexists. eexists. split; [reflexivity|]. right. now left.
  - eexists. eexists. split; [reflexivity|]. right. now right.
Qed.

(** Whatever the operation is, the retry wrapper returns false only
    through the statements after the loop, which record [FAILED]. *)
Lemma retry_loop_false_is_failed (env : Env) (f : M bool) (k : Key) :
  forall (n : nat) (st st1 : Installer),
    retry_loop env n f k st = (Ret false, st1) -> status (components st1 k) = FAILED.
Proof.
  induction n as [|n IH]; intros st st1; cbn [retry_loop];
    unfold bind at 1; unfold get_component at 1;
    destruct (retry_count (components st k) <? max_retries (components st k)).
  - discriminate.
  - unfold bind at 1. unfold modify_component at 1.
    unfold bind at 1. rewrite save_state_eq. unfold ret.
    intros [= <-]. cbn [saved components]. now rewrite components_mod_same.
  - unfold bind at 1.
    destruct (retry_attempt_cases env f k st) as (r & s' & E & [-> | [-> | ->]]);
      rewrite E.
    + discriminate.
    + apply IH.
    + discriminate.
  - unfold bind at 1. unfold modify_component at 1.
    unfold bind at 1. rewrite save_state_eq. unfold ret.
    intros [= <-]. cbn [saved components]. now rewrite components_mod_same.
Qed.

(** When the retries of a step are exhausted and its repair returns
    true, the loop goes on to the next step and the component is still
    recorded as [FAILED]. *)
Lemma repaired_step_stays_failed (env : Env) (k : Key) (f : M bool)
      (rest : list (Key * M bool)) (st st1 st2 : Installer) :
  status (components st k) <> SUCCESS ->
  _retry_operation env f k st = (Ret false, st1) ->
  _attempt_repair env k st1 = (Ret true, st2) ->
  run_steps env ((k, f) :: rest) st = run_steps env rest st2 /\
  status (components st2 k) = FAILED.
Proof.
  intros Hs Hr Ha. split.
  - cbn [run_steps]. unfold bind at 1. unfold get_component at 1.
    destruct (InstallStatus_eqb (status (components st k)) SUCCESS) eqn:Es.
    + apply InstallStatus_eqb_eq in Es. contradiction.
    + unfold bind at 1. rewrite Hr. cbn [negb]. unfold bind at 1. now rewrite Ha.
  - destruct (attempt_repair_spec env k st1) as (r & evs & E & _).
    rewrite E in Ha. injection Ha as _ <-.
    cbn [log_events components].
    eapply retry_loop_false_is_failed. exact Hr.
Qed.

(** ** A restarted installer runs the first stage again *)

Lemma extends_refl (st : Installer) : extends st st.
Proof. now exists nil. Qed.

Lemma extends_trans (a b c : Installer) : extends a b -> extends b c -> extends a c.
Proof. intros [x Hx] [y Hy]. exists (y ++ x)%list. now rewrite Hy, Hx, app_assoc. Qed.

Lemma extends_mod (k : Key) (f : InstallComponent -> InstallComponent) (st : Installer) :
  extends st (mod_comp k f st).
Proof. now exists nil. Qed.

Lemma extends_log (e : Event) (st : Installer) : extends st (log_event e st).
Proof. now exists [e]. Qed.

Lemma extends_saved (env : Env) (st : Installer) : extends st (saved env st).
Proof. now exists nil. Qed.

Ltac extends_rules env :=
  first [ exact extends_refl | exact extends_trans | exact extends_mod
        | exact extends_log | exact (extends_saved env) | assumption ].

Lemma extends_retry_loop (env : Env) (f : M bool) (k : Key) (n : nat) :
  preserves extends f -> preserves extends (retry_loop env n f k).
Proof. intros Hf. apply preserves_retry_loop; extends_rules env. Qed.

Lemma extends_attempt_repair (env : Env) (k : Key) :
  preserves extends (_attempt_repair env k).
Proof. apply preserves_attempt_repair; extends_rules env. Qed.

Lemma extends_run_steps (env : Env) (steps : list (Key * M bool)) :
  (forall k f, In (k, f) steps -> preserves extends f) ->
  preserves extends (run_steps env steps).
Proof. intros H. apply preserves_run_steps; extends_rules env. Qed.

Lemma extends_stage_call (env : Env) (k : Key) : preserves extends (stage_call env k).
Proof. apply preserves_stage_call. exact extends_log. Qed.

(** A step whose component has retries left enters its install function,
    and what follows only adds to the history. *)
Lemma retry_operation_enters (env : Env) (k : Key) (st : Installer) :
  retry_count (components st k) < max_retries (components st k) ->
  exists r st1 evs snap,
    _retry_operation env (stage_call env k) k st = (r, st1) /\
    history st1 = (evs ++ EvInstall k snap :: history st)%list.
Proof.
  intros Hlt. unfold _retry_operation.
  destruct (Z.to_nat (max_retries (components st k) - retry_count (components st k)))
    as [|n] eqn:En; [lia|].
  cbn [retry_loop]. unfold bind at 1. unfold get_component at 1.
  apply Z.ltb_lt in Hlt. rewrite Hlt.
  unfold bind at 1. rewrite retry_attempt_eq. cbn zeta.
  set (s1 := saved env (mod_comp k (set_status RUNNING) st)).
  set (s2 := log_event (EvInstall k (snapshot s1)) s1).
  destruct (stage env k (history st)) as [[|]|cls msg].
  - eexists. eexists. exists nil. eexists. split; reflexivity.
  - match goal with
    | |- context [retry_loop env n ?f k ?s] =>
        destruct (extends_retry_loop env f k n (extends_stage_call env k) s) as [evs Hevs];
        destruct (retry_loop env n f k s) as [r st1]
    end.
    exists r, st1, evs, (snapshot s1). split; [reflexivity | exact Hevs].
  - match goal with
    | |- context [retry_loop env n ?f k ?s] =>
        destruct (extends_retry_loop env f k n (extends_stage_call env k) s) as [evs Hevs];
        destruct (retry_loop env n f k s) as [r st1]
    end.
    exists r, st1, evs, (snapshot s1). split; [reflexivity | exact Hevs].
Qed.

(** The first step of a run over default components enters the install
    function of [system_check]. *)
Lemma install_all_reenters_first_stage (env : Env) (dir : string)
      (fs : string -> option string) (h : list Event) :
  exists evs snap,
    history (snd (install_all env (mkInstaller dir _initialize_components fs h)))
    = (evs ++ EvInstall system_check snap :: h)%list.
Proof.
  set (st := mkInstaller dir _initialize_components fs h).
  unfold install_all.
  change (install_steps env)
    with ((system_check, stage_call env system_check) :: skipn 1 (install_steps env)).
  assert (Hrest : preserves extends (run_steps env (skipn 1 (install_steps env)))).
  { apply extends_run_steps. intros k f H.
    rewrite (install_steps_func env k f); [apply extends_stage_call|].
    rewrite <- (firstn_skipn 1 (install_steps env)). apply in_or_app. now right. }
  generalize dependent (skipn 1 (install_steps env)). intros rest Hrest.
  cbn [run_steps]. unfold bind at 1. unfold get_component at 1.
  change (InstallStatus_eqb (status (components st system_check)) SUCCESS) with false.
  cbn iota. unfold bind at 1.
  destruct (retry_operation_enters env system_check st) as (r & st1 & evs & snap & E & Hh);
    [reflexivity|].
  rewrite E. destruct r as [[|]|e]; cbn [negb snd].
  - destruct (Hrest st1) as [evs' H']. exists (evs' ++ evs)%list, snap.
    now rewrite H', Hh, app_assoc.
  - unfold bind at 1.
    destruct (extends_attempt_repair env system_check st1) as [evs1 H1].
    destruct (_attempt_repair env system_check st1) as [[[|]|e] st2];
      unfold ret; cbn [snd] in *.
    + destruct (Hrest st2) as [evs' H']. exists (evs' ++ evs1 ++ evs)%list, snap.
      now rewrite H', H1, Hh, !app_assoc.
    + exists (evs1 ++ evs)%list, snap. now rewrite H1, Hh, app_assoc.
    + exists (evs1 ++ evs)%list, snap. now rewrite H1, Hh, app_assoc.
  - exists evs, snap. exact Hh.
Qed.

(** Resuming after a kill: whatever part of the pipeline had run from a
    directory whose state file is absent or unreadable, the new
    installer holds the defaults and its [install_all] enters the
    install function of [system_check] again. *)
Lemma resumed_run_starts_over (env : Env) (n : nat) (st : Installer) :
  state_file_unreadable st ->
  (forall k, components (restart (snd (install_first env n st))) k
             = _initialize_components k) /\
  exists evs snap,
    history (snd (install_all env (restart (snd (install_first env n st)))))
    = (evs ++ EvInstall system_check snap :: history (snd (install_first env n st)))%list.
Proof.
  intros H. apply (install_first_unreadable env n) in H.
  rewrite (restart_forgets _ H). split; [reflexivity|].
  apply install_all_reenters_first_stage.
Qed.

(** ** The recorded status after a repair *)

(** C1, what the code does in the scenario of the specification (from a
    fresh directory, [PcieDriver] fails at its first four calls and
    every command of the repair succeeds): the install function of
    [PcieDriver] is entered three times, its repair once and with
    success, the [HailoRT] stage is entered and [install_all] returns
    true, but the status recorded for [PcieDriver] is [FAILED], not
    [SUCCESS]. *)
Theorem repaired_pcie_driver_is_recorded_failed :
  fst (install_all env_pcie_fails_four_times fresh) = Ret true /\
  rev (history (snd (install_all env_pcie_fails_four_times fresh))) =
    [ EvInstall system_check [RUNNING; PENDING; PENDING; PENDING; PENDING; PENDING];
      EvInstall dependencies [SUCCESS; RUNNING; PENDING; PENDING; PENDING; PENDING];
      EvInstall pcie_driver [SUCCESS; SUCCESS; RUNNING; PENDING; PENDING; PENDING];
      EvInstall pcie_driver [SUCCESS; SUCCESS; RUNNING; PENDING; PENDING; PENDING];
      EvInstall pcie_driver [SUCCESS; SUCCESS; RUNNING; PENDING; PENDING; PENDING];
      EvRepair pcie_driver [SUCCESS; SUCCESS; FAILED; PENDING; PENDING; PENDING];
      EvRun ["dkms"; "autoinstall"];
      EvRun ["modprobe"; "hailo_pci"];
      EvInstall hailort [SUCCESS; SUCCESS; FAILED; RUNNING; PENDING; PENDING];
      EvInstall docker_config [SUCCESS; SUCCESS; FAILED; SUCCESS; RUNNING; PENDING];
      EvInstall validation [SUCCESS; SUCCESS; FAILED; SUCCESS; SUCCESS; RUNNING] ] /\
  status (components (snd (install_all env_pcie_fails_four_times fresh)) pcie_driver)
    = FAILED.
Proof. repeat split; vm_compute; reflexivity. Qed.

(** C4, what the code does when [SystemCheck], [Dependencies] and
    [DockerConfig] never install and every command exits with code 1:
    the three repair functions return true whatever their commands did,
    so [install_all] returns true while three of the six components are
    recorded as [FAILED]. *)
Theorem install_all_true_with_failed_components :
  fst (install_all env_three_broken fresh) = Ret true /\
  snapshot (snd (install_all env_three_broken fresh))
    = [FAILED; FAILED; SUCCESS; SUCCESS; FAILED; SUCCESS].
Proof. split; vm_compute; reflexivity. Qed.

(** C5, what the code does in the same run: the install function of
    [Dependencies] is entered while [SystemCheck] is [FAILED], and that
    of [Validation] while three earlier components are [FAILED]. *)
Theorem install_entered_after_failed_component :
  In (EvInstall dependencies [FAILED; RUNNING; PENDING; PENDING; PENDING; PENDING])
     (history (snd (install_all env_three_broken fresh))) /\
  In (EvInstall validation [FAILED; FAILED; SUCCESS; SUCCESS; FAILED; RUNNING])
     (history (snd (install_all env_three_broken fresh))).
Proof. split; vm_compute; tauto. Qed.

(** ** The state file after a save *)

(** C2, what [_save_state] does on a fresh installer: the state file
    holds the text up to the place where the [type] of the first
    component should be, and [json.load] raises [JSONDecodeError] on
    it. *)
Theorem save_state_leaves_truncated_text :
  files (snd (_save_state env_all_ok fresh)) "/opt/hailo8/install_state.json"
  = Some ("{" ++ newline_indent 1 ++ encode_basestring "components" ++ ": {"
              ++ newline_indent 2 ++ encode_basestring "system_check" ++ ": {"
              ++ newline_indent 3 ++ encode_basestring "name" ++ ": "
              ++ encode_basestring "系统环境检查" ++ ","
              ++ newline_indent 3 ++ encode_basestring "type" ++ ": ") /\
  json_loads ("{" ++ newline_indent 1 ++ encode_basestring "components" ++ ": {"
                  ++ newline_indent 2 ++ encode_basestring "system_check" ++ ": {"
                  ++ newline_indent 3 ++ encode_basestring "name" ++ ": "
                  ++ encode_basestring "系统环境检查" ++ ","
                  ++ newline_indent 3 ++ encode_basestring "type" ++ ": ")
  = Raise (Exc JSONDecodeError "Expecting value").
Proof. split; vm_compute; reflexivity. Qed.

(** C3, what the code does when a run in which every stage succeeds is
    killed after two components reached [SUCCESS] and a new installer is
    made over the same directory: the new installer holds [PENDING] for
    all six components, and its [install_all] enters the install
    functions of the first two components a second time. *)
Theorem killed_run_is_not_resumed :
  snapshot (snd (install_first env_all_ok 2 fresh))
    = [SUCCESS; SUCCESS; PENDING; PENDING; PENDING; PENDING] /\
  snapshot (restart (snd (install_first env_all_ok 2 fresh)))
    = [PENDING; PENDING; PENDING; PENDING; PENDING; PENDING] /\
  installs_of system_check
    (history (snd (install_all env_all_ok (restart (snd (install_first env_all_ok 2 fresh))))))
    = 2%nat /\
  installs_of dependencies
    (history (snd (install_all env_all_ok (restart (snd (install_first env_all_ok 2 fresh))))))
    = 2%nat.
Proof. repeat split; vm_compute; reflexivity. Qed.

(** C6, what the code does on a component map whose first component is
    [SUCCESS] with [retry_count] 2 and [error_msg] "boom": after
    [_save_state], a new installer over the same directory holds
    [PENDING], 0 and the empty message for it. *)
Theorem saved_state_does_not_load_back :
  status (components progressed system_check) = SUCCESS /\
  retry_count (components progressed system_check) = 2 /\
  error_msg (components progressed system_check) = "boom" /\
  status (components (restart (snd (_save_state env_all_ok progressed))) system_check)
    = PENDING /\
  retry_count (components (restart (snd (_save_state env_all_ok progressed))) system_check)
    = 0 /\
  error_msg (components (restart (snd (_save_state env_all_ok progressed))) system_check)
    = EmptyString.
Proof. repeat split; vm_compute; reflexivity. Qed.

(** [_load_state] itself expects the enumeration members as their
    values: it reads a state file that holds them so. *)
Example load_state_reads_enum_values :
  components
    (snd (Hailo8Installer_init "/opt/hailo8"
            (write_file "/opt/hailo8/install_state.json" hand_written_state no_files) nil))
    system_check
  = mkComponent "check" SYSTEM_CHECK SUCCESS EmptyString EmptyString PNone 2 3.
Proof. vm_compute. reflexivity. Qed.

(** * Further properties of the orchestrator *)

(** ** What one call of the retry wrapper does to the state *)

Lemma same_identity_refl (c : InstallComponent) : same_identity c c.
Proof. repeat split. Qed.

Lemma same_identity_trans (a b c : InstallComponent) :
  same_identity a b -> same_identity b c -> same_identity a c.
Proof. unfold same_identity. intuition congruence. Qed.

Lemma snapshot_ext (a b : Installer) :
  (forall k, status (components a k) = status (components b k)) -> snapshot a = snapshot b.
Proof. intros H. unfold snapshot. apply map_ext. intros k. apply H. Qed.

Lemma snapshot_entry (env : Env) (k : Key) (a b : Installer) :
  (forall k', k' <> k -> components a k' = components b k') ->
  snapshot (saved env (mod_comp k (set_status RUNNING) a))
  = snapshot (mod_comp k (set_status RUNNING) b).
Proof.
  intros H. apply snapshot_ext. intros k'. rewrite components_saved.
  destruct (Key_eqb k' k) eqn:E.
  - apply Key_eqb_eq in E. subst k'. now rewrite !components_mod_same.
  - assert (k' <> k) by (intros ->; now rewrite Key_eqb_refl in E).
    rewrite !components_mod_other by assumption. now rewrite H.
Qed.

Ltac frame_close :=
  first
    [ reflexivity
    | discriminate
    | solve [repeat constructor]
    | solve [cbn; lia]
    | solve [intros _; cbn; lia]
    | solve [intros k' Hk;
             repeat (rewrite ?components_mod_other, ?components_log, ?components_saved
                       by assumption);
             reflexivity]
    | idtac ].

(** One call of the retry wrapper around the install function of [k]:
    it returns a boolean; every event it adds is an entry into that
    install function with [k] as [RUNNING] and the other statuses as
    they were; only the component [k] changes, in its status, its
    [error_msg] and its [retry_count]. *)
Lemma retry_loop_frame (env : Env) (k : Key) :
  forall (n : nat) (st : Installer),
    (Z.to_nat (max_retries (components st k) - retry_count (components st k)) <= n)%nat ->
    exists b st1 evs,
      retry_loop env n (stage_call env k) k st = (Ret b, st1) /\
      history st1 = (evs ++ history st)%list /\
      Forall (fun e => e = EvInstall k (snapshot (mod_comp k (set_status RUNNING) st))) evs /\
      install_dir st1 = install_dir st /\
      (forall k', k' <> k -> components st1 k' = components st k') /\
      status (components st1 k) = (if b then SUCCESS else FAILED) /\
      same_identity (components st k) (components st1 k) /\
      retry_count (components st k) <= retry_count (components st1 k) /\
      retry_count (components st1 k)
        <= Z.max (retry_count (components st k)) (max_retries (components st k)) /\
      (b = true -> error_msg (components st1 k) = EmptyString) /\
      (b = false -> max_retries (components st k) <= retry_count (components st1 k)) /\
      (List.length evs <= n)%nat.
Proof.
  induction n as [|n IH]; intros st Hn; cbn [retry_loop];
    unfold bind at 1; unfold get_component at 1;
    destruct (retry_count (components st k) <? max_retries (components st k)) eqn:C.
  - apply Z.ltb_lt in C. lia.
  - apply Z.ltb_ge in C.
    unfold bind at 1. unfold modify_component at 1.
    unfold bind at 1. rewrite save_state_eq.
    exists false. eexists. exists nil. split; [reflexivity|].
    autorewrite with installer.
    repeat split; frame_close.
  - apply Z.ltb_lt in C. unfold bind at 1. rewrite retry_attempt_eq. cbn zeta.
    set (s1 := saved env (mod_comp k (set_status RUNNING) st)).
    set (ev := EvInstall k (snapshot s1)).
    assert (Hev : ev = EvInstall k (snapshot (mod_comp k (set_status RUNNING) st)))
      by reflexivity.
    destruct (stage env k (history st)) as [[|]|cls msg].
    + exists true. eexists. exists [ev]. split; [reflexivity|].
      subst s1. autorewrite with installer.
      repeat split; frame_close.
    + match goal with
      | |- context [retry_loop env n ?f k ?s] => set (s' := s)
      end.
      assert (Hk' : forall k', k' <> k -> components s' k' = components st k').
      { intros k' Hk. subst s' s1.
        repeat (rewrite ?components_mod_other, ?components_log, ?components_saved
                  by assumption).
        reflexivity. }
      assert (Hc : components s' k = count_retry (set_status RUNNING (components st k))).
      { subst s' s1. now autorewrite with installer. }
      assert (Hh : history s' = ev :: history st) by reflexivity.
      destruct (IH s') as (b & st1 & evs & E & Hh1 & Hall & Hd & Hoth & Hst & Hid & Hlo & Hhi
                           & Herr & Hex & Hlen).
      { rewrite Hc. cbn. lia. }
      rewrite E. exists b, st1, (evs ++ [ev])%list.
      split; [reflexivity|].
      split; [rewrite Hh1, Hh, <- app_assoc; reflexivity|].
      split.
      { apply Forall_app. split; [|repeat constructor; exact Hev].
        eapply Forall_impl; [|exact Hall]. intros e ->. f_equal.
        apply snapshot_ext. intros k0.
        destruct (Key_eqb k0 k) eqn:E0.
        - apply Key_eqb_eq in E0. subst k0. now rewrite !components_mod_same.
        - assert (k0 <> k) by (intros ->; now rewrite Key_eqb_refl in E0).
          rewrite !components_mod_other by assumption. now rewrite Hk'. }
      split; [rewrite Hd; reflexivity|].
      split; [intros k' Hk; rewrite Hoth, Hk' by assumption; reflexivity|].
      split; [exact Hst|].
      rewrite Hc in Hid, Hlo, Hhi, Hex. cbn in Hid, Hlo, Hhi, Hex.
      split; [exact Hid|].
      split; [lia|]. split; [lia|]. split; [exact Herr|]. split; [exact Hex|].
      rewrite length_app. cbn. lia.
    + match goal with
      | |- context [retry_loop env n ?f k ?s] => set (s' := s)
      end.
      assert (Hk' : forall k', k' <> k -> components s' k' = components st k').
      { intros k' Hk. subst s' s1.
        repeat (rewrite ?components_mod_other, ?components_log, ?components_saved
                  by assumption).
        reflexivity. }
      assert (Hc : components s' k
                   = set_error_msg msg (count_retry (set_status RUNNING (components st k)))).
      { subst s' s1. now autorewrite with installer. }
      assert (Hh : history s' = ev :: history st) by reflexivity.
      destruct (IH s') as (b & st1 & evs & E & Hh1 & Hall & Hd & Hoth & Hst & Hid & Hlo & Hhi
                           & Herr & Hex & Hlen).
      { rewrite Hc. cbn. lia. }
      rewrite E. exists b, st1, (evs ++ [ev])%list.
      split; [reflexivity|].
      split; [rewrite Hh1, Hh, <- app_assoc; reflexivity|].
      split.
      { apply Forall_app. split; [|repeat constructor; exact Hev].
        eapply Forall_impl; [|exact Hall]. intros e ->. f_equal.
        apply snapshot_ext. intros k0.
        destruct (Key_eqb k0 k) eqn:E0.
        - apply Key_eqb_eq in E0. subst k0. now rewrite !components_mod_same.
        - assert (k0 <> k) by (intros ->; now rewrite Key_eqb_refl in E0).
          rewrite !components_mod_other by assumption. now rewrite Hk'. }
      split; [rewrite Hd; reflexivity|].
      split; [intros k' Hk; rewrite Hoth, Hk' by assumption; reflexivity|].
      split; [exact Hst|].
      rewrite Hc in Hid, Hlo, Hhi, Hex. cbn in Hid, Hlo, Hhi, Hex.
      split; [exact Hid|].
      split; [lia|]. split; [lia|]. split; [exact Herr|]. split; [exact Hex|].
      rewrite length_app. cbn. lia.
  - apply Z.ltb_ge in C.
    unfold bind at 1. unfold modify_component at 1.
    unfold bind at 1. rewrite save_state_eq.
    exists false. eexists. exists nil. split; [reflexivity|].
    autorewrite with installer.
    repeat split; frame_close.
Qed.

Lemma retry_operation_frame (env : Env) (k : Key) (st : Installer) :
  exists b st1 evs,
    _retry_operation env (stage_call env k) k st = (Ret b, st1) /\
    history st1 = (evs ++ history st)%list /\
    Forall (fun e => e = EvInstall k (snapshot (mod_comp k (set_status RUNNING) st))) evs /\
    install_dir st1 = install_dir st /\
    (forall k', k' <> k -> components st1 k' = components st k') /\
    status (components st1 k) = (if b then SUCCESS else FAILED) /\
    same_identity (components st k) (components st1 k) /\
    retry_count (components st k) <= retry_count (components st1 k) /\
    retry_count (components st1 k)
      <= Z.max (retry_count (components st k)) (max_retries (components st k)) /\
    (b = true -> error_msg (components st1 k) = EmptyString) /\
    (b = false -> max_retries (components st k) <= retry_count (components st1 k)) /\
    (List.length evs
     <= Z.to_nat (max_retries (components st k) - retry_count (components st k)))%nat.
Proof. unfold _retry_operation. apply retry_loop_frame. lia. Qed.

(** One turn of the loop of [install_all]. *)
Lemma run_steps_cons (env : Env) (k : Key) (rest : list (Key * M bool)) (st : Installer) :
  run_steps env ((k, stage_call env k) :: rest) st =
  if InstallStatus_eqb (status (components st k)) SUCCESS then run_steps env rest st
  else
    match _retry_operation env (stage_call env k) k st with
    | (Ret true, st1) => run_steps env rest st1
    | (Ret false, st1) =>
        match _attempt_repair env k st1 with
        | (Ret true, st2) => run_steps env rest st2
        | (Ret false, st2) => (Ret false, st2)
        | (Raise e, st2) => (Raise e, st2)
        end
    | (Raise e, st1) => (Raise e, st1)
    end.
Proof.
  cbn [run_steps]. unfold bind at 1. unfold get_component at 1.
  destruct (InstallStatus_eqb (status (components st k)) SUCCESS); [reflexivity|].
  unfold bind at 1.
  destruct (_retry_operation env (stage_call env k) k st) as [[[|]|e] st1]; cbn [negb];
    try reflexivity.
  unfold bind at 1.
  destruct (_attempt_repair env k st1) as [[[|]|e] st2]; reflexivity.
Qed.

(** A property that the retry wrapper (on a component that is not
    [SUCCESS]) and the repair (on a component that is [FAILED]) keep is
    kept by the loop of [install_all]. *)
Lemma run_steps_invariant (env : Env) (I : Installer -> Prop)
      (steps : list (Key * M bool)) :
  (forall k f, In (k, f) steps -> f = stage_call env k) ->
  (forall k st b st1,
      I st -> status (components st k) <> SUCCESS ->
      _retry_operation env (stage_call env k) k st = (Ret b, st1) -> I st1) ->
  (forall k st r st2,
      I st -> status (components st k) = FAILED ->
      _attempt_repair env k st = (r, st2) -> I st2) ->
  forall st, I st -> I (snd (run_steps env steps st)).
Proof.
  intros Hsteps Hretry Hrepair.
  induction steps as [|[k f] steps IH]; intros st HI.
  - exact HI.
  - assert (Hf : f = stage_call env k) by (apply Hsteps; now left). subst f.
    assert (IH' : forall s, I s -> I (snd (run_steps env steps s)))
      by (apply IH; intros k0 f0 H0; apply Hsteps; now right).
    rewrite run_steps_cons.
    destruct (InstallStatus_eqb (status (components st k)) SUCCESS) eqn:Es; [now apply IH'|].
    assert (Hs : status (components st k) <> SUCCESS)
      by (intros H; apply InstallStatus_eqb_eq in H; congruence).
    destruct (retry_operation_frame env k st)
      as (b & st1 & evs & E & _ & _ & _ & _ & Hst & _).
    rewrite E. pose proof (Hretry k st b st1 HI Hs E) as H1.
    destruct b; [now apply IH'|].
    destruct (_attempt_repair env k st1) as [r st2] eqn:E2.
    pose proof (Hrepair k st1 r st2 H1 Hst E2) as H2.
    destruct r as [[|]|e]; [now apply IH' | exact H2 | exact H2].
Qed.

Lemma install_all_invariant (env : Env) (I : Installer -> Prop) :
  (forall k st b st1,
      I st -> status (components st k) <> SUCCESS ->
      _retry_operation env (stage_call env k) k st = (Ret b, st1) -> I st1) ->
  (forall k st r st2,
      I st -> status (components st k) = FAILED ->
      _attempt_repair env k st = (r, st2) -> I st2) ->
  forall st, I st -> I (snd (install_all env st)).
Proof. apply run_steps_invariant. apply install_steps_func. Qed.

(** A repair leaves the components, the files and the directory as they
    are. *)
Lemma attempt_repair_frame (env : Env) (k : Key) (st : Installer) :
  components (snd (_attempt_repair env k st)) = components st /\
  files (snd (_attempt_repair env k st)) = files st /\
  install_dir (snd (_attempt_repair env k st)) = install_dir st.
Proof.
  destruct (attempt_repair_spec env k st) as (r & evs & E & _). rewrite E.
  repeat split.
Qed.

(** ** Invariants of [install_all] *)

(** X1: [install_all] never changes the [name], [type], [version],
    [rollback_data] or [max_retries] of any component, whatever the
    stages and the commands do and however the run ends. *)
Theorem install_all_keeps_identity (env : Env) (st : Installer) (k : Key) :
  same_identity (components st k) (components (snd (install_all env st)) k).
Proof.
  revert k.
  apply (install_all_invariant env
           (fun s => forall k, same_identity (components st k) (components s k))).
  - intros k0 s b s1 HI _ E k.
    destruct (retry_operation_frame env k0 s)
      as (b' & s1' & evs & E' & _ & _ & _ & Hoth & _ & Hid & _).
    rewrite E in E'. injection E' as _ <-.
    destruct (Key_eqb k k0) eqn:Ek.
    + apply Key_eqb_eq in Ek. subst k0.
      eapply same_identity_trans; [apply HI | exact Hid].
    + assert (k <> k0) by (intros ->; now rewrite Key_eqb_refl in Ek).
      rewrite Hoth by assumption. apply HI.
  - intros k0 s r s2 HI _ E k.
    destruct (attempt_repair_frame env k0 s) as (Hc & _). rewrite E in Hc. cbn [snd] in Hc.
    rewrite Hc. apply HI.
  - intros k. apply same_identity_refl.
Qed.

(** X2: when [install_all] is over (however it ends), the
    [retry_count] of a component is at least its starting value and at
    most the larger of its starting value and [max_retries]: a
    component that starts within its budget ends within it. *)
Theorem retry_count_grows_within_budget (env : Env) (st : Installer) (k : Key) :
  retry_count (components st k) <= retry_count (components (snd (install_all env st)) k) /\
  retry_count (components (snd (install_all env st)) k)
    <= Z.max (retry_count (components st k)) (max_retries (components st k)).
Proof.
  revert k.
  apply (install_all_invariant env
           (fun s => forall k,
                max_retries (components s k) = max_retries (components st k) /\
                retry_count (components st k) <= retry_count (components s k) /\
                retry_count (components s k)
                  <= Z.max (retry_count (components st k)) (max_retries (components st k)))).
  - intros k0 s b s1 HI _ E k.
    destruct (retry_operation_frame env k0 s)
      as (b' & s1' & evs & E' & _ & _ & _ & Hoth & _ & Hid & Hlo & Hhi & _).
    rewrite E in E'. injection E' as _ <-.
    destruct (Key_eqb k k0) eqn:Ek.
    + apply Key_eqb_eq in Ek. subst k0.
      destruct (HI k) as (Hm & H1 & H2). destruct Hid as (_ & _ & _ & _ & Hmr).
      rewrite Hmr. split; [exact Hm|]. rewrite Hm in Hhi. lia.
    + assert (k <> k0) by (intros ->; now rewrite Key_eqb_refl in Ek).
      rewrite Hoth by assumption. apply HI.
  - intros k0 s r s2 HI _ E k.
    destruct (attempt_repair_frame env k0 s) as (Hc & _). rewrite E in Hc. cbn [snd] in Hc.
    rewrite Hc. apply HI.
  - intros k. split; [reflexivity|]. lia.
Qed.

Lemma not_running_eqb (st : Installer) :
  (forall k, status (components st k) <> RUNNING) ->
  forall k, InstallStatus_eqb (status (components st k)) RUNNING = false.
Proof.
  intros H k. destruct (InstallStatus_eqb (status (components st k)) RUNNING) eqn:E;
    [|reflexivity].
  apply InstallStatus_eqb_eq in E. now apply H in E.
Qed.

Lemma running_count_none (st : Installer) :
  (forall k, status (components st k) <> RUNNING) -> running_count (snapshot st) = 0%nat.
Proof.
  intros H. pose proof (not_running_eqb st H) as E.
  unfold running_count, snapshot. cbn [map all_keys filter].
  now rewrite !E.
Qed.

Lemma running_count_entry (k : Key) (st : Installer) :
  (forall k', status (components st k') <> RUNNING) ->
  running_count (snapshot (mod_comp k (set_status RUNNING) st)) = 1%nat.
Proof.
  intros H. pose proof (not_running_eqb st H) as E.
  unfold running_count, snapshot. cbn [map all_keys filter].
  destruct k; cbn; rewrite !E; reflexivity.
Qed.

(** X3: if no component is [RUNNING] when [install_all] starts, then at
    every entry into an install or a repair function at most one
    component is [RUNNING], and none is when [install_all] is over
    (however it ends). *)
Theorem at_most_one_running (env : Env) (st : Installer) :
  (forall k, status (components st k) <> RUNNING) ->
  (forall k, status (components (snd (install_all env st)) k) <> RUNNING) /\
  exists evs,
    history (snd (install_all env st)) = (evs ++ history st)%list /\
    Forall (fun e => (running_count (event_snapshot e) <= 1)%nat) evs.
Proof.
  intros H0.
  apply (install_all_invariant env
           (fun s => (forall k, status (components s k) <> RUNNING) /\
                     exists evs, history s = (evs ++ history st)%list /\
                       Forall (fun e => (running_count (event_snapshot e) <= 1)%nat) evs)).
  - intros k0 s b s1 (HI & evs0 & Hh0 & Hall0) _ E.
    destruct (retry_operation_frame env k0 s)
      as (b' & s1' & evs & E' & Hh & Hev & _ & Hoth & Hst & _).
    rewrite E in E'. injection E' as <- <-. split.
    + intros k. destruct (Key_eqb k k0) eqn:Ek.
      * apply Key_eqb_eq in Ek. subst k0. rewrite Hst. destruct b; discriminate.
      * assert (k <> k0) by (intros ->; now rewrite Key_eqb_refl in Ek).
        rewrite Hoth by assumption. apply HI.
    + exists (evs ++ evs0)%list. split; [now rewrite Hh, Hh0, app_assoc|].
      apply Forall_app. split; [|exact Hall0].
      eapply Forall_impl; [|exact Hev]. intros e ->. cbn [event_snapshot].
      rewrite running_count_entry by assumption. lia.
  - intros k0 s r s2 (HI & evs0 & Hh0 & Hall0) _ E.
    destruct (attempt_repair_spec env k0 s) as (r' & evs & E' & Hother & Hhailo).
    rewrite E in E'. injection E' as -> ->. split; [exact HI|].
    exists ((evs ++ [EvRepair k0 (snapshot s)]) ++ evs0)%list.
    split; [cbn [log_events history]; now rewrite Hh0, app_assoc|].
    apply Forall_app. split; [|exact Hall0].
    apply Forall_app. split.
    + destruct (Key_eqb k0 hailort) eqn:Ek.
      * apply Key_eqb_eq in Ek. destruct (Hhailo Ek) as [-> _].
        repeat constructor. cbn [event_snapshot]. rewrite running_count_none by assumption. lia.
      * assert (Hk : k0 <> hailort) by (intros ->; discriminate Ek).
        destruct (Hother Hk) as [Hruns _].
        eapply Forall_impl; [|exact Hruns].
        intros e He. destruct e; try discriminate He. cbn. lia.
    + repeat constructor. cbn [event_snapshot]. rewrite running_count_none by assumption. lia.
  - split; [exact H0|]. exists nil. split; [reflexivity | constructor].
Qed.

(** No component of a fresh installer is [RUNNING]. *)
Lemma at_most_one_running_witness :
  (forall k, status (components fresh k) <> RUNNING) /\
  ((forall k, status (components (snd (install_all env_pcie_dead fresh)) k) <> RUNNING) /\
   exists evs,
     history (snd (install_all env_pcie_dead fresh)) = (evs ++ history fresh)%list /\
     Forall (fun e => (running_count (event_snapshot e) <= 1)%nat) evs).
Proof.
  assert (H : forall k, status (components fresh k) <> RUNNING)
    by (intros k; destruct k; vm_compute; discriminate).
  split; [exact H|].
  exact (at_most_one_running env_pcie_dead fresh H).
Defined.

Lemma other_installs_count_nothing (k k0 : Key) (snap : list InstallStatus)
      (evs : list Event) :
  k <> k0 ->
  Forall (fun e => e = EvInstall k0 snap) evs ->
  installs_of k evs = 0%nat /\ repairs_of k evs = 0%nat.
Proof.
  intros Hk H. induction H as [|e evs -> _ IH]; [split; reflexivity|].
  unfold installs_of, repairs_of in *. cbn [filter is_install is_repair].
  rewrite (Key_eqb_neq k k0 Hk). exact IH.
Qed.

(** X4: a component that is [SUCCESS] when [install_all] starts is
    skipped: neither its install function nor its repair function is
    entered during the run, and it is still [SUCCESS] afterwards. *)
Theorem success_component_is_skipped (env : Env) (st : Installer) (k : Key) :
  status (components st k) = SUCCESS ->
  status (components (snd (install_all env st)) k) = SUCCESS /\
  installs_of k (history (snd (install_all env st))) = installs_of k (history st) /\
  repairs_of k (history (snd (install_all env st))) = repairs_of k (history st).
Proof.
  intros H0.
  apply (install_all_invariant env
           (fun s => status (components s k) = SUCCESS /\
                     installs_of k (history s) = installs_of k (history st) /\
                     repairs_of k (history s) = repairs_of k (history st))).
  - intros k0 s b s1 (HI & Hi & Hr) Hs E.
    assert (Hk : k <> k0) by congruence.
    destruct (retry_operation_frame env k0 s)
      as (b' & s1' & evs & E' & Hh & Hev & _ & Hoth & _).
    rewrite E in E'. injection E' as _ <-.
    destruct (other_installs_count_nothing k k0 _ evs Hk Hev) as [Z1 Z2].
    rewrite Hoth by assumption. split; [exact HI|].
    rewrite Hh, installs_of_app, repairs_of_app, Z1, Z2. now split.
  - intros k0 s r s2 (HI & Hi & Hr) Hs E.
    assert (Hk : k <> k0) by congruence.
    destruct (attempt_repair_spec env k0 s) as (r' & evs & E' & Hother & Hhailo).
    rewrite E in E'. injection E' as _ ->.
    cbn [log_events components history]. split; [exact HI|].
    rewrite !installs_of_app, !repairs_of_app.
    assert (T : installs_of k [EvRepair k0 (snapshot s)] = 0%nat /\
                repairs_of k [EvRepair k0 (snapshot s)] = 0%nat).
    { unfold installs_of, repairs_of. cbn. now rewrite (Key_eqb_neq k k0 Hk). }
    destruct T as [T1 T2]. rewrite T1, T2.
    destruct (Key_eqb k0 hailort) eqn:Ek.
    + apply Key_eqb_eq in Ek. destruct (Hhailo Ek) as [-> _]. subst k0.
      unfold installs_of, repairs_of. cbn [filter is_install is_repair].
      rewrite (Key_eqb_neq k hailort Hk). cbn. split; [exact Hi | exact Hr].
    + assert (Hk0 : k0 <> hailort) by (intros ->; discriminate Ek).
      destruct (Hother Hk0) as [Hruns _].
      destruct (runs_count_nothing k evs Hruns) as (Z1 & Z2 & _).
      rewrite Z1, Z2. cbn. split; [exact Hi | exact Hr].
  - repeat split. exact H0.
Qed.

(** [system_check] is [SUCCESS] in [progressed]. *)
Lemma success_component_is_skipped_witness :
  status (components progressed system_check) = SUCCESS /\
  (status (components (snd (install_all env_pcie_dead progressed)) system_check) = SUCCESS /\
   installs_of system_check (history (snd (install_all env_pcie_dead progressed)))
     = installs_of system_check (history progressed) /\
   repairs_of system_check (history (snd (install_all env_pcie_dead progressed)))
     = repairs_of system_check (history progressed)).
Proof.
  split; [reflexivity|].
  exact (success_component_is_skipped env_pcie_dead progressed system_check eq_refl).
Defined.

Lemma run_steps_all_success (env : Env) (steps : list (Key * M bool)) (st : Installer) :
  (forall k, status (components st k) = SUCCESS) ->
  run_steps env steps st = (Ret true, st).
Proof.
  intros H. induction steps as [|[k f] steps IH]; [reflexivity|].
  cbn [run_steps]. unfold bind at 1. unfold get_component at 1.
  rewrite H. exact IH.
Qed.

(** X5: when all six components are [SUCCESS], [install_all] returns
    true and does nothing at all: no stage, no repair, no command, no
    write to the state file, no change of a component. *)
Theorem install_all_idempotent (env : Env) (st : Installer) :
  (forall k, status (components st k) = SUCCESS) ->
  install_all env st = (Ret true, st).
Proof. apply run_steps_all_success. Qed.

(** After a run in which every stage succeeded, all six components are
    [SUCCESS]. *)
Lemma install_all_idempotent_witness :
  (forall k, status (components all_installed k) = SUCCESS) /\
  install_all env_pcie_dead all_installed = (Ret true, all_installed).
Proof.
  assert (H : forall k, status (components all_installed k) = SUCCESS)
    by (intros k; destruct k; vm_compute; reflexivity).
  split; [exact H|].
  exact (install_all_idempotent env_pcie_dead all_installed H).
Defined.

(** ** Where the pipeline can stop *)

Lemma repairs_without_verdict (env : Env) (k : Key) (st : Installer) :
  k = system_check \/ k = dependencies \/ k = docker_config ->
  fst (_attempt_repair env k st) = Ret true.
Proof.
  unfold _attempt_repair.
  intros [-> | [-> | ->]]; cbn [repair_strategies];
    unfold _repair_system_check, _repair_dependencies, _repair_docker_config;
    repeat (unfold bind at 1; run_logged); reflexivity.
Qed.

(** X6: the repair functions of [system_check], [dependencies] and
    [docker_config] return true for every outcome of their commands:
    they cannot fail. *)
Theorem three_repairs_cannot_fail (env : Env) (st : Installer) :
  fst (_attempt_repair env system_check st) = Ret true /\
  fst (_attempt_repair env dependencies st) = Ret true /\
  fst (_attempt_repair env docker_config st) = Ret true.
Proof.
  unfold _attempt_repair. cbn [repair_strategies].
  unfold _repair_system_check, _repair_dependencies, _repair_docker_config.
  repeat split;
    repeat (unfold bind at 1; run_logged); reflexivity.
Qed.

Lemma run_steps_false (env : Env) (steps : list (Key * M bool)) :
  (forall k f, In (k, f) steps -> f = stage_call env k) ->
  forall st,
    fst (run_steps env steps st) = Ret false ->
    exists k,
      (k = pcie_driver \/ k = hailort \/ k = validation) /\
      status (components (snd (run_steps env steps st)) k) = FAILED /\
      max_retries (components (snd (run_steps env steps st)) k)
        <= retry_count (components (snd (run_steps env steps st)) k).
Proof.
  intros Hsteps. induction steps as [|[k f] steps IH]; intros st.
  - discriminate.
  - assert (Hf : f = stage_call env k) by (apply Hsteps; now left). subst f.
    assert (IH' : forall s, fst (run_steps env steps s) = Ret false ->
                  exists k0, (k0 = pcie_driver \/ k0 = hailort \/ k0 = validation) /\
                    status (components (snd (run_steps env steps s)) k0) = FAILED /\
                    max_retries (components (snd (run_steps env steps s)) k0)
                      <= retry_count (components (snd (run_steps env steps s)) k0))
      by (apply IH; intros k0 f0 H0; apply Hsteps; now right).
    rewrite run_steps_cons.
    destruct (InstallStatus_eqb (status (components st k)) SUCCESS); [apply IH'|].
    destruct (retry_operation_frame env k st)
      as (b & st1 & evs & E & _ & _ & _ & _ & Hst & Hid & _ & _ & _ & Hex & _).
    rewrite E. destruct b; [apply IH'|].
    destruct (attempt_repair_frame env k st1) as (Hc & _).
    pose proof (repairs_without_verdict env system_check st1 (or_introl eq_refl)) as R1.
    pose proof (repairs_without_verdict env dependencies st1
                  (or_intror (or_introl eq_refl))) as R2.
    pose proof (repairs_without_verdict env docker_config st1
                  (or_intror (or_intror eq_refl))) as R3.
    destruct (_attempt_repair env k st1) as [[[|]|e] st2] eqn:E2; cbn [fst snd] in *;
      [apply IH' | | discriminate].
    intros _. exists k. rewrite Hc.
    destruct Hid as (_ & _ & _ & _ & Hmr). rewrite Hmr.
    split; [|split; [exact Hst | now apply Hex]].
    destruct k; auto; rewrite E2 in *; discriminate.
Qed.

(** X7: [install_all] returns false only at [pcie_driver], [hailort] or
    [validation]: whenever it returns false, one of these three is
    recorded as [FAILED] with its retries used up. *)
Theorem install_all_false_only_at_three (env : Env) (st : Installer) :
  fst (install_all env st) = Ret false ->
  exists k,
    (k = pcie_driver \/ k = hailort \/ k = validation) /\
    status (components (snd (install_all env st)) k) = FAILED /\
    max_retries (components (snd (install_all env st)) k)
      <= retry_count (components (snd (install_all env st)) k).
Proof. apply run_steps_false. apply install_steps_func. Qed.

(** The run under [env_pcie_dead] from a fresh directory returns
    false. *)
Lemma install_all_false_only_at_three_witness :
  fst (install_all env_pcie_dead fresh) = Ret false /\
  exists k,
    (k = pcie_driver \/ k = hailort \/ k = validation) /\
    status (components (snd (install_all env_pcie_dead fresh)) k) = FAILED /\
    max_retries (components (snd (install_all env_pcie_dead fresh)) k)
      <= retry_count (components (snd (install_all env_pcie_dead fresh)) k).
Proof.
  assert (H : fst (install_all env_pcie_dead fresh) = Ret false) by (vm_compute; reflexivity).
  split; [exact H|].
  exact (install_all_false_only_at_three env_pcie_dead fresh H).
Defined.

(** ** The retry budget *)

(** X8: when the [retry_count] of a component has reached its
    [max_retries], [_retry_operation] does not call the operation at
    all, whatever the operation is: it records [FAILED], returns false
    and leaves the history, the [retry_count] and the [error_msg] as
    they are. *)
Theorem exhausted_budget_skips_operation (env : Env) (f : M bool) (k : Key)
        (st : Installer) :
  max_retries (components st k) <= retry_count (components st k) ->
  fst (_retry_operation env f k st) = Ret false /\
  history (snd (_retry_operation env f k st)) = history st /\
  status (components (snd (_retry_operation env f k st)) k) = FAILED /\
  retry_count (components (snd (_retry_operation env f k st)) k)
    = retry_count (components st k) /\
  error_msg (components (snd (_retry_operation env f k st)) k)
    = error_msg (components st k).
Proof.
  intros H.
  assert (E : _retry_operation env f k st
              = (Ret false, saved env (mod_comp k (set_status FAILED) st))).
  { unfold _retry_operation.
    assert (C : (retry_count (components st k) <? max_retries (components st k)) = false)
      by (apply Z.ltb_ge; exact H).
    destruct (Z.to_nat (max_retries (components st k) - retry_count (components st k)));
      cbn [retry_loop]; unfold bind at 1; unfold get_component at 1; rewrite C;
      unfold bind at 1; unfold modify_component at 1;
      unfold bind at 1; rewrite save_state_eq; reflexivity. }
  rewrite E. cbn [fst snd]. autorewrite with installer. repeat split.
Qed.

(** In the state the run under [env_pcie_dead] ends in, [pcie_driver]
    has used its three retries; an operation that would succeed is not
    called. *)
Lemma exhausted_budget_skips_operation_witness :
  max_retries (components pcie_dead_final pcie_driver)
    <= retry_count (components pcie_dead_final pcie_driver) /\
  (fst (_retry_operation env_all_ok (install_pcie_driver env_all_ok) pcie_driver
          pcie_dead_final) = Ret false /\
   history (snd (_retry_operation env_all_ok (install_pcie_driver env_all_ok) pcie_driver
                   pcie_dead_final)) = history pcie_dead_final /\
   status (components (snd (_retry_operation env_all_ok (install_pcie_driver env_all_ok)
                              pcie_driver pcie_dead_final)) pcie_driver) = FAILED /\
   retry_count (components (snd (_retry_operation env_all_ok (install_pcie_driver env_all_ok)
                                   pcie_driver pcie_dead_final)) pcie_driver)
     = retry_count (components pcie_dead_final pcie_driver) /\
   error_msg (components (snd (_retry_operation env_all_ok (install_pcie_driver env_all_ok)
                                 pcie_driver pcie_dead_final)) pcie_driver)
     = error_msg (components pcie_dead_final pcie_driver)).
Proof.
  assert (H : max_retries (components pcie_dead_final pcie_driver)
              <= retry_count (components pcie_dead_final pcie_driver))
    by (vm_compute; discriminate).
  split; [exact H|].
  exact (exhausted_budget_skips_operation env_all_ok (install_pcie_driver env_all_ok)
           pcie_driver pcie_dead_final H).
Defined.

(** X9: the retry wrapper around the install function of a component
    always returns a boolean, also when the install function raises;
    it enters that install function some number of times that is at
    most [max_retries - retry_count], and enters no other install or
    repair function; the component is [SUCCESS] with an empty
    [error_msg] if it returns true and [FAILED] if it returns false; no
    other component changes. *)
Theorem retry_wrapper_contract (env : Env) (k : Key) (st : Installer) :
  exists (b : bool) (st1 : Installer) (n : nat),
    _retry_operation env (stage_call env k) k st = (Ret b, st1) /\
    (n <= Z.to_nat (max_retries (components st k) - retry_count (components st k)))%nat /\
    installs_of k (history st1) = (installs_of k (history st) + n)%nat /\
    invocations (history st1) = (invocations (history st) + n)%nat /\
    status (components st1 k) = (if b then SUCCESS else FAILED) /\
    (b = true -> error_msg (components st1 k) = EmptyString) /\
    (forall k', k' <> k -> components st1 k' = components st k').
Proof.
  destruct (retry_operation_frame env k st)
    as (b & st1 & evs & E & Hh & Hev & _ & Hoth & Hst & _ & _ & _ & Herr & _ & Hlen).
  exists b, st1, (List.length evs). split; [exact E|].
  assert (Hall : Forall (fun e => is_install k e = true) evs).
  { eapply Forall_impl; [|exact Hev]. intros e ->. cbn. apply Key_eqb_refl. }
  destruct (installs_count k evs Hall) as (Ci & Cv & _).
  rewrite Hh, installs_of_app, invocations_app, Ci, Cv.
  repeat split; try assumption; lia.
Qed.

(** * Properties of the stage functions *)

(** ** Commands and states *)

Lemma execute_eq (env : Env) (command : list string) (st : Installer) :
  execute env command st =
  (Ret (command_result env command 300 (history st)), log_event (EvRun command) st).
Proof. unfold execute. rewrite execute_command_eq. reflexivity. Qed.

Lemma run_command_eq (env : Env) (command : list string) (timeout : Z) (st : Installer) :
  run_command env command timeout st =
  (Ret (command_result env command timeout (history st)), log_event (EvRun command) st).
Proof.
  unfold run_command, try_except, bind, subprocess_run, command_result.
  destruct (run_outcome env command timeout (history st)) as [p | [] msg]; reflexivity.
Qed.

Lemma ran_nil (st : Installer) : ran nil st = st.
Proof. destruct st. reflexivity. Qed.

Lemma ran_cons (c : list string) (cmds : list (list string)) (st : Installer) :
  ran cmds (log_event (EvRun c) st) = ran (c :: cmds) st.
Proof.
  unfold ran, log_events, log_event. cbn [install_dir components files history map rev].
  now rewrite <- app_assoc.
Qed.

Lemma ran_ran (a b : list (list string)) (st : Installer) :
  ran b (ran a st) = ran (a ++ b) st.
Proof.
  unfold ran, log_events. cbn [install_dir components files history].
  now rewrite map_app, rev_app_distr, app_assoc.
Qed.

Lemma ran_one (c : list string) (st : Installer) : log_event (EvRun c) st = ran [c] st.
Proof. reflexivity. Qed.

Ltac exec_step :=
  unfold bind at 1; rewrite execute_eq; cbn beta iota.

(** ** Dependencies *)

Lemma install_each_ran (env : Env) (pm : string) (deps : list string) (st : Installer) :
  Stages.install_each env pm deps st
  = (Ret tt, ran (map (Stages._get_install_command pm) deps) st).
Proof.
  revert st. induction deps as [|dep rest IH]; intros st; cbn [Stages.install_each map].
  - now rewrite ran_nil.
  - exec_step. rewrite IH, ran_cons. reflexivity.
Qed.

(** [install_dependencies] as a function of what the commands
    answer. *)
Lemma install_dependencies_eq (env : Env) (st : Installer) :
  let which pm := ["which"; pm] in
  let update := ["apt"; "update"] in
  let installs pm :=
    map (Stages._get_install_command pm) (Stages._get_dependencies_for_pm pm) in
  Stages.install_dependencies env st =
  if succeeds env (which "apt") st then
    if succeeds env update (ran [which "apt"] st)
    then (Ret true, ran ([which "apt"; update] ++ installs "apt") st)
    else (Ret false, ran [which "apt"; update] st)
  else if succeeds env (which "yum") (ran [which "apt"] st) then
    (Ret true, ran ([which "apt"; which "yum"] ++ installs "yum") st)
  else if succeeds env (which "dnf") (ran [which "apt"; which "yum"] st) then
    (Ret true, ran ([which "apt"; which "yum"; which "dnf"] ++ installs "dnf") st)
  else (Ret false, ran [which "apt"; which "yum"; which "dnf"] st).
Proof.
  intros which update installs.
  unfold Stages.install_dependencies, Stages.package_managers.
  cbn [Stages.detect_package_manager].
  unfold bind at 1. exec_step.
  change (success_of (command_result env ["which"; "apt"] 300 (history st)))
    with (succeeds env (which "apt") st).
  destruct (succeeds env (which "apt") st).
  - unfold ret at 1. cbn [nonempty negb String.eqb Ascii.eqb Bool.eqb].
    exec_step.
    change (success_of (command_result env ["apt"; "update"] 300
                          (history (log_event (EvRun ["which"; "apt"]) st))))
      with (succeeds env update (ran [which "apt"] st)).
    destruct (succeeds env update (ran [which "apt"] st)); cbn [negb]; [|reflexivity].
    unfold bind at 1. rewrite install_each_ran. unfold ret.
    rewrite !ran_cons. reflexivity.
  - exec_step.
    change (success_of (command_result env ["which"; "yum"] 300
                          (history (log_event (EvRun ["which"; "apt"]) st))))
      with (succeeds env (which "yum") (ran [which "apt"] st)).
    destruct (succeeds env (which "yum") (ran [which "apt"] st)).
    + unfold ret at 1. cbn [nonempty negb String.eqb Ascii.eqb Bool.eqb].
      unfold bind at 1. rewrite install_each_ran. unfold ret.
      rewrite !ran_cons. reflexivity.
    + exec_step.
      change (success_of (command_result env ["which"; "dnf"] 300
                (history (log_event (EvRun ["which"; "yum"])
                            (log_event (EvRun ["which"; "apt"]) st)))))
        with (succeeds env (which "dnf") (ran [which "apt"; which "yum"] st)).
      destruct (succeeds env (which "dnf") (ran [which "apt"; which "yum"] st)).
      * unfold ret at 1. cbn [nonempty negb String.eqb Ascii.eqb Bool.eqb].
        unfold bind at 1. rewrite install_each_ran. unfold ret.
        rewrite !ran_cons. reflexivity.
      * reflexivity.
Qed.

(** X10: when [which apt] and [apt update] succeed,
    [install_dependencies] returns true after asking [apt] for each of
    the ten packages, whatever the ten installations answer: a package
    that could not be installed does not make the stage fail. *)
Theorem install_dependencies_ignores_failed_packages (env : Env) (st : Installer) :
  succeeds env ["which"; "apt"] st = true ->
  succeeds env ["apt"; "update"] (ran [["which"; "apt"]] st) = true ->
  Stages.install_dependencies env st =
  (Ret true,
   ran ([["which"; "apt"]; ["apt"; "update"]]
        ++ map (fun package => ["apt"; "install"; "-y"; package])
             ["build-essential"; "python3-dev"; "python3-pip"; "cmake"; "git"; "wget";
              "curl"; "dkms"; "linux-headers-$(uname -r)"; "pciutils"]) st).
Proof.
  intros Hapt Hupd. rewrite install_dependencies_eq. cbv zeta.
  rewrite Hapt, Hupd. reflexivity.
Qed.

Lemma install_dependencies_ignores_failed_packages_witness :
  succeeds env_only_apt ["apt"; "install"; "-y"; "dkms"]
    (ran [["which"; "apt"]; ["apt"; "update"]] fresh) = false /\
  Stages.install_dependencies env_only_apt fresh =
  (Ret true,
   ran ([["which"; "apt"]; ["apt"; "update"]]
        ++ map (fun package => ["apt"; "install"; "-y"; package])
             ["build-essential"; "python3-dev"; "python3-pip"; "cmake"; "git"; "wget";
              "curl"; "dkms"; "linux-headers-$(uname -r)"; "pciutils"]) fresh).
Proof.
  split; [reflexivity|].
  apply (install_dependencies_ignores_failed_packages env_only_apt fresh); reflexivity.
Defined.

(** X11: [install_dependencies] never raises.  When it returns false,
    the only commands it ran are the three probes for a package manager,
    or the probe for [apt] and [apt update]: nothing was installed.
    When it returns true, it asked one package manager for every
    package of its list. *)
Theorem install_dependencies_failure_installs_nothing (env : Env) (st : Installer) :
  exists (b : bool) (cmds : list (list string)),
    Stages.install_dependencies env st = (Ret b, ran cmds st) /\
    (b = false ->
     cmds = [["which"; "apt"]; ["which"; "yum"]; ["which"; "dnf"]] \/
     cmds = [["which"; "apt"]; ["apt"; "update"]]) /\
    (b = true ->
     exists pm, In pm ["apt"; "yum"; "dnf"] /\
       forall package, In package (Stages._get_dependencies_for_pm pm) ->
         In [pm; "install"; "-y"; package] cmds).
Proof.
  rewrite install_dependencies_eq. cbv zeta.
  assert (Hin : forall pm l, In pm ["apt"; "yum"; "dnf"] ->
            forall package, In package (Stages._get_dependencies_for_pm pm) ->
              In [pm; "install"; "-y"; package]
                 (l ++ map (Stages._get_install_command pm)
                           (Stages._get_dependencies_for_pm pm))%list).
  { intros pm l Hpm package Hp. apply in_or_app. right.
    apply in_map_iff. exists package. split; [|exact Hp].
    cbn in Hpm. destruct Hpm as [<-|[<-|[<-|[]]]]; reflexivity. }
  destruct (succeeds env ["which"; "apt"] st).
  - destruct (succeeds env ["apt"; "update"] (ran [["which"; "apt"]] st)).
    + eexists. eexists. split; [reflexivity|]. split; [discriminate|].
      intros _. exists "apt". split; [cbn; tauto|].
      apply (Hin "apt" [["which"; "apt"]; ["apt"; "update"]]). cbn; tauto.
    + eexists. eexists. split; [reflexivity|]. split; [right; reflexivity | discriminate].
  - destruct (succeeds env ["which"; "yum"] (ran [["which"; "apt"]] st)).
    + eexists. eexists. split; [reflexivity|]. split; [discriminate|].
      intros _. exists "yum". split; [cbn; tauto|].
      apply (Hin "yum" [["which"; "apt"]; ["which"; "yum"]]). cbn; tauto.
    + destruct (succeeds env ["which"; "dnf"] (ran [["which"; "apt"]; ["which"; "yum"]] st)).
      * eexists. eexists. split; [reflexivity|]. split; [discriminate|].
        intros _. exists "dnf". split; [cbn; tauto|].
        apply (Hin "dnf" [["which"; "apt"]; ["which"; "yum"]; ["which"; "dnf"]]). cbn; tauto.
      * eexists. eexists. split; [reflexivity|]. split; [left; reflexivity | discriminate].
Qed.

(** X12: on a host without [apt], [install_dependencies] never asks for
    a C++ compiler or for [make] (the replacement of [build-essential]
    by [gcc gcc-c++ make] finds nothing to replace, the list holding
    [gcc] there), and it never runs the [check-update] command listed
    with [yum] and [dnf]. *)
Theorem install_dependencies_without_apt (env : Env) (st : Installer) :
  succeeds env ["which"; "apt"] st = false ->
  exists (b : bool) (cmds : list (list string)),
    Stages.install_dependencies env st = (Ret b, ran cmds st) /\
    Forall (fun argv =>
              ~ In "gcc-c++" argv /\ ~ In "make" argv /\ ~ In "build-essential" argv /\
              ~ In "gcc gcc-c++ make" argv /\ ~ In "check-update" argv /\
              ~ In "update" argv) cmds.
Proof.
  intros Hapt. rewrite install_dependencies_eq. cbv zeta. rewrite Hapt.
  destruct (succeeds env ["which"; "yum"] (ran [["which"; "apt"]] st));
    [|destruct (succeeds env ["which"; "dnf"] (ran [["which"; "apt"]; ["which"; "yum"]] st))];
    eexists; eexists; (split; [reflexivity|]);
    cbv [app map Stages._get_install_command Stages._get_dependencies_for_pm existsb
         String.eqb Ascii.eqb Bool.eqb orb replace replace_loop String.prefix String.length
         Nat.sub];
    repeat constructor; cbn [In]; intuition discriminate.
Qed.

Lemma install_dependencies_without_apt_witness :
  exists (b : bool) (cmds : list (list string)),
    Stages.install_dependencies env_only_yum fresh = (Ret b, ran cmds fresh) /\
    Forall (fun argv =>
              ~ In "gcc-c++" argv /\ ~ In "make" argv /\ ~ In "build-essential" argv /\
              ~ In "gcc gcc-c++ make" argv /\ ~ In "check-update" argv /\
              ~ In "update" argv) cmds.
Proof.
  apply (install_dependencies_without_apt env_only_yum fresh). reflexivity.
Defined.

(** ** HailoRT *)

Lemma install_hailort_deb_eq (env : Env) (package_path : string) (st : Installer) :
  let dpkg := ["dpkg"; "-i"; package_path] in
  let fix_deps := ["apt"; "-f"; "install"; "-y"] in
  Stages._install_hailort_deb env package_path st =
  if succeeds env dpkg st then (Ret true, ran [dpkg] st)
  else (Ret (succeeds env dpkg (ran [dpkg; fix_deps] st)), ran [dpkg; fix_deps; dpkg] st).
Proof.
  intros dpkg fix_deps. unfold Stages._install_hailort_deb, try_except.
  exec_step.
  change (success_of (command_result env ["dpkg"; "-i"; package_path] 300 (history st)))
    with (succeeds env dpkg st).
  destruct (succeeds env dpkg st); cbn [negb]; [reflexivity|].
  do 2 exec_step.
  change (success_of (command_result env ["dpkg"; "-i"; package_path] 300
            (history (log_event (EvRun ["apt"; "-f"; "install"; "-y"])
                        (log_event (EvRun ["dpkg"; "-i"; package_path]) st)))))
    with (succeeds env dpkg (ran [dpkg; fix_deps] st)).
  destruct (succeeds env dpkg (ran [dpkg; fix_deps] st)); reflexivity.
Qed.

Lemma install_hailort_python_eq (env : Env) (package_path : string) (st : Installer) :
  let pip := ["pip3"; "install"; package_path] in
  Stages._install_hailort_python env package_path st
  = (Ret (succeeds env pip st), ran [pip] st).
Proof.
  intros pip. unfold Stages._install_hailort_python, try_except.
  exec_step.
  change (success_of (command_result env ["pip3"; "install"; package_path] 300 (history st)))
    with (succeeds env pip st).
  destruct (succeeds env pip st); reflexivity.
Qed.

Lemma verify_hailort_installation_eq (env : Env) (st : Installer) :
  Stages._verify_hailort_installation env st
  = (Ret (succeeds env Stages.import_check (ran [["which"; "hailortcli"]] st)),
     ran [["which"; "hailortcli"]; Stages.import_check] st).
Proof.
  unfold Stages._verify_hailort_installation, try_except.
  do 2 exec_step.
  change (success_of (command_result env Stages.import_check 300
            (history (log_event (EvRun ["which"; "hailortcli"]) st))))
    with (succeeds env Stages.import_check (ran [["which"; "hailortcli"]] st)).
  destruct (succeeds env Stages.import_check (ran [["which"; "hailortcli"]] st)); reflexivity.
Qed.

(** X13: when neither the Debian package nor the wheel is in the
    package directory, [install_hailort] installs nothing and returns
    what the import of [hailo_platform] gives: the two commands it runs
    are [which hailortcli], whose result it drops, and the import. *)
Theorem install_hailort_without_packages (env : Env) (host : Host) (st : Installer) :
  stat_path host (Stages.hailort_deb host) (history st) = Returns false ->
  stat_path host (Stages.hailort_whl host) (history st) = Returns false ->
  Stages.install_hailort env host st =
  (Ret (succeeds env Stages.import_check (ran [["which"; "hailortcli"]] st)),
   ran [["which"; "hailortcli"]; Stages.import_check] st).
Proof.
  intros Hdeb Hwhl. unfold Stages.install_hailort.
  unfold bind at 1. unfold Stages.path_exists at 1. rewrite Hdeb. cbn [result_of].
  unfold Stages.install_wheel_and_verify.
  unfold bind at 1. unfold Stages.path_exists at 1. rewrite Hwhl. cbn [result_of].
  apply verify_hailort_installation_eq.
Qed.

Lemma install_hailort_without_packages_witness :
  Stages.install_hailort env_all_ok bare_host fresh =
  (Ret true, ran [["which"; "hailortcli"]; Stages.import_check] fresh).
Proof.
  apply (install_hailort_without_packages env_all_ok bare_host fresh); reflexivity.
Defined.

(** The three ways out of [install_hailort] once the Debian package is
    dealt with. *)
Lemma install_wheel_and_verify_cases (env : Env) (host : Host) (st : Installer) :
  (exists cls msg,
     stat_path host (Stages.hailort_whl host) (history st) = Raises cls msg /\
     Stages.install_wheel_and_verify env host st = (Raise (Exc cls msg), st)) \/
  (exists cmds, Stages.install_wheel_and_verify env host st = (Ret false, ran cmds st)) \/
  (exists cmds,
     Stages.install_wheel_and_verify env host st
     = (Ret true, ran (cmds ++ [["which"; "hailortcli"]; Stages.import_check]) st) /\
     succeeds env Stages.import_check (ran (cmds ++ [["which"; "hailortcli"]]) st) = true).
Proof.
  remember (Stages.install_wheel_and_verify env host st) as r eqn:Er.
  unfold Stages.install_wheel_and_verify in Er.
  unfold bind at 1 in Er. unfold Stages.path_exists at 1 in Er.
  destruct (stat_path host (Stages.hailort_whl host) (history st)) as [[|]|cls msg];
    cbn [result_of] in Er.
  - unfold bind at 1 in Er. rewrite install_hailort_python_eq in Er. cbv zeta in Er.
    destruct (succeeds env ["pip3"; "install"; Stages.hailort_whl host] st); cbn [negb] in Er.
    + rewrite verify_hailort_installation_eq, !ran_ran in Er.
      destruct (succeeds env Stages.import_check
                  (ran ([["pip3"; "install"; Stages.hailort_whl host]]
                        ++ [["which"; "hailortcli"]]) st))
        eqn:E.
      * right; right. exists [["pip3"; "install"; Stages.hailort_whl host]].
        split; [exact Er | exact E].
      * right; left. eexists. exact Er.
    + right; left. eexists. exact Er.
  - rewrite verify_hailort_installation_eq in Er.
    destruct (succeeds env Stages.import_check (ran [["which"; "hailortcli"]] st)) eqn:E.
    + right; right. exists nil. split; [exact Er | exact E].
    + right; left. eexists. exact Er.
  - left. exists cls, msg. split; [reflexivity | exact Er].
Qed.

(** The same for the whole of [install_hailort]. *)
Lemma install_hailort_cases (env : Env) (host : Host) (st : Installer) :
  (exists cls msg cmds path,
     (path = Stages.hailort_deb host \/ path = Stages.hailort_whl host) /\
     stat_path host path (history (ran cmds st)) = Raises cls msg /\
     Stages.install_hailort env host st = (Raise (Exc cls msg), ran cmds st)) \/
  (exists cmds, Stages.install_hailort env host st = (Ret false, ran cmds st)) \/
  (exists cmds,
     Stages.install_hailort env host st
     = (Ret true, ran (cmds ++ [["which"; "hailortcli"]; Stages.import_check]) st) /\
     succeeds env Stages.import_check (ran (cmds ++ [["which"; "hailortcli"]]) st) = true).
Proof.
  assert (Hrest : forall pre,
    (exists cls msg cmds path,
       (path = Stages.hailort_deb host \/ path = Stages.hailort_whl host) /\
       stat_path host path (history (ran cmds st)) = Raises cls msg /\
       Stages.install_wheel_and_verify env host (ran pre st)
       = (Raise (Exc cls msg), ran cmds st)) \/
    (exists cmds,
       Stages.install_wheel_and_verify env host (ran pre st) = (Ret false, ran cmds st)) \/
    (exists cmds,
       Stages.install_wheel_and_verify env host (ran pre st)
       = (Ret true, ran (cmds ++ [["which"; "hailortcli"]; Stages.import_check]) st) /\
       succeeds env Stages.import_check (ran (cmds ++ [["which"; "hailortcli"]]) st) = true)).
  { intros pre.
    destruct (install_wheel_and_verify_cases env host (ran pre st))
      as [(cls & msg & Hs & E) | [(cmds & E) | (cmds & E & Hok)]].
    - left. exists cls, msg, pre, (Stages.hailort_whl host).
      split; [now right|]. split; [exact Hs | exact E].
    - right; left. exists (pre ++ cmds)%list. now rewrite E, ran_ran.
    - right; right. exists (pre ++ cmds)%list.
      rewrite ran_ran in E, Hok. rewrite <- !app_assoc.
      split; [exact E | exact Hok]. }
  remember (Stages.install_hailort env host st) as r eqn:Er.
  unfold Stages.install_hailort in Er.
  unfold bind at 1 in Er. unfold Stages.path_exists at 1 in Er.
  destruct (stat_path host (Stages.hailort_deb host) (history st)) as [[|]|cls msg] eqn:Hs;
    cbn [result_of] in Er.
  - unfold bind at 1 in Er. rewrite install_hailort_deb_eq in Er. cbv zeta in Er.
    destruct (succeeds env ["dpkg"; "-i"; Stages.hailort_deb host] st); cbn [negb] in Er.
    + rewrite Er. apply Hrest.
    + destruct (succeeds env ["dpkg"; "-i"; Stages.hailort_deb host]
                  (ran [["dpkg"; "-i"; Stages.hailort_deb host];
                        ["apt"; "-f"; "install"; "-y"]] st)); cbn [negb] in Er.
      * rewrite Er. apply Hrest.
      * right; left. eexists. exact Er.
  - rewrite <- (ran_nil st) in Er at 1. rewrite Er. apply Hrest.
  - left. exists cls, msg, nil, (Stages.hailort_deb host).
    rewrite ran_nil. split; [now left|]. split; [exact Hs | exact Er].
Qed.

(** X14: when [install_hailort] returns true, the last command it ran
    is the import of [hailo_platform], and that import succeeded. *)
Theorem install_hailort_true_means_importable (env : Env) (host : Host)
        (st st' : Installer) :
  Stages.install_hailort env host st = (Ret true, st') ->
  exists cmds,
    st' = ran (cmds ++ [["which"; "hailortcli"]; Stages.import_check]) st /\
    succeeds env Stages.import_check (ran (cmds ++ [["which"; "hailortcli"]]) st) = true.
Proof.
  intros E.
  destruct (install_hailort_cases env host st)
    as [(cls & msg & cmds & path & _ & _ & E') | [(cmds & E') | (cmds & E' & Hok)]];
    rewrite E' in E; try discriminate E.
  injection E as <-. exists cmds. split; [reflexivity | exact Hok].
Qed.

Lemma install_hailort_true_means_importable_witness :
  exists cmds,
    snd (Stages.install_hailort env_all_ok full_host fresh)
    = ran (cmds ++ [["which"; "hailortcli"]; Stages.import_check]) fresh /\
    succeeds env_all_ok Stages.import_check (ran (cmds ++ [["which"; "hailortcli"]]) fresh)
    = true.
Proof.
  apply (install_hailort_true_means_importable env_all_ok full_host fresh). reflexivity.
Defined.

(** X15: [install_hailort] touches neither the components nor the
    files: the state it leaves is the one it found with the commands it
    ran added.  It raises only what [Path.exists] raised on one of the
    two package paths, and then right after that call. *)
Theorem install_hailort_raises_only_from_exists (env : Env) (host : Host) (st : Installer) :
  exists cmds,
    snd (Stages.install_hailort env host st) = ran cmds st /\
    match fst (Stages.install_hailort env host st) with
    | Ret _ => True
    | Raise e =>
        exists cls msg path,
          e = Exc cls msg /\
          (path = Stages.hailort_deb host \/ path = Stages.hailort_whl host) /\
          stat_path host path (history (ran cmds st)) = Raises cls msg
    end.
Proof.
  destruct (install_hailort_cases env host st)
    as [(cls & msg & cmds & path & Hp & Hs & E) | [(cmds & E) | (cmds & E & _)]];
    rewrite E; cbn [fst snd]; eexists; (split; [reflexivity|]); try exact I.
  exists cls, msg, path. split; [reflexivity|]. split; [exact Hp | exact Hs].
Qed.

(** ** Validation *)

Lemma any_exists_eq (host : Host) (nodes : list string) (st : Installer) :
  Stages.any_exists host nodes st
  = (Ret (existsb (fun node => path_present host node st) nodes), st).
Proof.
  induction nodes as [|node rest IH]; cbn [Stages.any_exists existsb]; [reflexivity|].
  unfold bind at 1. unfold Stages.os_path_exists at 1.
  fold (path_present host node st).
  destruct (path_present host node st); [reflexivity | exact IH].
Qed.

Lemma all_passed_eq (p1 p2 p3 p4 : bool) :
  (if p4 then if p3 then if p2 then if p1 then true else false else false else false
   else false) = p1 && p2 && p3 && p4.
Proof. destruct p1, p2, p3, p4; reflexivity. Qed.

(** X16: [validate_installation] never raises and always runs its four
    tests, that is the same three commands in the same order, whatever
    each of them answers; it returns true exactly when the module list
    mentions [hailo] (in any letter case), the import and the container
    succeed, and one of the two device nodes is there. *)
Theorem validate_installation_runs_every_test (env : Env) (host : Host) (st : Installer) :
  let lsmod := ["lsmod"] in
  let import := ["python3"; "-c"; "import hailo_platform; print('OK')"] in
  let container := ["docker"; "run"; "--rm"; "--device=/dev/hailo0"; "hailo8:latest"] in
  let st' := ran [lsmod; import; container] st in
  Stages.validate_installation env host st =
  (Ret ((succeeds env lsmod st && contains "hailo" (lower (output env lsmod st)))
        && succeeds env import (ran [lsmod] st)
        && succeeds env container (ran [lsmod; import] st)
        && (path_present host "/dev/hailo0" st' || path_present host "/dev/hailo_pci" st')),
   st').
Proof.
  intros lsmod import container st'.
  unfold Stages.validate_installation, Stages.validation_tests.
  cbn [Stages.run_tests].
  unfold bind at 1. unfold try_except at 1. unfold Stages._test_driver at 1.
  exec_step. unfold ret at 1.
  unfold bind at 1. unfold try_except at 1. unfold Stages._test_hailort at 1.
  exec_step. unfold ret at 1.
  unfold bind at 1. unfold try_except at 1. unfold Stages._test_docker_integration at 1.
  exec_step. unfold ret at 1.
  unfold bind at 1. unfold try_except at 1. unfold Stages._test_device_access at 1.
  rewrite any_exists_eq. unfold ret.
  cbn [existsb Stages.device_nodes].
  rewrite all_passed_eq, orb_false_r. reflexivity.
Qed.

(** ** System checks *)

(** X17: neither the distribution nor the architecture can make the
    system check fail.  [_check_linux_distribution] returns true for
    every content of [/etc/os-release] (the list of supported
    distributions changes nothing) and false only when the file cannot
    be read; [_check_hardware_compatibility] runs [lspci], drops its
    result and returns true for every architecture name. *)
Theorem distribution_and_architecture_never_fail (env : Env) (host : Host) (st : Installer) :
  Stages._check_linux_distribution host st
  = (Ret (returned (read_text host "/etc/os-release" (history st))), st) /\
  Stages._check_hardware_compatibility env host st
  = (Ret (returned (platform_machine host (history (ran [["lspci"]] st)))),
     ran [["lspci"]] st).
Proof.
  split.
  - unfold Stages._check_linux_distribution, try_except, bind, Stages.read_file.
    destruct (read_text host "/etc/os-release" (history st)) as [os_info | cls msg];
      cbn [result_of returned]; [|reflexivity].
    destruct (existsb (fun distro => contains distro (lower os_info)) Stages.supported_distros);
      reflexivity.
  - unfold Stages._check_hardware_compatibility, try_except.
    exec_step. unfold bind.
    change (history (log_event (EvRun ["lspci"]) st)) with (history (ran [["lspci"]] st)).
    destruct (platform_machine host (history (ran [["lspci"]] st))) as [arch | cls msg];
      cbn [result_of returned]; [|reflexivity].
    destruct (existsb (String.eqb arch) ["x86_64"; "amd64"]); reflexivity.
Qed.

(** ** PCIe driver *)

Lemma load_hailo_driver_eq (env : Env) (st : Installer) :
  let modprobe := ["modprobe"; "hailo_pci"] in
  let insmod1 := ["insmod"; "/lib/modules/$(uname -r)/extra/hailo_pci.ko"] in
  let insmod2 := ["insmod"; "/lib/modules/$(uname -r)/kernel/drivers/misc/hailo_pci.ko"] in
  _load_hailo_driver env st =
  if succeeds env modprobe st then (Ret true, ran [modprobe] st)
  else if succeeds env insmod1 (ran [modprobe] st) then (Ret true, ran [modprobe; insmod1] st)
  else (Ret (succeeds env insmod2 (ran [modprobe; insmod1] st)),
        ran [modprobe; insmod1; insmod2] st).
Proof.
  intros modprobe insmod1 insmod2. unfold _load_hailo_driver, try_except.
  exec_step.
  change (fst (fst (command_result env ["modprobe"; "hailo_pci"] 300 (history st))))
    with (succeeds env modprobe st).
  destruct (succeeds env modprobe st); [reflexivity|].
  exec_step.
  change (fst (fst (command_result env
                      ["insmod"; "/lib/modules/$(uname -r)/extra/hailo_pci.ko"] 300
                      (history (log_event (EvRun ["modprobe"; "hailo_pci"]) st)))))
    with (succeeds env insmod1 (ran [modprobe] st)).
  destruct (succeeds env insmod1 (ran [modprobe] st)); [reflexivity|].
  exec_step.
  change (fst (fst (command_result env
                      ["insmod"; "/lib/modules/$(uname -r)/kernel/drivers/misc/hailo_pci.ko"]
                      300
                      (history (log_event
                                  (EvRun ["insmod"; "/lib/modules/$(uname -r)/extra/hailo_pci.ko"])
                                  (log_event (EvRun ["modprobe"; "hailo_pci"]) st))))))
    with (succeeds env insmod2 (ran [modprobe; insmod1] st)).
  destruct (succeeds env insmod2 (ran [modprobe; insmod1] st)); reflexivity.
Qed.

(** When the driver package is not in the package directory,
    [install_pcie_driver] returns false at once. *)
Lemma install_pcie_driver_missing (env : Env) (host : Host) (st : Installer) :
  stat_path host (Stages.driver_package host) (history st) = Returns false ->
  Stages.install_pcie_driver env host st = (Ret false, st).
Proof.
  intros H. unfold Stages.install_pcie_driver, bind, Stages.path_exists.
  rewrite H. reflexivity.
Qed.

Lemma retry_attempt_idle (env : Env) (f : M bool) (k : Key) (st : Installer) :
  (forall s, f s = (Ret false, s)) ->
  retry_attempt env f k st
  = (Ret None, mod_comp k count_retry (saved env (mod_comp k (set_status RUNNING) st))).
Proof.
  intros Hf. unfold retry_attempt, try_except.
  unfold bind at 1. unfold modify_component at 1.
  unfold bind at 1. rewrite save_state_eq.
  unfold bind at 1. rewrite Hf. reflexivity.
Qed.

(** The retry wrapper around an operation that returns false without
    doing anything. *)
Lemma retry_loop_idle (env : Env) (f : M bool) (k : Key) :
  (forall s, f s = (Ret false, s)) ->
  forall (n : nat) (st : Installer),
    Z.to_nat (max_retries (components st k) - retry_count (components st k)) = n ->
    exists st1,
      retry_loop env n f k st = (Ret false, st1) /\
      history st1 = history st /\
      status (components st1 k) = FAILED /\
      retry_count (components st1 k)
      = Z.max (retry_count (components st k)) (max_retries (components st k)) /\
      error_msg (components st1 k) = error_msg (components st k) /\
      (forall k', k' <> k -> components st1 k' = components st k').
Proof.
  intros Hf. induction n as [|n IH]; intros st Hn.
  - assert (C : (retry_count (components st k) <? max_retries (components st k)) = false)
      by (apply Z.ltb_ge; lia).
    cbn [retry_loop]. unfold bind at 1. unfold get_component at 1. rewrite C.
    unfold bind at 1. unfold modify_component at 1.
    unfold bind at 1. rewrite save_state_eq. unfold ret.
    eexists. split; [reflexivity|].
    autorewrite with installer.
    repeat split; try reflexivity.
    + cbn. apply Z.ltb_ge in C. lia.
    + intros k' Hk. now rewrite components_mod_other.
  - assert (C : (retry_count (components st k) <? max_retries (components st k)) = true)
      by (apply Z.ltb_lt; lia).
    cbn [retry_loop]. unfold bind at 1. unfold get_component at 1. rewrite C.
    unfold bind at 1. rewrite (retry_attempt_idle env f k st Hf).
    destruct (IH (mod_comp k count_retry (saved env (mod_comp k (set_status RUNNING) st))))
      as (st1 & E & Hh & Hs & Hrc & Hem & Hoth).
    { autorewrite with installer. cbn. lia. }
    exists st1. split; [exact E|].
    autorewrite with installer in Hh, Hrc, Hem.
    cbn [count_retry set_status set_retry_count retry_count max_retries error_msg] in Hrc, Hem.
    apply Z.ltb_lt in C.
    repeat split; try assumption.
    + rewrite Hrc. lia.
    + intros k' Hk. rewrite Hoth by assumption.
      repeat (rewrite ?components_mod_other, ?components_saved by assumption). reflexivity.
Qed.

(** X18: with the driver package missing from the package directory,
    the retry wrapper spends every attempt left on [install_pcie_driver]
    without a single command being run, returns false and leaves the
    component [FAILED] with its retry budget used up; no other
    component changes. *)
Theorem missing_driver_package_exhausts_retries (env : Env) (host : Host) (st : Installer) :
  (forall h, stat_path host (Stages.driver_package host) h = Returns false) ->
  exists st',
    _retry_operation env (Stages.install_pcie_driver env host) pcie_driver st
    = (Ret false, st') /\
    history st' = history st /\
    status (components st' pcie_driver) = FAILED /\
    retry_count (components st' pcie_driver)
    = Z.max (retry_count (components st pcie_driver))
            (max_retries (components st pcie_driver)) /\
    (forall k', k' <> pcie_driver -> components st' k' = components st k').
Proof.
  intros Hmissing. unfold _retry_operation.
  destruct (retry_loop_idle env (Stages.install_pcie_driver env host) pcie_driver
              (fun s => install_pcie_driver_missing env host s (Hmissing _))
              _ st eq_refl)
    as (st1 & E & Hh & Hs & Hrc & _ & Hoth).
  exists st1. repeat split; assumption.
Qed.

Lemma missing_driver_package_exhausts_retries_witness :
  exists st',
    _retry_operation env_all_ok (Stages.install_pcie_driver env_all_ok bare_host)
      pcie_driver fresh
    = (Ret false, st') /\
    history st' = history fresh /\
    status (components st' pcie_driver) = FAILED /\
    retry_count (components st' pcie_driver)
    = Z.max (retry_count (components fresh pcie_driver))
            (max_retries (components fresh pcie_driver)) /\
    (forall k', k' <> pcie_driver -> components st' k' = components fresh k').
Proof.
  apply (missing_driver_package_exhausts_retries env_all_ok bare_host fresh).
  intros h. reflexivity.
Defined.

Lemma history_ran (cmds : list (list string)) (st : Installer) :
  history (ran cmds st) = (rev (map EvRun cmds) ++ history st)%list.
Proof. reflexivity. Qed.

(** The state after the commands [b], from a state whose history is
    that after the commands [a]. *)
Lemma history_ran_from (a b : list (list string)) (st s : Installer) :
  history s = history (ran a st) -> history (ran b s) = history (ran (a ++ b) st).
Proof.
  intros H. rewrite <- ran_ran, !history_ran, H, history_ran. reflexivity.
Qed.

Lemma succeeds_history (env : Env) (argv : list string) (s s' : Installer) :
  history s = history s' -> succeeds env argv s = succeeds env argv s'.
Proof. unfold succeeds. now intros ->. Qed.

Lemma output_history (env : Env) (argv : list string) (s s' : Installer) :
  history s = history s' -> output env argv s = output env argv s'.
Proof. unfold output. now intros ->. Qed.

(** [_backup_driver_state] never raises; it runs [lsmod] and, unless
    the first backup file could not be written, [lspci], and changes no
    component. *)
Lemma backup_driver_state_spec (env : Env) (host : Host) (st : Installer) :
  exists st1 cmds,
    Stages._backup_driver_state env host st = (Ret tt, st1) /\
    history st1 = history (ran cmds st) /\
    components st1 = components st /\
    (cmds = [["lsmod"]] \/ cmds = [["lsmod"]; ["lspci"]]).
Proof.
  unfold Stages._backup_driver_state, try_except.
  exec_step.
  destruct (success_of (command_result env ["lsmod"] 300 (history st))).
  - unfold bind at 1. unfold Stages.write_text at 1.
    cbn [history log_event].
    destruct (open_write host _ (EvRun ["lsmod"] :: history st)) as [[]|cls msg].
    + exec_step.
      destruct (success_of (command_result env ["lspci"] 300 _)).
      * unfold Stages.write_text at 1. cbn [history log_event].
        destruct (open_write host _ _) as [[]|cls msg];
          eexists; exists [["lsmod"]; ["lspci"]]; repeat split; now right.
      * eexists; exists [["lsmod"]; ["lspci"]]; repeat split; now right.
    + eexists; exists [["lsmod"]]; repeat split; now left.
  - unfold bind at 1. unfold ret at 1. exec_step.
    destruct (success_of (command_result env ["lspci"] 300 _)).
    + unfold Stages.write_text at 1. cbn [history log_event].
      destruct (open_write host _ _) as [[]|cls msg];
        eexists; exists [["lsmod"]; ["lspci"]]; repeat split; now right.
    + eexists; exists [["lsmod"]; ["lspci"]]; repeat split; now right.
Qed.

Lemma verify_driver_installation_eq (env : Env) (host : Host) (st : Installer) :
  let lsmod := ["lsmod"] in
  let lspci := ["lspci"; "-d"; "1e60:"] in
  Stages._verify_driver_installation env host st =
  if succeeds env lsmod st && contains "hailo" (lower (output env lsmod st)) then
    if existsb (fun node => path_present host node (ran [lsmod] st)) Stages.device_nodes
    then (Ret true, ran [lsmod] st)
    else (Ret (succeeds env lspci (ran [lsmod] st)
               && nonempty (strip (output env lspci (ran [lsmod] st)))),
          ran [lsmod; lspci] st)
  else (Ret false, ran [lsmod] st).
Proof.
  intros lsmod lspci. unfold Stages._verify_driver_installation, try_except.
  exec_step.
  change (success_of (command_result env ["lsmod"] 300 (history st)))
    with (succeeds env lsmod st).
  change (stdout_of (command_result env ["lsmod"] 300 (history st)))
    with (output env lsmod st).
  destruct (succeeds env lsmod st && contains "hailo" (lower (output env lsmod st)));
    [|reflexivity].
  unfold bind at 1. rewrite any_exists_eq.
  change (log_event (EvRun ["lsmod"]) st) with (ran [lsmod] st).
  destruct (existsb (fun node => path_present host node (ran [lsmod] st)) Stages.device_nodes);
    [reflexivity|].
  exec_step.
  change (success_of (command_result env ["lspci"; "-d"; "1e60:"] 300
                        (history (ran [lsmod] st))))
    with (succeeds env lspci (ran [lsmod] st)).
  change (stdout_of (command_result env ["lspci"; "-d"; "1e60:"] 300
                       (history (ran [lsmod] st))))
    with (output env lspci (ran [lsmod] st)).
  destruct (succeeds env lspci (ran [lsmod] st)
            && nonempty (strip (output env lspci (ran [lsmod] st)))); reflexivity.
Qed.

(** What a true result of the loading and the verification tells. *)
Lemma load_and_verify_true (env : Env) (host : Host) (s s' : Installer) :
  Stages.load_and_verify env host s = (Ret true, s') ->
  exists before after,
    s' = ran (before ++ ["lsmod"] :: after) s /\
    succeeds env ["lsmod"] (ran before s) = true /\
    contains "hailo" (lower (output env ["lsmod"] (ran before s))) = true /\
    (existsb (fun node => path_present host node (ran (before ++ [["lsmod"]]) s))
       Stages.device_nodes = true /\ after = nil \/
     nonempty (strip (output env ["lspci"; "-d"; "1e60:"] (ran (before ++ [["lsmod"]]) s)))
     = true /\ after = [["lspci"; "-d"; "1e60:"]]).
Proof.
  unfold Stages.load_and_verify. unfold bind at 1.
  rewrite load_hailo_driver_eq. cbv zeta.
  assert (Hv : forall before,
    (verified <- Stages._verify_driver_installation env host ;;
     if (verified : bool) then ret true else ret false) (ran before s) = (Ret true, s') ->
    exists before0 after,
      s' = ran (before0 ++ ["lsmod"] :: after) s /\
      succeeds env ["lsmod"] (ran before0 s) = true /\
      contains "hailo" (lower (output env ["lsmod"] (ran before0 s))) = true /\
      (existsb (fun node => path_present host node (ran (before0 ++ [["lsmod"]]) s))
         Stages.device_nodes = true /\ after = nil \/
       nonempty (strip (output env ["lspci"; "-d"; "1e60:"] (ran (before0 ++ [["lsmod"]]) s)))
       = true /\ after = [["lspci"; "-d"; "1e60:"]])).
  { intros before. unfold bind at 1. rewrite verify_driver_installation_eq. cbv zeta.
    destruct (succeeds env ["lsmod"] (ran before s)
              && contains "hailo" (lower (output env ["lsmod"] (ran before s)))) eqn:E1;
      [|discriminate].
    apply andb_prop in E1. destruct E1 as [E1 E2].
    rewrite ran_ran.
    destruct (existsb (fun node => path_present host node (ran (before ++ [["lsmod"]]) s))
                Stages.device_nodes) eqn:E3.
    - unfold ret. intros H. injection H as <-.
      exists before, nil. repeat split; try assumption. now left.
    - destruct (succeeds env ["lspci"; "-d"; "1e60:"] (ran (before ++ [["lsmod"]]) s)
                && nonempty (strip (output env ["lspci"; "-d"; "1e60:"]
                                      (ran (before ++ [["lsmod"]]) s)))) eqn:E4;
        [|discriminate].
      apply andb_prop in E4. destruct E4 as [_ E4].
      unfold ret. rewrite ran_ran. intros H. injection H as <-.
      exists before, [["lspci"; "-d"; "1e60:"]].
      repeat split; try assumption. now right. }
  destruct (succeeds env ["modprobe"; "hailo_pci"] s); cbn [negb].
  - apply Hv.
  - destruct (succeeds env ["insmod"; "/lib/modules/$(uname -r)/extra/hailo_pci.ko"]
                (ran [["modprobe"; "hailo_pci"]] s)); cbn [negb].
    + apply Hv.
    + destruct (succeeds env
                  ["insmod"; "/lib/modules/$(uname -r)/kernel/drivers/misc/hailo_pci.ko"]
                  (ran [["modprobe"; "hailo_pci"];
                        ["insmod"; "/lib/modules/$(uname -r)/extra/hailo_pci.ko"]] s));
        cbn [negb]; [apply Hv | discriminate].
Qed.

Lemma path_present_history (host : Host) (path : string) (s s' : Installer) :
  history s = history s' -> path_present host path s = path_present host path s'.
Proof. unfold path_present. now intros ->. Qed.

(** X19: when [install_pcie_driver] returns true, the driver package
    was in the package directory, [dpkg -i] was run on it, and the last
    thing the function did was its verification: [lsmod] succeeded and
    its output mentions [hailo] (in any letter case), and then either
    one of the two device nodes was there or [lspci -d 1e60:] printed
    something.  No component was changed. *)
Theorem install_pcie_driver_true_means_module_listed (env : Env) (host : Host)
        (st st' : Installer) :
  Stages.install_pcie_driver env host st = (Ret true, st') ->
  exists before after,
    history st' = history (ran (before ++ ["lsmod"] :: after) st) /\
    components st' = components st /\
    stat_path host (Stages.driver_package host) (history st) = Returns true /\
    In ["dpkg"; "-i"; Stages.driver_package host] before /\
    succeeds env ["lsmod"] (ran before st) = true /\
    contains "hailo" (lower (output env ["lsmod"] (ran before st))) = true /\
    (existsb (fun node => path_present host node (ran (before ++ [["lsmod"]]) st))
       Stages.device_nodes = true /\ after = nil \/
     nonempty (strip (output env ["lspci"; "-d"; "1e60:"] (ran (before ++ [["lsmod"]]) st)))
     = true /\ after = [["lspci"; "-d"; "1e60:"]]).
Proof.
  unfold Stages.install_pcie_driver.
  unfold bind at 1. unfold Stages.path_exists at 1.
  destruct (stat_path host (Stages.driver_package host) (history st)) as [[|]|cls msg];
    cbn [result_of negb]; try discriminate.
  unfold bind at 1.
  destruct (backup_driver_state_spec env host st) as (st1 & cmds0 & E0 & Hh0 & Hc0 & _).
  rewrite E0.
  assert (Hmain : forall pre,
    In ["dpkg"; "-i"; Stages.driver_package host] pre ->
    Stages.load_and_verify env host (ran pre st1) = (Ret true, st') ->
    exists before after,
      history st' = history (ran (before ++ ["lsmod"] :: after) st) /\
      components st' = components st /\
      Returns true = Returns true /\
      In ["dpkg"; "-i"; Stages.driver_package host] before /\
      succeeds env ["lsmod"] (ran before st) = true /\
      contains "hailo" (lower (output env ["lsmod"] (ran before st))) = true /\
      (existsb (fun node => path_present host node (ran (before ++ [["lsmod"]]) st))
         Stages.device_nodes = true /\ after = nil \/
       nonempty (strip (output env ["lspci"; "-d"; "1e60:"]
                          (ran (before ++ [["lsmod"]]) st)))
       = true /\ after = [["lspci"; "-d"; "1e60:"]])).
  { intros pre Hpre E.
    destruct (load_and_verify_true env host _ _ E)
      as (before & after & -> & Hls & Hco & Hdev).
    assert (Hb : forall tail,
              history (ran (before ++ tail) (ran pre st1))
              = history (ran ((cmds0 ++ pre ++ before) ++ tail) st)).
    { intros tail. rewrite ran_ran. rewrite (history_ran_from cmds0 _ st st1 Hh0).
      now rewrite <- !app_assoc. }
    exists (cmds0 ++ pre ++ before)%list, after.
    split; [apply Hb|]. split; [exact Hc0|]. split; [reflexivity|].
    split; [apply in_or_app; right; apply in_or_app; now left|].
    assert (Hb0 : history (ran before (ran pre st1))
                  = history (ran (cmds0 ++ pre ++ before) st)).
    { specialize (Hb nil). now rewrite !app_nil_r in Hb. }
    split; [now rewrite <- (succeeds_history env _ _ _ Hb0)|].
    split; [now rewrite <- (output_history env _ _ _ Hb0)|].
    destruct Hdev as [[Hd ->] | [Hd ->]]; [left | right]; (split; [|reflexivity]).
    - unfold Stages.device_nodes in Hd |- *. cbn [existsb] in Hd |- *.
      rewrite !(path_present_history host _ _ _ (Hb [["lsmod"]])) in Hd. exact Hd.
    - now rewrite <- (output_history env _ _ _ (Hb [["lsmod"]])). }
  exec_step.
  destruct (success_of (command_result env ["dpkg"; "-i"; Stages.driver_package host] 300
                          (history st1))); cbn [negb].
  - apply (Hmain [["dpkg"; "-i"; Stages.driver_package host]]). now left.
  - do 2 exec_step.
    destruct (success_of (command_result env ["dpkg"; "-i"; Stages.driver_package host] 300 _));
      cbn [negb]; [|discriminate].
    apply (Hmain [["dpkg"; "-i"; Stages.driver_package host];
                  ["apt"; "-f"; "install"; "-y"];
                  ["dpkg"; "-i"; Stages.driver_package host]]). now left.
Qed.

Lemma install_pcie_driver_true_means_module_listed_witness :
  exists before after,
    history (snd (Stages.install_pcie_driver env_hailo_loaded full_host fresh))
    = history (ran (before ++ ["lsmod"] :: after) fresh) /\
    components (snd (Stages.install_pcie_driver env_hailo_loaded full_host fresh))
    = components fresh /\
    stat_path full_host (Stages.driver_package full_host) (history fresh) = Returns true /\
    In ["dpkg"; "-i"; Stages.driver_package full_host] before /\
    succeeds env_hailo_loaded ["lsmod"] (ran before fresh) = true /\
    contains "hailo" (lower (output env_hailo_loaded ["lsmod"] (ran before fresh))) = true /\
    (existsb (fun node => path_present full_host node (ran (before ++ [["lsmod"]]) fresh))
       Stages.device_nodes = true /\ after = nil \/
     nonempty (strip (output env_hailo_loaded ["lspci"; "-d"; "1e60:"]
                        (ran (before ++ [["lsmod"]]) fresh)))
     = true /\ after = [["lspci"; "-d"; "1e60:"]]).
Proof.
  apply (install_pcie_driver_true_means_module_listed env_hailo_loaded full_host fresh).
  vm_compute. reflexivity.
Defined.

(** ** Docker *)

(** X20: [_install_docker] never raises, and its result is that of the
    one command [apt install -y docker-ce docker-ce-cli containerd.io]:
    the commands for the key and for the repository (to which the bar
    and what follows it are handed as arguments) and [apt update] are
    run and their results dropped, as are those of starting and enabling
    the service, which are run only when the installation succeeded. *)
Theorem install_docker_result_is_apt_install (env : Env) (st : Installer) :
  let key :=
    ["curl"; "-fsSL"; "https://download.docker.com/linux/ubuntu/gpg";
     "|"; "gpg"; "--dearmor"; "-o"; "/usr/share/keyrings/docker-archive-keyring.gpg"] in
  let repository :=
    ["echo";
     "deb [arch=amd64 signed-by=/usr/share/keyrings/docker-archive-keyring.gpg] https://download.docker.com/linux/ubuntu $(lsb_release -cs) stable";
     "|"; "tee"; "/etc/apt/sources.list.d/docker.list"] in
  let update := ["apt"; "update"] in
  let install := ["apt"; "install"; "-y"; "docker-ce"; "docker-ce-cli"; "containerd.io"] in
  let installed := succeeds env install (ran [key; repository; update] st) in
  Stages._install_docker env st =
  (Ret installed,
   ran ([key; repository; update; install]
        ++ if installed
           then [["systemctl"; "start"; "docker"]; ["systemctl"; "enable"; "docker"]]
           else nil) st).
Proof.
  intros key repository update install installed.
  unfold Stages._install_docker, try_except.
  do 4 exec_step.
  change (success_of (command_result env
            ["apt"; "install"; "-y"; "docker-ce"; "docker-ce-cli"; "containerd.io"] 300 _))
    with installed.
  destruct installed; cbn [negb]; [|reflexivity].
  do 2 exec_step. reflexivity.
Qed.




(** ** The Docker manager *)

Ltac run_step :=
  unfold bind at 1; rewrite run_command_eq; cbn beta iota.

(** The loop over a list of commands stops at the first one that
    fails. *)
Lemma run_commands_spec (env : Env) (cmds : list (list string)) :
  forall st,
    (DockerManager.run_commands env cmds st = (Ret true, ran cmds st) /\
     forall i, (i < List.length cmds)%nat ->
       succeeds env (nth i cmds nil) (ran (firstn i cmds) st) = true) \/
    (exists n,
       (n < List.length cmds)%nat /\
       DockerManager.run_commands env cmds st = (Ret false, ran (firstn (S n) cmds) st) /\
       succeeds env (nth n cmds nil) (ran (firstn n cmds) st) = false /\
       forall i, (i < n)%nat ->
         succeeds env (nth i cmds nil) (ran (firstn i cmds) st) = true).
Proof.
  induction cmds as [|c rest IH]; intros st.
  - left. cbn [DockerManager.run_commands]. rewrite ran_nil.
    split; [reflexivity|]. cbn. intros i Hi. lia.
  - remember (DockerManager.run_commands env (c :: rest) st) as r eqn:Er.
    cbn [DockerManager.run_commands] in Er.
    unfold bind at 1 in Er. rewrite run_command_eq in Er. cbn beta iota in Er.
    change (success_of (command_result env c 300 (history st)))
      with (succeeds env c st) in Er.
    destruct (succeeds env c st) eqn:Ec; cbn [negb] in Er.
    + destruct (IH (log_event (EvRun c) st)) as [[E Hall] | (n & Hn & E & Hfail & Hall)];
        rewrite E, ran_cons in Er.
      * left. split; [exact Er|].
        intros [|i] Hi; cbn [nth firstn].
        -- now rewrite ran_nil.
        -- rewrite <- ran_cons. apply Hall. cbn in Hi. lia.
      * right. exists (S n). split; [cbn; lia|].
        split; [exact Er|].
        cbn [nth firstn]. rewrite <- ran_cons. split; [exact Hfail|].
        intros [|i] Hi; cbn [nth firstn].
        -- now rewrite ran_nil.
        -- rewrite <- ran_cons. apply Hall. lia.
    + right. exists 0%nat. split; [cbn; lia|].
      split; [exact Er|]. cbn [nth firstn]. rewrite ran_nil.
      split; [exact Ec|]. intros i Hi. lia.
Qed.

(** The two installation methods share their shape: a list of commands,
    then the start of the service, then its enabling. *)
Lemma install_script_spec (env : Env) (cmds : list (list string))
      (docker_available : bool) (st : Installer) :
  let script :=
    (cmds ++ [["systemctl"; "start"; "docker"]; ["systemctl"; "enable"; "docker"]])%list in
  exists (b : bool) (n : nat),
    (done <- DockerManager.run_commands env cmds ;;
     if negb done then ret (false, docker_available)
     else DockerManager.start_service env docker_available) st
    = (Ret (b, docker_available || b), ran (firstn n script) st) /\
    (b = true ->
     n = List.length script /\
     forall i, (i <= List.length cmds)%nat ->
       succeeds env (nth i script nil) (ran (firstn i script) st) = true) /\
    (b = false ->
     (n <= List.length cmds + 1)%nat /\
     exists m, n = S m /\
       succeeds env (nth m script nil) (ran (firstn m script) st) = false /\
       forall i, (i < m)%nat ->
         succeeds env (nth i script nil) (ran (firstn i script) st) = true).
Proof.
  intros script.
  assert (Hnth : forall i, (i < List.length cmds)%nat -> nth i script nil = nth i cmds nil)
    by (intros i Hi; unfold script; now rewrite app_nth1).
  assert (Hfirst : forall i, (i <= List.length cmds)%nat -> firstn i script = firstn i cmds).
  { intros i Hi. unfold script. rewrite firstn_app.
    replace (i - List.length cmds)%nat with 0%nat by lia.
    cbn [firstn]. now rewrite app_nil_r. }
  unfold bind at 1.
  destruct (run_commands_spec env cmds st) as [[E Hall] | (n & Hn & E & Hfail & Hall)];
    rewrite E; cbn [negb].
  - unfold DockerManager.start_service. run_step.
    change (success_of (command_result env ["systemctl"; "start"; "docker"] 300
                          (history (ran cmds st))))
      with (succeeds env ["systemctl"; "start"; "docker"] (ran cmds st)).
    destruct (succeeds env ["systemctl"; "start"; "docker"] (ran cmds st)) eqn:Es;
      cbn [negb].
    + run_step. unfold ret.
      exists true, (List.length script). rewrite orb_true_r, firstn_all.
      split.
      { unfold script. rewrite <- ran_ran. reflexivity. }
      split; [|discriminate]. intros _. split; [reflexivity|].
      intros i Hi. destruct (Nat.eq_dec i (List.length cmds)) as [-> | Hne].
      * rewrite Hfirst by lia. rewrite firstn_all.
        unfold script. rewrite app_nth2 by lia. 
        replace (List.length cmds - List.length cmds)%nat with 0%nat by lia. exact Es.
      * rewrite Hnth, Hfirst by lia. apply Hall. lia.
    + unfold ret. exists false, (S (List.length cmds)).
      rewrite orb_false_r. split.
      { unfold script. rewrite firstn_app.
        replace (S (List.length cmds) - List.length cmds)%nat with 1%nat by lia.
        rewrite firstn_all2 by lia. cbn [firstn]. rewrite <- ran_ran. reflexivity. }
      split; [discriminate|]. intros _. split; [lia|].
      exists (List.length cmds). split; [reflexivity|]. split.
      * rewrite Hfirst by lia. rewrite firstn_all.
        unfold script. rewrite app_nth2 by lia.
        replace (List.length cmds - List.length cmds)%nat with 0%nat by lia. exact Es.
      * intros i Hi. rewrite Hnth, Hfirst by lia. apply Hall. exact Hi.
  - unfold ret. exists false, (S n). rewrite orb_false_r.
    rewrite (Hfirst (S n)) by lia.
    split; [reflexivity|]. split; [discriminate|]. intros _. split; [lia|].
    exists n. split; [reflexivity|]. split.
    + rewrite Hnth, Hfirst by lia. exact Hfail.
    + intros i Hi. rewrite Hnth, Hfirst by lia. apply Hall. exact Hi.
Qed.

(** X22: [_install_docker_debian] and [_install_docker_rhel] never
    raise and run their commands in order up to the first that fails.
    They return true exactly when every command up to the start of the
    service succeeded; the last command, enabling the service, is then
    run too and its result dropped.  When they return false, the last
    command they ran failed and every command before it succeeded.  The
    attribute [docker_available] becomes true when they return true and
    keeps its value otherwise. *)
Theorem docker_install_stops_at_first_failure (env : Env) (docker_available : bool)
        (st : Installer) :
  let finish := [["systemctl"; "start"; "docker"]; ["systemctl"; "enable"; "docker"]] in
  let stops_at_first_failure (install : M (bool * bool)) (script : list (list string)) :=
    exists (b : bool) (n : nat),
      install st = (Ret (b, docker_available || b), ran (firstn n script) st) /\
      (b = true ->
       n = List.length script /\
       forall i, (i < List.length script - 1)%nat ->
         succeeds env (nth i script nil) (ran (firstn i script) st) = true) /\
      (b = false ->
       (n < List.length script)%nat /\
       exists m, n = S m /\
         succeeds env (nth m script nil) (ran (firstn m script) st) = false /\
         forall i, (i < m)%nat ->
           succeeds env (nth i script nil) (ran (firstn i script) st) = true) in
  stops_at_first_failure (DockerManager._install_docker_debian env docker_available)
    (DockerManager.debian_commands ++ finish)%list /\
  stops_at_first_failure (DockerManager._install_docker_rhel env docker_available)
    (DockerManager.rhel_commands ++ finish)%list.
Proof.
  intros finish stops_at_first_failure. split.
  - destruct (install_script_spec env DockerManager.debian_commands docker_available st)
      as (b & n & E & Ht & Hf).
    exists b, n. split; [exact E|]. split.
    + intros Hb. destruct (Ht Hb) as [Hn Hall]. split; [exact Hn|].
      intros i Hi. apply Hall. cbn in Hi |- *. lia.
    + intros Hb. destruct (Hf Hb) as [Hn Hm]. split; [cbn in Hn |- *; lia | exact Hm].
  - destruct (install_script_spec env DockerManager.rhel_commands docker_available st)
      as (b & n & E & Ht & Hf).
    exists b, n. split; [exact E|]. split.
    + intros Hb. destruct (Ht Hb) as [Hn Hall]. split; [exact Hn|].
      intros i Hi. apply Hall. cbn in Hi |- *. lia.
    + intros Hb. destruct (Hf Hb) as [Hn Hm]. split; [cbn in Hn |- *; lia | exact Hm].
Qed.

(** X23: when Docker is not available and [lsb_release -si] succeeds,
    [install_docker] decides on the output of that command alone
    (stripped, in lower case): its result and the state it leaves are
    the same on every host, so whether [/etc/debian_version] or
    [/etc/redhat-release] is there has no influence on them; and if the
    output names none of [ubuntu], [debian], [centos], [rhel] and
    [redhat], the method returns false after that single command. *)
Theorem install_docker_decides_on_lsb_release (env : Env) (host : Host) (st : Installer) :
  let lsb_release := ["lsb_release"; "-si"] in
  let distro := lower (strip (output env lsb_release st)) in
  succeeds env lsb_release st = true ->
  (forall host' : Host,
     DockerManager.install_docker env host' false st
     = DockerManager.install_docker env host false st) /\
  (existsb (fun word => contains word distro) ["ubuntu"; "debian"; "centos"; "rhel"; "redhat"]
   = false ->
   DockerManager.install_docker env host false st
   = (Ret (false, false), ran [lsb_release] st)).
Proof.
  intros lsb_release distro Hok.
  assert (Hrun : forall h : Host,
    DockerManager.install_docker env h false st =
    try_except
      (if contains "ubuntu" distro || contains "debian" distro then
         DockerManager._install_docker_debian env false
       else if contains "centos" distro || contains "rhel" distro || contains "redhat" distro
       then DockerManager._install_docker_rhel env false
       else ret (false, false))
      (fun _ _ => ret (false, false)) (ran [lsb_release] st)).
  { intros h. unfold DockerManager.install_docker, try_except.
    unfold bind at 1. unfold DockerManager.detect_distro. run_step.
    change (success_of (command_result env ["lsb_release"; "-si"] 300 (history st)))
      with (succeeds env lsb_release st).
    change (stdout_of (command_result env ["lsb_release"; "-si"] 300 (history st)))
      with (output env lsb_release st).
    rewrite Hok. unfold ret at 1. fold distro. reflexivity. }
  split.
  - intros host'. now rewrite !Hrun.
  - intros Hno. rewrite Hrun.
    cbn [existsb] in Hno. rewrite orb_false_r in Hno.
    repeat (apply orb_false_elim in Hno; destruct Hno as [? Hno]).
    repeat match goal with H : contains _ distro = false |- _ => rewrite H; clear H end.
    reflexivity.
Qed.

Lemma install_docker_decides_on_lsb_release_witness :
  path_present full_host "/etc/redhat-release" fresh = true /\
  path_present bare_host "/etc/redhat-release" fresh = false /\
  (forall host' : Host,
     DockerManager.install_docker env_fedora host' false fresh
     = DockerManager.install_docker env_fedora full_host false fresh) /\
  DockerManager.install_docker env_fedora full_host false fresh
  = (Ret (false, false), ran [["lsb_release"; "-si"]] fresh).
Proof.
  split; [reflexivity|]. split; [reflexivity|].
  destruct (install_docker_decides_on_lsb_release env_fedora full_host fresh eq_refl)
    as [Hsame Hfalse].
  split; [exact Hsame | apply Hfalse; reflexivity].
Defined.

(** ** Rollback *)

(** X24: [rollback_installation] runs the same five commands in the
    same order whatever each of them answers (it stops the Docker
    service and never starts it again), and it keeps the [name], [type],
    [version], [rollback_data] and [max_retries] of every component. *)
Theorem rollback_runs_five_commands (env : Env) (st : Installer) (k : Key) :
  history (snd (rollback_installation env st))
  = history (ran [ ["systemctl"; "stop"; "docker"];
                   ["rmmod"; "hailo_pci"];
                   ["dpkg"; "-r"; "hailort"];
                   ["dpkg"; "-r"; "hailort-pcie-driver"];
                   ["pip3"; "uninstall"; "-y"; "hailort"] ] st) /\
  same_identity (components st k) (components (snd (rollback_installation env st)) k).
Proof.
  destruct (rollback_installation_spec env st) as (st' & E & Hc & Hh).
  rewrite E. cbn [snd]. split; [exact Hh|].
  rewrite Hc. repeat split.
Qed.
